(** * led_reading_plugin: the burst cycle, the interval setter and the
      MQTT-to-SQLite ingestion path

    Shallow embedding of [led_reading_plugin/led_reading.py] (class
    [LEDReader]: [_burst_cycle], [set_interval]) and of
    [led_reading_plugin/__init__.py] ([_parser] and the topic it is
    registered under).

    Python's [float] is IEEE binary64; it is modelled by Rocq's primitive
    [float], whose operations are the same binary64 operations with
    round-to-nearest-even.  Python's [int] is modelled by [Z].  Calls into
    the host (LED driver, ADC driver, [sleep], [time], SQLite, MQTT) are
    answered by an environment [env] that fixes, call by call, what each of
    them returns or raises; everything the cycle does to the outside is
    recorded, in order, in a trace of events. *)

From Stdlib Require Import ZArith List String Ascii Bool Lia Floats.
Import ListNotations.

Local Open Scope Z_scope.

(* ================================================================== *)
(** ** Python exceptions and results *)

(** Instances of Python's [Exception]: the class every handler of the
    module names ([except Exception]). *)
Inductive exn : Type :=
| ValueError (msg : string)
| KeyError (key : string)
| TypeError (msg : string)
| OverflowError (msg : string)
| ZeroDivisionError (msg : string)
| HostError (cls msg : string).

Inductive result (A : Type) : Type :=
| Ok (a : A)
| Raise (e : exn).
Arguments Ok {A} a.
Arguments Raise {A} e.

Definition rbind {A B : Type} (r : result A) (k : A -> result B) : result B :=
  match r with
  | Ok a => k a
  | Raise e => Raise e
  end.

(* ================================================================== *)
(** ** binary64 arithmetic as Python exposes it *)

Module Py.

(** [float(n)] for an [int] n: correctly rounded, [OverflowError] when the
    rounded value does not fit. *)
Definition Z2SF (z : Z) : spec_float := binary_normalize prec emax z 0 false.

Definition float_of_int (z : Z) : result float :=
  match Z2SF z with
  | S754_infinity _ => Raise (OverflowError "int too large to convert to float")
  | sf => Ok (SF2Prim sf)
  end.

(** [a / b] on floats: division by zero raises. *)
Definition truediv (a b : float) : result float :=
  if (b =? 0)%float then Raise (ZeroDivisionError "float division by zero")
  else Ok (a / b)%float.

(** [n / b] with an [int] on the left: the int is converted first. *)
Definition int_truediv (n : Z) (b : float) : result float :=
  rbind (float_of_int n) (fun a => truediv a b).

(** [a / n] with an [int] on the right. *)
Definition truediv_int (a : float) (n : Z) : result float :=
  rbind (float_of_int n) (fun b => truediv a b).

(** The builtin [max(a, b)]: the first argument is kept unless the second
    compares greater. *)
Definition max2 (a b : float) : float :=
  if (a <? b)%float then b else a.

(** [int(x)] for a float x: truncation toward zero. *)
Definition int_of_float (x : float) : result Z :=
  match Prim2SF x with
  | S754_zero _ => Ok 0
  | S754_finite s m e =>
      let mag := match e with
                 | Zneg p => Z.shiftr (Zpos m) (Zpos p)
                 | _ => Z.shiftl (Zpos m) e
                 end in
      Ok (if s then - mag else mag)
  | S754_infinity _ => Raise (OverflowError "cannot convert float infinity to integer")
  | S754_nan => Raise (ValueError "cannot convert float NaN to integer")
  end.

(** [time.sleep] counts in nanoseconds on 64 bits: a length is refused when
    [seconds * 1e9] lies beyond that range. *)
Definition sleep_overflows (seconds : float) : bool :=
  ((seconds * 1e9 <? - 0x1p63) || (0x1p63 <? seconds * 1e9))%float.

End Py.

(** Float literals of the source, written in hexadecimal so that they are
    exactly the doubles Python reads. *)
Definition f0_02 : float := 0x1.47ae147ae147bp-6%float.   (* 0.02 *)
Definition f0_05 : float := 0x1.999999999999ap-5%float.   (* 0.05 *)
Definition f1000 : float := 1000%float.                   (* 1000.0 *)

(* ================================================================== *)
(** ** The statistics of a burst: [sum], [min], [max], average

    Written over the arithmetic it needs; the program runs it on
    binary64. *)

Class Number (F : Type) : Type := {
  num_zero : F;                 (* 0.0, and the int 0 [sum] starts from *)
  num_add : F -> F -> F;
  num_div : F -> F -> F;
  num_of_len : nat -> F;        (* len(samples), converted for the division *)
  num_ltb : F -> F -> bool;     (* < *)
}.

#[export] Instance binary64 : Number float := {
  num_zero := 0%float;
  num_add := PrimFloat.add;
  num_div := PrimFloat.div;
  num_of_len := fun n => SF2Prim (Py.Z2SF (Z.of_nat n));
  num_ltb := PrimFloat.ltb;
}.

Section Stats.
Context {F : Type} `{Number F}.

(** [sum(samples)]: left to right from 0. *)
Definition py_sum (samples : list F) : F :=
  fold_left num_add samples num_zero.

(** [min(samples)] keeps the first item until a later one compares less;
    [max(samples)] until a later one compares greater.  Both are only
    called on a non-empty list. *)
Definition py_min (first : F) (rest : list F) : F :=
  fold_left (fun m x => if num_ltb x m then x else m) rest first.

Definition py_max (first : F) (rest : list F) : F :=
  fold_left (fun m x => if num_ltb m x then x else m) rest first.

(** Lines 312-319: [(avg_v, mn, mx)]. *)
Definition burst_stats (samples : list F) : F * F * F :=
  match samples with
  | [] => (num_zero, num_zero, num_zero)
  | x :: rest =>
      (num_div (py_sum samples) (num_of_len (List.length samples)),
       py_min x rest,
       py_max x rest)
  end.

Definition avg_of (samples : list F) : F := fst (fst (burst_stats samples)).
Definition min_of (samples : list F) : F := snd (fst (burst_stats samples)).
Definition max_of (samples : list F) : F := snd (burst_stats samples).
End Stats.

(** CPython 3.12 and later sum floats with Neumaier's compensation; the
    plain left fold above is what earlier versions do. *)
Definition neumaier_step (acc : float * float) (x : float) : float * float :=
  let '(s, c) := acc in
  let t := (s + x)%float in
  if (abs x <=? abs s)%float
  then (t, (c + ((s - t) + x))%float)
  else (t, (c + ((x - t) + s))%float).

Definition py_sum_compensated (samples : list float) : float :=
  let '(s, c) := fold_left neumaier_step samples (0%float, 0%float) in
  if negb (c =? 0)%float && negb (is_nan c) && negb (is_infinity c)
  then (s + c)%float else s.

(* ================================================================== *)
(** ** The job, the rows it writes and the messages it publishes *)

(** [current_utc_datetime()] returns a datetime; the cycle binds it to the
    INSERT, where sqlite3 adapts it to text, and calls [isoformat()] on it. *)
Record datetime : Type := { isoformat : string; sqlite_text : string }.

(** The attributes of a [LEDReader] that the cycle and the setter touch. *)
Record job : Type := {
  job_unit : string;                (* self.unit *)
  experiment : string;
  interval : float;
  led_channel : string;
  led_intensity : float;
  settle_ms : Z;
  burst_seconds : float;
  target_samples : Z;
  angle : Z;
  last_burst_avg : option float;    (* absent until a cycle assigns it *)
  record_timer_interval : float;    (* self.record_timer.interval *)
}.

Definition with_last_burst_avg (v : float) (j : job) : job :=
  {| job_unit := job_unit j; experiment := experiment j;
     interval := interval j; led_channel := led_channel j;
     led_intensity := led_intensity j; settle_ms := settle_ms j;
     burst_seconds := burst_seconds j; target_samples := target_samples j;
     angle := angle j; last_burst_avg := Some v;
     record_timer_interval := record_timer_interval j |}.

Definition with_interval (v : float) (j : job) : job :=
  {| job_unit := job_unit j; experiment := experiment j;
     interval := v; led_channel := led_channel j;
     led_intensity := led_intensity j; settle_ms := settle_ms j;
     burst_seconds := burst_seconds j; target_samples := target_samples j;
     angle := angle j; last_burst_avg := last_burst_avg j;
     record_timer_interval := v |}.

(** The six values bound to the INSERT of lines 332-344; the same six
    columns are what [_parser] returns. *)
Record db_row : Type := {
  row_experiment : string;
  row_pioreactor_unit : string;
  row_timestamp : string;
  row_led_reading : float;
  row_angle : Z;
  row_channel : Z;
}.

(** JSON values.  [json.dumps] on the sender and [json.loads] on the
    receiver are inverse on the values used here, so the wire carries the
    value itself. *)
#[warnings="-register-all"]
Inductive json : Type :=
| JNull
| JBool (b : bool)
| JFloat (x : float)
| JInt (n : Z)
| JString (s : string)
| JArray (items : list json)
| JObject (fields : list (string * json)).

(** What the module prints, without the wall-clock prefix of [_now()]. *)
Inductive log_msg : Type :=
| LogBurstStart
| LogSettling (settle_s : float)
| LogSamplingPlan (burst_s : float) (target : Z) (target_dt : float)
| LogSamplingError (e : exn)
| LogSamples (n : nat) (mn mx avg : float)
| LogDbInsertOk (ts : datetime) (avg : float) (ang : Z) (chan : string)
| LogDbError (e : exn)
| LogMqttPublished (ch : string)
| LogMqttFailed (e : exn)
| LogBurstEnd
| LogChangingInterval (v : float).

(** Everything observable from outside, in the order it happens.  A sink
    event records the attempt; whether it succeeded is the environment's
    answer. *)
Inductive event : Type :=
| EvPrint (m : log_msg)
| EvLedAcquire (ch : string) (intensity : float)
| EvLedRelease (ch : string)
| EvSleep (seconds : float)
| EvReadVoltage
| EvSetLastBurstAvg (v : float)
| EvDbInsert (row : db_row)
| EvPublish (topic : string) (payload : json).

Definition is_sink_event (ev : event) : bool :=
  match ev with
  | EvDbInsert _ | EvPublish _ _ => true
  | _ => false
  end.

(** The host, as the cycle sees it. *)
Record env : Type := {
  time_at : nat -> float;                 (* k-th call of time() *)
  read_voltage_at : nat -> result float;  (* k-th call of adc.read_voltage() *)
  sleep_at : nat -> option exn;           (* k-th call of sleep(): None = returns *)
  led_acquire : option exn;               (* entering change_leds_intensities_temporarily *)
  led_release : option exn;               (* leaving it *)
  current_utc_datetime : datetime;
  sqlite_insert : db_row -> option exn;   (* connect, execute, commit, close *)
  mqtt_publish : string -> json -> option exn;
}.

(** The state threaded through a run: the job object, the cycle's local
    list [samples] (appended in place, so it survives an exception), how
    many host calls were made, and the trace. *)
Record mstate : Type := {
  self : job;
  samples : list float;
  time_calls : nat;
  read_calls : nat;
  sleep_calls : nat;
  trace : list event;
}.

(* ================================================================== *)
(** ** A state and exception monad; [None] is running out of fuel *)

Definition M (A : Type) : Type := mstate -> option (result A * mstate).

Definition ret {A : Type} (a : A) : M A := fun s => Some (Ok a, s).

Definition raise {A : Type} (e : exn) : M A := fun s => Some (Raise e, s).

Definition bind {A B : Type} (m : M A) (k : A -> M B) : M B :=
  fun s =>
    match m s with
    | None => None
    | Some (Ok a, s') => k a s'
    | Some (Raise e, s') => Some (Raise e, s')
    end.

Declare Scope py_scope.
Delimit Scope py_scope with py.
Notation "x <- m ;; k" := (bind m (fun x => k))
  (at level 61, m at next level, right associativity) : py_scope.
Notation "m ;;; k" := (bind m (fun _ => k))
  (at level 61, right associativity) : py_scope.
Local Open Scope py_scope.

Definition lift {A : Type} (r : result A) : M A :=
  fun s => Some (r, s).

(** [try: body / except Exception as e: handler e]. *)
Definition try_except (body : M unit) (handler : exn -> M unit) : M unit :=
  fun s =>
    match body s with
    | None => None
    | Some (Ok u, s') => Some (Ok u, s')
    | Some (Raise e, s') => handler e s'
    end.

(** [with cm: body]: if entering raises, neither the body nor the exit
    runs; otherwise the exit runs however the body ends, and an exception
    of the exit replaces the body's. *)
Definition with_context (enter leave : M unit) (body : M unit) : M unit :=
  enter ;;;
  (fun s =>
     match body s with
     | None => None
     | Some (r, s') =>
         match leave s' with
         | None => None
         | Some (Ok _, s'') => Some (r, s'')
         | Some (Raise e, s'') => Some (Raise e, s'')
         end
     end).

Definition emit (ev : event) : M unit :=
  fun s => Some (Ok tt,
    {| self := self s; samples := samples s; time_calls := time_calls s;
       read_calls := read_calls s; sleep_calls := sleep_calls s;
       trace := trace s ++ [ev] |}).

Definition print (m : log_msg) : M unit := emit (EvPrint m).

Definition get_self : M job := fun s => Some (Ok (self s), s).

Definition get_samples : M (list float) := fun s => Some (Ok (samples s), s).

Definition set_samples (l : list float) : M unit :=
  fun s => Some (Ok tt,
    {| self := self s; samples := l; time_calls := time_calls s;
       read_calls := read_calls s; sleep_calls := sleep_calls s;
       trace := trace s |}).

Definition set_self (j : job) : M unit :=
  fun s => Some (Ok tt,
    {| self := j; samples := samples s; time_calls := time_calls s;
       read_calls := read_calls s; sleep_calls := sleep_calls s;
       trace := trace s |}).

(** An answer of the host that is either "returned" or an exception. *)
Definition answer (o : option exn) : M unit :=
  match o with
  | None => ret tt
  | Some e => raise e
  end.

(* ================================================================== *)
(** ** Host calls *)

(** [time()]. *)
Definition py_time (E : env) : M float :=
  fun s => Some (Ok (time_at E (time_calls s)),
    {| self := self s; samples := samples s; time_calls := S (time_calls s);
       read_calls := read_calls s; sleep_calls := sleep_calls s;
       trace := trace s |}).

(** [sleep(seconds)]: refuses, in this order, a NaN, a length beyond its
    clock, and a negative length, before it waits. *)
Definition py_sleep (E : env) (seconds : float) : M unit :=
  if is_nan seconds
  then raise (ValueError "Invalid value NaN (not a number)")
  else if Py.sleep_overflows seconds
  then raise (OverflowError "timestamp too large to convert to C _PyTime_t")
  else if (seconds <? 0)%float
  then raise (ValueError "sleep length must be non-negative")
  else
    fun s => Some (match sleep_at E (sleep_calls s) with
                   | None => Ok tt
                   | Some e => Raise e
                   end,
      {| self := self s; samples := samples s; time_calls := time_calls s;
         read_calls := read_calls s; sleep_calls := S (sleep_calls s);
         trace := trace s ++ [EvSleep seconds] |}).

(** [self.adc.read_voltage()]. *)
Definition read_voltage (E : env) : M float :=
  fun s => Some (read_voltage_at E (read_calls s),
    {| self := self s; samples := samples s; time_calls := time_calls s;
       read_calls := S (read_calls s); sleep_calls := sleep_calls s;
       trace := trace s ++ [EvReadVoltage] |}).

(** [samples.append(v)]. *)
Definition append_sample (v : float) : M unit :=
  fun s => Some (Ok tt,
    {| self := self s; samples := samples s ++ [v]; time_calls := time_calls s;
       read_calls := read_calls s; sleep_calls := sleep_calls s;
       trace := trace s |}).

(** Entering and leaving [led_utils.change_leds_intensities_temporarily]. *)
Definition led_enter (E : env) (j : job) : M unit :=
  answer (led_acquire E) ;;; emit (EvLedAcquire (led_channel j) (led_intensity j)).

Definition led_leave (E : env) (j : job) : M unit :=
  emit (EvLedRelease (led_channel j)) ;;; answer (led_release E).

(* ================================================================== *)
(** ** [LEDReader._burst_cycle] *)

(** Line 293: [max(0.0, self.settle_ms / 1000.0)]. *)
Definition settle_seconds (j : job) : result float :=
  rbind (Py.int_truediv (settle_ms j) f1000) (fun q => Ok (Py.max2 0%float q)).

(** Line 298: [max(0.02, burst_seconds / target_samples) if target_samples > 1
    else 0.05]. *)
Definition target_dt_of (j : job) : result float :=
  if 1 <? target_samples j
  then rbind (Py.truediv_int (burst_seconds j) (target_samples j))
             (fun q => Ok (Py.max2 f0_02 q))
  else Ok f0_05.

(** Line 305: the loop test, after [time()] returned [now]. *)
Definition keep_sampling (j : job) (t0 now : float) (collected : list float) : bool :=
  (now - t0 <? burst_seconds j)%float
  && (Z.of_nat (List.length collected) <? target_samples j).

(** Lines 305-308.  The recursion is on fuel; [cycle_fuel] below is always
    enough. *)
Fixpoint sampling_loop (fuel : nat) (E : env) (j : job) (t0 target_dt : float)
  : M unit :=
  match fuel with
  | O => fun _ => None
  | S fuel' =>
      now <- py_time E ;;
      collected <- get_samples ;;
      if keep_sampling j t0 now collected
      then
        v <- read_voltage E ;;
        append_sample v ;;;
        py_sleep E target_dt ;;;
        sampling_loop fuel' E j t0 target_dt
      else ret tt
  end.

Definition cycle_fuel (j : job) : nat := S (Z.to_nat (target_samples j)).

(** Lines 293-308: what runs while the LED is held. *)
Definition settle_and_sample (fuel : nat) (E : env) (j : job) : M unit :=
  settle_s <- lift (settle_seconds j) ;;
  print (LogSettling settle_s) ;;;
  py_sleep E settle_s ;;;
  t0 <- py_time E ;;
  target_dt <- lift (target_dt_of j) ;;
  print (LogSamplingPlan (burst_seconds j) (target_samples j) target_dt) ;;;
  sampling_loop fuel E j t0 target_dt.

(** Lines 283-310: the guarded block. *)
Definition acquire_and_sample (fuel : nat) (E : env) (j : job) : M unit :=
  set_samples [] ;;;
  try_except
    (with_context (led_enter E j) (led_leave E j) (settle_and_sample fuel E j))
    (fun e => print (LogSamplingError e)).

(** Line 342: the channel bound to the INSERT. *)
Definition db_channel (ch : string) : Z :=
  if String.eqb ch "B" then 2 else (if String.eqb ch "A" then 1 else 2).

(** Line 347: the channel the success message shows. *)
Definition logged_channel (ch : string) : string :=
  if String.eqb ch "B" then "2"%string else "1"%string.

(** Lines 336-343. *)
Definition insert_row (j : job) (ts : datetime) (avg_v : float) : db_row :=
  {| row_experiment := experiment j;
     row_pioreactor_unit := job_unit j;
     row_timestamp := sqlite_text ts;
     row_led_reading := avg_v;
     row_angle := angle j;
     row_channel := db_channel (led_channel j) |}.

(** Lines 355-364. *)
Definition burst_payload (j : job) (ts : datetime) (avg_v : float) (n : nat) : json :=
  JObject [ ("timestamp"%string, JString (isoformat ts));
            ("avg_voltage"%string, JFloat avg_v);
            ("angle"%string, JInt (angle j));
            ("channel"%string, JString (led_channel j));
            ("intensity_percent"%string, JFloat (led_intensity j));
            ("n_samples"%string, JInt (Z.of_nat n)) ].

(** Line 366. *)
Definition burst_topic (j : job) : string :=
  ("pioreactor/" ++ job_unit j ++ "/" ++ experiment j
     ++ "/led_reading/" ++ led_channel j)%string.

(** Lines 328-351. *)
Definition persist (E : env) (j : job) (ts : datetime) (avg_v : float) : M unit :=
  try_except
    (emit (EvDbInsert (insert_row j ts avg_v)) ;;;
     answer (sqlite_insert E (insert_row j ts avg_v)) ;;;
     print (LogDbInsertOk ts avg_v (angle j) (logged_channel (led_channel j))))
    (fun e => print (LogDbError e)).

(** Lines 353-372. *)
Definition publish_burst (E : env) (j : job) (ts : datetime) (avg_v : float)
  (n : nat) : M unit :=
  try_except
    (let payload := burst_payload j ts avg_v n in
     emit (EvPublish (burst_topic j) payload) ;;;
     answer (mqtt_publish E (burst_topic j) payload) ;;;
     print (LogMqttPublished (led_channel j)))
    (fun e => print (LogMqttFailed e) ;;; print LogBurstEnd).

(** Lines 312-372: statistics, the attribute, the two sinks. *)
Definition report (E : env) (j : job) : M unit :=
  collected <- get_samples ;;
  let '(avg_v, mn, mx) := burst_stats collected in
  me <- get_self ;;
  set_self (with_last_burst_avg avg_v me) ;;;
  emit (EvSetLastBurstAvg avg_v) ;;;
  print (LogSamples (List.length collected) mn mx avg_v) ;;;
  let ts := current_utc_datetime E in
  persist E j ts avg_v ;;;
  publish_burst E j ts avg_v (List.length collected).

Definition burst_cycle_with (fuel : nat) (E : env) : M unit :=
  j <- get_self ;;
  print LogBurstStart ;;;
  acquire_and_sample fuel E j ;;;
  report E j.

Definition _burst_cycle (E : env) : M unit :=
  fun s => burst_cycle_with (cycle_fuel (self s)) E s.

(* ================================================================== *)
(** ** [LEDReader.set_interval] *)

Definition set_interval (v : float) : M unit :=
  if (v <=? 0)%float
  then raise (ValueError "interval must be positive.")
  else
    print (LogChangingInterval v) ;;;
    me <- get_self ;;
    set_self (with_interval v me).

(* ================================================================== *)
(** ** The ingestion path registered in [__init__.py] *)

(** [topic.split("/")]. *)
Fixpoint topic_levels (s : string) : list string :=
  match s with
  | EmptyString => [EmptyString]
  | String c rest =>
      if Ascii.eqb c "/"%char then EmptyString :: topic_levels rest
      else match topic_levels rest with
           | [] => [String c EmptyString]
           | lvl :: more => String c lvl :: more
           end
  end.

(** MQTT topic filters, level by level: [+] stands for exactly one level,
    [#] for all remaining levels (the parent included). *)
Fixpoint filter_matches (filter topic : list string) : bool :=
  match filter, topic with
  | [], [] => true
  | [], _ :: _ => false
  | f :: _, [] => String.eqb f "#"
  | f :: fs, t :: ts =>
      if String.eqb f "#" then true
      else (String.eqb f "+" || String.eqb f t) && filter_matches fs ts
  end.

Definition topic_matches (filter topic : string) : bool :=
  filter_matches (topic_levels filter) (topic_levels topic).

(** Line 55 of [__init__.py]. *)
Definition subscription : string :=
  "pioreactor/+/+/led_reading_plugin/led_reading"%string.

(** Line 57. *)
Definition sink_table : string := "led_automation_readings"%string.

(** A dict made by [json.loads]: the last binding of a key wins. *)
Fixpoint dict_get (key : string) (fields : list (string * json)) : option json :=
  match fields with
  | [] => None
  | (k, v) :: more =>
      match dict_get key more with
      | Some later => Some later
      | None => if String.eqb k key then Some v else None
      end
  end.

(** [data[key]]. *)
Definition subscript (data : json) (key : string) : result json :=
  match data with
  | JObject fields =>
      match dict_get key fields with
      | Some v => Ok v
      | None => Raise (KeyError key)
      end
  | JArray _ => Raise (TypeError "list indices must be integers or slices, not str")
  | JString _ => Raise (TypeError "string indices must be integers")
  | _ => Raise (TypeError "object is not subscriptable")
  end.

Section Ingestion.
(** Host functions the parser calls; their code is not part of the
    plugin. *)
Variable produce_metadata : string -> result (string * string).
    (* topic |-> (experiment, pioreactor_unit) *)
Variable current_utc_timestamp : string.
Variable float_of_str : string -> result float.   (* float("...") *)
Variable int_of_str : string -> result Z.         (* int("...") *)

(** [float(x)] and [int(x)] on a decoded JSON value. *)
Definition py_float (x : json) : result float :=
  match x with
  | JFloat v => Ok v
  | JInt n => Py.float_of_int n
  | JBool b => Ok (if b then 1%float else 0%float)
  | JString s => float_of_str s
  | _ => Raise (TypeError "float() argument must be a string or a real number")
  end.

Definition py_int (x : json) : result Z :=
  match x with
  | JInt n => Ok n
  | JFloat v => Py.int_of_float v
  | JBool b => Ok (if b then 1 else 0)
  | JString s => int_of_str s
  | _ => Raise (TypeError "int() argument must be a string or a real number")
  end.

(** Lines 36-49 of [__init__.py]. *)
Definition _parser (topic : string) (payload : json) : result db_row :=
  rbind (produce_metadata topic) (fun meta =>
  let data := payload in
  rbind (rbind (subscript data "led_reading") py_float) (fun reading =>
  rbind (rbind (subscript data "angle") py_int) (fun ang =>
  rbind (rbind (subscript data "channel") py_int) (fun chan =>
  Ok {| row_experiment := fst meta;
        row_pioreactor_unit := snd meta;
        row_timestamp := current_utc_timestamp;
        row_led_reading := reading;
        row_angle := ang;
        row_channel := chan |})))).

(** What reaches the table for a message published on [topic]: the
    broker delivers it to the parser only if the subscription matches. *)
Definition ingest (topic : string) (payload : json) : option (result db_row) :=
  if topic_matches subscription topic
  then Some (_parser topic payload)
  else None.
End Ingestion.

(* ================================================================== *)
(** ** Definitions used to state the properties *)

Definition initial_state (j : job) : mstate :=
  {| self := j; samples := []; time_calls := 0; read_calls := 0;
     sleep_calls := 0; trace := [] |}.

(** The voltages the sensor returned among its calls [k], [k+1], ...,
    [k+n-1]. *)
Fixpoint collected_reads (E : env) (k n : nat) : list float :=
  match n with
  | O => []
  | S n' =>
      match read_voltage_at E k with
      | Ok v => v :: collected_reads E (S k) n'
      | Raise _ => collected_reads E (S k) n'
      end
  end.

(** What [report] adds to the trace, given the samples. *)
Definition db_events (E : env) (j : job) (avg_v : float) : list event :=
  let ts := current_utc_datetime E in
  [ EvDbInsert (insert_row j ts avg_v);
    EvPrint (match sqlite_insert E (insert_row j ts avg_v) with
             | None => LogDbInsertOk ts avg_v (angle j) (logged_channel (led_channel j))
             | Some e => LogDbError e
             end) ].

Definition publish_events (E : env) (j : job) (avg_v : float) (n : nat)
  : list event :=
  let ts := current_utc_datetime E in
  let payload := burst_payload j ts avg_v n in
  EvPublish (burst_topic j) payload ::
  match mqtt_publish E (burst_topic j) payload with
  | None => [EvPrint (LogMqttPublished (led_channel j))]
  | Some e => [EvPrint (LogMqttFailed e); EvPrint LogBurstEnd]
  end.

Definition report_events (E : env) (j : job) (collected : list float)
  : list event :=
  let '(avg_v, mn, mx) := burst_stats collected in
  [ EvSetLastBurstAvg avg_v;
    EvPrint (LogSamples (List.length collected) mn mx avg_v) ]
  ++ db_events E j avg_v
  ++ publish_events E j avg_v (List.length collected).

(** A row the table accepts: the columns are NOT NULL by construction, the
    CHECK constraint asks for channel 1 or 2. *)
Definition row_well_formed (r : db_row) : Prop :=
  row_channel r = 1 \/ row_channel r = 2.

(** The double nearest to 0.1. *)
Definition f0_1 : float := 0x1.999999999999ap-4%float.   (* 0.1 *)

(** The state at line 283: [samples] is a fresh empty list. *)
Definition fresh_samples (s : mstate) : mstate :=
  {| self := self s; samples := []; time_calls := time_calls s;
     read_calls := read_calls s; sleep_calls := sleep_calls s;
     trace := trace s |}.

(** A job and two hosts for the examples: one where everything works and
    the sensor returns 1.0, 2.0, ... every 50 ms, one where the LED cannot be
    acquired and both sinks fail. *)
Definition demo_job : job :=
  {| job_unit := "pio1"; experiment := "exp1"; interval := 20%float;
     led_channel := "B"; led_intensity := 70%float; settle_ms := 200;
     burst_seconds := 1%float; target_samples := 10; angle := 180;
     last_burst_avg := None; record_timer_interval := 20%float |}.

(** The same job on LED channel C. *)
Definition demo_job_C : job :=
  {| job_unit := "pio1"; experiment := "exp1"; interval := 20%float;
     led_channel := "C"; led_intensity := 70%float; settle_ms := 200;
     burst_seconds := 1%float; target_samples := 10; angle := 180;
     last_burst_avg := None; record_timer_interval := 20%float |}.

Definition demo_now : datetime :=
  {| isoformat := "2025-09-01T12:00:00.000000+00:00";
     sqlite_text := "2025-09-01 12:00:00+00:00" |}.

Definition steady_env : env :=
  {| time_at := fun k => (num_of_len k * f0_05)%float;
     read_voltage_at := fun k => Ok (num_of_len (S k));
     sleep_at := fun _ => None;
     led_acquire := None;
     led_release := None;
     current_utc_datetime := demo_now;
     sqlite_insert := fun _ => None;
     mqtt_publish := fun _ _ => None |}.

Definition faulty_env : env :=
  {| time_at := fun k => (num_of_len k * f0_05)%float;
     read_voltage_at := fun k => Ok (num_of_len (S k));
     sleep_at := fun _ => None;
     led_acquire := Some (HostError "HardwareNotFoundError" "LED channel is locked");
     led_release := None;
     current_utc_datetime := demo_now;
     sqlite_insert := fun _ => Some (HostError "OperationalError" "unable to open database file");
     mqtt_publish := fun _ _ => Some (HostError "ConnectionError" "broker unreachable") |}.

(** The state once line 283 has run: the start was printed and [samples]
    is empty. *)
Definition started (s : mstate) : mstate :=
  {| self := self s; samples := []; time_calls := time_calls s;
     read_calls := read_calls s; sleep_calls := sleep_calls s;
     trace := trace s ++ [EvPrint LogBurstStart] |}.

(** The state a cycle ends in, given the state [s1] the guarded block left. *)
Definition reported (E : env) (s1 : mstate) : mstate :=
  {| self := with_last_burst_avg (avg_of (samples s1)) (self s1);
     samples := samples s1;
     time_calls := time_calls s1;
     read_calls := read_calls s1;
     sleep_calls := sleep_calls s1;
     trace := trace s1 ++ report_events E (self s1) (samples s1) |}.

(** A job whose [settle_ms] is too large, in magnitude, for a float. *)
Definition demo_job_huge_settle : job :=
  {| job_unit := "pio1"; experiment := "exp1"; interval := 20%float;
     led_channel := "B"; led_intensity := 70%float; settle_ms := - 2 ^ 1024;
     burst_seconds := 1%float; target_samples := 10; angle := 180;
     last_burst_avg := None; record_timer_interval := 20%float |}.

(** The same job with a settle time of 10^13 ms, about 317 years. *)
Definition demo_job_long_settle : job :=
  {| job_unit := "pio1"; experiment := "exp1"; interval := 20%float;
     led_channel := "B"; led_intensity := 70%float; settle_ms := 10 ^ 13;
     burst_seconds := 1%float; target_samples := 10; angle := 180;
     last_burst_avg := None; record_timer_interval := 20%float |}.

(** The same job with [settle_ms = -5]. *)
Definition demo_job_negative_settle : job :=
  {| job_unit := "pio1"; experiment := "exp1"; interval := 20%float;
     led_channel := "B"; led_intensity := 70%float; settle_ms := -5;
     burst_seconds := 1%float; target_samples := 10; angle := 180;
     last_burst_avg := None; record_timer_interval := 20%float |}.

(** [x] is a zero, a NaN, or carries the sign [b]. *)
Definition sf_signed (b : bool) (x : spec_float) : Prop :=
  match x with
  | S754_zero _ | S754_nan => True
  | S754_infinity sg | S754_finite sg _ _ => sg = b
  end.

(** Events of the guarded block: neither a sink nor the attribute. *)
Definition is_sampling_event (ev : event) : bool :=
  match ev with
  | EvPrint _ | EvLedAcquire _ _ | EvLedRelease _ | EvSleep _ | EvReadVoltage => true
  | _ => false
  end.

(** How the guarded block may change the state: the job is untouched, the
    trace grows by sampling events, and [samples] grows by exactly what the
    sensor returned in the reads made meanwhile. *)
Record sampled (E : env) (s s' : mstate) : Prop := {
  sampled_self : self s' = self s;
  sampled_reads : exists n,
      read_calls s' = (read_calls s + n)%nat /\
      samples s' = samples s ++ collected_reads E (read_calls s) n;
  sampled_trace : exists evs,
      trace s' = trace s ++ evs /\ Forall (fun ev => is_sampling_event ev = true) evs;
}.

(* ================================================================== *)
(** ** Definitions used to state further properties of the cycle *)

(** Events of lines 293-308: the two prints of the block, a wait or a
    read. *)
Definition is_body_event (ev : event) : bool :=
  match ev with
  | EvPrint (LogSettling _) | EvPrint (LogSamplingPlan _ _ _)
  | EvSleep _ | EvReadVoltage => true
  | _ => false
  end.

Definition is_led_event (ev : event) : bool :=
  match ev with
  | EvLedAcquire _ _ | EvLedRelease _ => true
  | _ => false
  end.

Definition is_burst_end (ev : event) : bool :=
  match ev with
  | EvPrint LogBurstEnd => true
  | _ => false
  end.

(** The job with another [last_burst_avg], everything else as it is. *)
Definition same_settings (j j' : job) : Prop :=
  job_unit j' = job_unit j /\ experiment j' = experiment j /\
  interval j' = interval j /\ led_channel j' = led_channel j /\
  led_intensity j' = led_intensity j /\ settle_ms j' = settle_ms j /\
  burst_seconds j' = burst_seconds j /\ target_samples j' = target_samples j /\
  angle j' = angle j /\ record_timer_interval j' = record_timer_interval j.

(** [sleep] takes the length: none of its three refusals applies. *)
Definition sleep_accepts (seconds : float) : bool :=
  negb (is_nan seconds) && negb (Py.sleep_overflows seconds)
  && negb (seconds <? 0)%float.

(** A host on which nothing fails and the clock stands still. *)
Definition frozen_env : env :=
  {| time_at := fun _ => 0%float;
     read_voltage_at := fun k => Ok (num_of_len (S k));
     sleep_at := fun _ => None;
     led_acquire := None;
     led_release := None;
     current_utc_datetime := demo_now;
     sqlite_insert := fun _ => None;
     mqtt_publish := fun _ _ => None |}.

(** A host whose sensor fails on its third read and whose LED driver fails
    when the LED is given back. *)
Definition flaky_env : env :=
  {| time_at := fun _ => 0%float;
     read_voltage_at := fun k =>
       if Nat.eqb k 2 then Raise (HostError "OSError" "I2C read failed")
       else Ok (num_of_len (S k));
     sleep_at := fun _ => None;
     led_acquire := None;
     led_release := Some (HostError "OSError" "LED driver unreachable");
     current_utc_datetime := demo_now;
     sqlite_insert := fun _ => None;
     mqtt_publish := fun _ _ => None |}.

(** The periodic timer calling [_burst_cycle] [n] times in a row on the
    same host; a call that raised would end the series. *)
Fixpoint run_cycles (n : nat) (E : env) : M unit :=
  match n with
  | O => ret tt
  | S n' => _burst_cycle E ;;; run_cycles n' E
  end.









(* ================================================================== *)
(** ** Definitions used to state properties of the ingestion path *)

(** Does the string contain the level separator? *)
Fixpoint has_slash (s : string) : bool :=
  match s with
  | EmptyString => false
  | String c rest => Ascii.eqb c "/"%char || has_slash rest
  end.

(** The topic the subscription is about, for a unit and an experiment. *)
Definition plugin_topic (unit_name experiment_name : string) : string :=
  ("pioreactor/" ++ unit_name ++ "/" ++ experiment_name
     ++ "/led_reading_plugin/led_reading")%string.

(** ["/".join(levels)]. *)
Fixpoint topic_join (levels : list string) : string :=
  match levels with
  | [] => EmptyString
  | [lvl] => lvl
  | lvl :: more => (lvl ++ String "/" (topic_join more))%string
  end.

(** A payload of the shape the parser's docstring names. *)
Definition documented_payload : json :=
  JObject [ ("led_reading"%string, JFloat 0.5%float);
            ("angle"%string, JInt 180);
            ("channel"%string, JInt 2) ].

(* ================================================================== *)
(** ** [SimpleADC] *)

(** What a driver hands back: an int or a float. *)
Inductive number : Type :=
| NInt (n : Z)
| NFloat (x : float).

(** [float(v)]. *)
Definition float_of_number (v : number) : result float :=
  match v with
  | NInt n => Py.float_of_int n
  | NFloat x => Ok x
  end.

(** The installed ADC driver, as one call sees it.  The methods
    [SimpleADC] probes with [hasattr] are optional. *)
Record adc_driver : Type := {
  read_from_channel : Z -> result number;
  drv_from_raw_to_voltage : option (number -> result number);
  drv_from_voltage_to_raw_precise : option (float -> result number);
  drv_check_on_gain : option (float -> option exn);
  drv_set_ads_gain : option (float -> option exn);
}.

(** What [SimpleADC.__init__] finds in the host: the selector table
    [hardware.ADC_CHANNEL_FUNCS] and the driver class. *)
Record adc_host : Type := {
  ADC_CHANNEL_FUNCS : string -> option Z;
  ADCDriver : result adc_driver;
}.

Record SimpleADC : Type := {
  adc_channel : string;
  dynamic_gain : bool;
  selector : Z;
  adc : adc_driver;
}.

(** Calls that reach the driver. *)
Inductive adc_call : Type :=
| CallNewDriver
| CallSetAdsGain (gain : float)
| CallReadFromChannel (sel : Z)
| CallFromRawToVoltage (raw : number)
| CallCheckOnGain (value_v : float).

Definition hardware_not_found (msg : string) : exn :=
  HostError "HardwareNotFoundError" msg.

(** Lines 78-88: the selector lookup and the driver's construction. *)
Definition adc_lookup_and_build (H : adc_host) (channel : string)
  : result (Z * adc_driver) * list adc_call :=
  match ADC_CHANNEL_FUNCS H channel with
  | None => (Raise (KeyError channel), [])
  | Some sel =>
      match ADCDriver H with
      | Ok drv => (Ok (sel, drv), [CallNewDriver])
      | Raise e => (Raise e, [CallNewDriver])
      end
  end.

(** Lines 90-99: the two handlers, chosen by the class of the exception. *)
Definition adc_init_error (channel : string) (e : exn) : exn :=
  match e with
  | KeyError _ =>
      hardware_not_found ("ADC selector for pd" ++ channel ++ " not found.")
  | _ =>
      hardware_not_found ("Failed to initialize ADC for pd" ++ channel
                          ++ ". Is the HAT attached and powered?")
  end.

(** Lines 66-107: [SimpleADC.__init__]. *)
Definition SimpleADC_init (H : adc_host) (channel : string) (dyn : bool)
  : result SimpleADC * list adc_call :=
  match adc_lookup_and_build H channel with
  | (Raise e, calls) => (Raise (adc_init_error channel e), calls)
  | (Ok (sel, drv), calls) =>
      (Ok {| adc_channel := channel; dynamic_gain := dyn;
             selector := sel; adc := drv |},
       calls ++ match drv_set_ads_gain drv with
                | Some set_gain => [CallSetAdsGain 1%float]
                | None => []
                end)
  end.

(** Lines 109-116: [SimpleADC.read_voltage]. *)
Definition SimpleADC_read_voltage (a : SimpleADC) : result float * list adc_call :=
  match read_from_channel (adc a) (selector a) with
  | Raise e => (Raise e, [CallReadFromChannel (selector a)])
  | Ok raw =>
      match drv_from_raw_to_voltage (adc a) with
      | Some convert =>
          (rbind (convert raw) float_of_number,
           [CallReadFromChannel (selector a); CallFromRawToVoltage raw])
      | None => (float_of_number raw, [CallReadFromChannel (selector a)])
      end
  end.

(** Lines 119-124: [SimpleADC.check_on_gain]. *)
Definition SimpleADC_check_on_gain (a : SimpleADC) (value_v : float)
  : result unit * list adc_call :=
  if dynamic_gain a then
    match drv_check_on_gain (adc a) with
    | Some check =>
        (match check value_v with
         | None => Ok tt
         | Some _ => Ok tt        (* except Exception: print a warning *)
         end,
         [CallCheckOnGain value_v])
    | None => (Ok tt, [])
    end
  else (Ok tt, []).

(** Lines 131-134: the shim [SimpleADC.from_raw_to_voltage]. *)
Definition SimpleADC_from_raw_to_voltage (a : SimpleADC) (r : number)
  : result number :=
  match drv_from_raw_to_voltage (adc a) with
  | Some convert =>
      rbind (convert r) (fun v => rbind (float_of_number v) (fun x => Ok (NFloat x)))
  | None => Ok r
  end.

(** A driver with a conversion and a failing gain setter, and a host that
    knows photodiode channel 1. *)
Definition demo_driver : adc_driver :=
  {| read_from_channel := fun _ => Ok (NInt 1200);
     drv_from_raw_to_voltage :=
       Some (fun raw => rbind (float_of_number raw)
                          (fun x => Ok (NFloat (x / 1000)%float)));
     drv_from_voltage_to_raw_precise := None;
     drv_check_on_gain := Some (fun _ => Some (HostError "OSError" "I2C write failed"));
     drv_set_ads_gain := Some (fun _ => Some (HostError "OSError" "I2C write failed")) |}.

Definition demo_adc_host : adc_host :=
  {| ADC_CHANNEL_FUNCS := fun ch => if String.eqb ch "1" then Some 1 else None;
     ADCDriver := Ok demo_driver |}.

(* ================================================================== *)
(** ** [LEDReader.__init__], [start_led_reading] and the lifecycle hooks

    What these print is left out; everything else they do to the host is
    recorded in order. *)

Inductive startup_event : Type :=
| SuSuperInit (unit_name experiment_name : string)
| SuCleanUp
| SuGetLedsReverse (led_name : string)
| SuGetIntensity (key : string)
| SuGetAngle
| SuEnsureTable
| SuSimpleADC (pd_channel : string) (dyn : bool)
| SuTimerStart (every : float) (run_immediately : bool).

(** The host at construction time. *)
Record startup_host : Type := {
  su_super_init : option exn;               (* BackgroundJob.__init__ *)
  su_is_HAT_present : bool;
  su_clean_up : option exn;
  su_leds_reverse : string -> result string;      (* config.get("leds_reverse", name) *)
  su_getfloat : string -> result (option float);  (* config.getfloat("led_reading.config",
                                                     key, fallback=...): None when absent *)
  su_pd1_angle : option string;   (* config.get("od_config.photodiode_channel", "1",
                                     fallback=None) *)
  su_int : string -> result Z;              (* int(angle_str) *)
  su_ensure_table : option exn;             (* _ensure_table() *)
  su_adc_host : adc_host;
  su_timer_start : option exn;              (* RepeatedTimer(...).start() *)
}.

(** The arguments of [LEDReader.__init__]. *)
Record init_args : Type := {
  a_unit : string;
  a_experiment : string;
  a_interval : float;
  a_pd_channel : string;
  a_led_name : string;
  a_led_channel : option string;
  a_led_intensity_percent : option float;
  a_settle_ms : Z;
  a_burst_seconds : float;
  a_target_samples : Z;
  a_fake_data : bool;
}.

(** Results with the events made so far. *)
Definition W (A : Type) : Type := (result A * list startup_event)%type.

Definition wret {A : Type} (a : A) : W A := (Ok a, []).

Definition wraise {A : Type} (e : exn) : W A := (Raise e, []).

Definition wbind {A B : Type} (m : W A) (k : A -> W B) : W B :=
  match m with
  | (Ok a, evs) => let '(r, evs') := k a in (r, evs ++ evs')
  | (Raise e, evs) => (Raise e, evs)
  end.

Notation "x <~ m ;; k" := (wbind m (fun x => k))
  (at level 61, m at next level, right associativity) : py_scope.
Notation "m ~;; k" := (wbind m (fun _ => k))
  (at level 61, right associativity) : py_scope.

Definition wemit (ev : startup_event) : W unit := (Ok tt, [ev]).

Definition wanswer (o : option exn) : W unit :=
  match o with
  | None => wret tt
  | Some e => wraise e
  end.

(** [self.clean_up()], then [raise e]. *)
Definition clean_up_and_raise {A : Type} (H : startup_host) (e : exn) : W A :=
  wemit SuCleanUp ~;; wanswer (su_clean_up H) ~;; wraise e.

(** Lines 174-186. *)
Definition resolve_led_channel (H : startup_host) (a : init_args) : W string :=
  match a_led_channel a with
  | Some ch => wret ch
  | None =>
      wemit (SuGetLedsReverse (a_led_name a)) ~;;
      match su_leds_reverse H (a_led_name a) with
      | Ok ch => wret ch
      | Raise e => clean_up_and_raise H e
      end
  end.

(** Lines 188-192. *)
Definition intensity_key (ch : string) : string :=
  ("led_" ++ ch ++ "_intensity")%string.

Definition resolve_intensity (H : startup_host) (a : init_args) (ch : string)
  : W float :=
  match a_led_intensity_percent a with
  | Some v => wret v
  | None =>
      wemit (SuGetIntensity (intensity_key ch)) ~;;
      match su_getfloat H (intensity_key ch) with
      | Ok (Some v) => wret v
      | Ok None => wret 70%float
      | Raise e => wraise e
      end
  end.

(** Lines 202-216. *)
Definition resolve_angle (H : startup_host) : W Z :=
  wemit SuGetAngle ~;;
  match su_pd1_angle H with
  | None =>
      clean_up_and_raise H (ValueError "Angle for PD channel 1 is required in config.")
  | Some angle_str =>
      match su_int H angle_str with
      | Ok ang => wret ang
      | Raise e => clean_up_and_raise H e
      end
  end.

(** Lines 150-243: [LEDReader.__init__]. *)
Definition LEDReader_init (H : startup_host) (a : init_args) : W (job * SimpleADC) :=
  wemit (SuSuperInit (a_unit a) (a_experiment a)) ~;;
  wanswer (su_super_init H) ~;;
  (if su_is_HAT_present H then wret tt
   else clean_up_and_raise H (hardware_not_found "Pioreactor HAT must be present.")) ~;;
  ch <~ resolve_led_channel H a ;;
  intensity <~ resolve_intensity H a ch ;;
  ang <~ resolve_angle H ;;
  wemit SuEnsureTable ~;;
  wanswer (su_ensure_table H) ~;;
  wemit (SuSimpleADC (a_pd_channel a) (negb (a_fake_data a))) ~;;
  the_adc <~ (fst (SimpleADC_init (su_adc_host H) (a_pd_channel a)
                     (negb (a_fake_data a))), []) ;;
  wemit (SuTimerStart (a_interval a) true) ~;;
  wanswer (su_timer_start H) ~;;
  wret ({| job_unit := a_unit a; experiment := a_experiment a;
           interval := a_interval a; led_channel := ch;
           led_intensity := intensity; settle_ms := a_settle_ms a;
           burst_seconds := a_burst_seconds a;
           target_samples := a_target_samples a; angle := ang;
           last_burst_avg := None;
           record_timer_interval := a_interval a |}, the_adc).

(** Events after which the job is running or half built. *)
Definition is_build_event (ev : startup_event) : bool :=
  match ev with
  | SuEnsureTable | SuSimpleADC _ _ | SuTimerStart _ _ => true
  | _ => false
  end.

Definition is_timer_start (ev : startup_event) : bool :=
  match ev with
  | SuTimerStart _ _ => true
  | _ => false
  end.

Definition is_clean_up (ev : startup_event) : bool :=
  match ev with
  | SuCleanUp => true
  | _ => false
  end.

(** A host on which construction succeeds, and arguments as
    [start_led_reading] passes them by default. *)
Definition demo_startup_host : startup_host :=
  {| su_super_init := None;
     su_is_HAT_present := true;
     su_clean_up := None;
     su_leds_reverse := fun name =>
       if String.eqb name "orange1" then Ok "B"%string
       else Raise (HostError "NoOptionError" name);
     su_getfloat := fun _ => Ok None;
     su_pd1_angle := Some "180"%string;
     su_int := fun str =>
       if String.eqb str "180" then Ok 180
       else Raise (ValueError "invalid literal for int() with base 10");
     su_ensure_table := None;
     su_adc_host := demo_adc_host;
     su_timer_start := None |}.

Definition demo_args : init_args :=
  {| a_unit := "pio1"; a_experiment := "exp1"; a_interval := 20%float;
     a_pd_channel := "1"; a_led_name := "orange1"; a_led_channel := None;
     a_led_intensity_percent := None; a_settle_ms := 200;
     a_burst_seconds := 3%float; a_target_samples := 12;
     a_fake_data := false |}.

(** The same host without the HAT, and without an angle for photodiode 1. *)
Definition no_hat_host : startup_host :=
  {| su_super_init := None;
     su_is_HAT_present := false;
     su_clean_up := None;
     su_leds_reverse := su_leds_reverse demo_startup_host;
     su_getfloat := fun _ => Ok None;
     su_pd1_angle := Some "180"%string;
     su_int := su_int demo_startup_host;
     su_ensure_table := None;
     su_adc_host := demo_adc_host;
     su_timer_start := None |}.

Definition no_angle_host : startup_host :=
  {| su_super_init := None;
     su_is_HAT_present := true;
     su_clean_up := None;
     su_leds_reverse := su_leds_reverse demo_startup_host;
     su_getfloat := fun _ => Ok None;
     su_pd1_angle := None;
     su_int := su_int demo_startup_host;
     su_ensure_table := None;
     su_adc_host := demo_adc_host;
     su_timer_start := None |}.

(* ================================================================== *)
(** ** [start_led_reading] *)

(** Line 399: [1.0 / sps if sps > 0 else 20.0]. *)
Definition interval_from_sps (sps : float) : result float :=
  if (0 <? sps)%float then Py.truediv 1%float sps else Ok 20%float.

(** [x or y] on optional strings: [None] and the empty string are false. *)
Definition str_or (x : option string) (y : string) : string :=
  match x with
  | Some EmptyString | None => y
  | Some s => s
  end.

Definition with_fallback {A : Type} (x : option A) (fallback : A) : A :=
  match x with
  | Some v => v
  | None => fallback
  end.

(** The arguments of [start_led_reading]. *)
Record start_args : Type := {
  s_interval : option float;
  s_fake_data : bool;
  s_unit : option string;
  s_experiment : option string;
  s_led_name : option string;
  s_led_channel : option string;
  s_led_intensity_percent : option float;
}.

(** The host as [start_led_reading] reads it: the [whoami] module and
    section [led_reading.config], each option absent ([None]) or present. *)
Record start_host : Type := {
  get_unit_name : string;
  get_assigned_experiment_name : string -> result string;
  is_testing_env : bool;
  cfg_samples_per_second : result (option float);
  cfg_settle_ms : result (option Z);
  cfg_burst_seconds : result (option float);
  cfg_target_samples : result (option Z);
  cfg_led_name : option string;
  sh_startup : startup_host;
}.

Definition wlift {A : Type} (r : result A) : W A := (r, []).

(** Lines 383-424. *)
Definition start_led_reading (SH : start_host) (sa : start_args)
  : W (job * SimpleADC) :=
  let unit_name := str_or (s_unit sa) (get_unit_name SH) in
  experiment_name <~
    match s_experiment sa with
    | Some EmptyString | None => wlift (get_assigned_experiment_name SH unit_name)
    | Some e => wret e
    end ;;
  every <~
    match s_interval sa with
    | Some v => wret v
    | None =>
        sps <~ wlift (cfg_samples_per_second SH) ;;
        wlift (interval_from_sps (with_fallback sps f0_05))
    end ;;
  settle <~ wlift (cfg_settle_ms SH) ;;
  burst <~ wlift (cfg_burst_seconds SH) ;;
  target <~ wlift (cfg_target_samples SH) ;;
  let led_name := str_or (s_led_name sa) (with_fallback (cfg_led_name SH) "orange1"%string) in
  LEDReader_init (sh_startup SH)
    {| a_unit := unit_name; a_experiment := experiment_name;
       a_interval := every; a_pd_channel := "1"; a_led_name := led_name;
       a_led_channel := s_led_channel sa;
       a_led_intensity_percent := s_led_intensity_percent sa;
       a_settle_ms := with_fallback settle 200;
       a_burst_seconds := with_fallback burst 3%float;
       a_target_samples := with_fallback target 12;
       a_fake_data := s_fake_data sa || is_testing_env SH |}.

(** A host whose configuration has no section [led_reading.config]. *)
Definition demo_start_host : start_host :=
  {| get_unit_name := "pio1";
     get_assigned_experiment_name := fun _ => Ok "exp1"%string;
     is_testing_env := false;
     cfg_samples_per_second := Ok None;
     cfg_settle_ms := Ok None;
     cfg_burst_seconds := Ok None;
     cfg_target_samples := Ok None;
     cfg_led_name := None;
     sh_startup := demo_startup_host |}.

Definition no_start_args : start_args :=
  {| s_interval := None; s_fake_data := false; s_unit := None;
     s_experiment := None; s_led_name := None; s_led_channel := None;
     s_led_intensity_percent := None |}.

(* ================================================================== *)
(** ** The lifecycle hooks *)

Inductive life_event : Type :=
| LiTimerPause
| LiTimerUnpause
| LiTimerCancel
| LiLedIntensity (ch : string) (percent : float).

Record life_host : Type := {
  lh_pause : option exn;
  lh_unpause : option exn;
  lh_cancel : option exn;
  lh_led_intensity : string -> float -> option exn;
}.

(** The attributes the hooks read; a hook can run on a job whose
    constructor stopped before it set them. *)
Record job_object : Type := {
  has_record_timer : bool;
  its_led_channel : option string;
}.

Definition attribute_error (name : string) : exn :=
  HostError "AttributeError" name.

Definition result_of (o : option exn) : result unit :=
  match o with
  | None => Ok tt
  | Some e => Raise e
  end.

(** [try: body / except Exception: pass]. *)
Definition swallow (body : result unit * list life_event)
  : result unit * list life_event :=
  (Ok tt, snd body).

(** Lines 247-249 and 251-253. *)
Definition on_sleeping (LH : life_host) (o : job_object)
  : result unit * list life_event :=
  if has_record_timer o then (result_of (lh_pause LH), [LiTimerPause])
  else (Raise (attribute_error "record_timer"), []).

Definition on_sleeping_to_ready (LH : life_host) (o : job_object)
  : result unit * list life_event :=
  if has_record_timer o then (result_of (lh_unpause LH), [LiTimerUnpause])
  else (Raise (attribute_error "record_timer"), []).

(** Lines 267-272. *)
Definition _stop_led (LH : life_host) (o : job_object)
  : result unit * list life_event :=
  swallow
    match its_led_channel o with
    | Some ch => (result_of (lh_led_intensity LH ch 0%float), [LiLedIntensity ch 0%float])
    | None => (Raise (attribute_error "led_channel"), [])
    end.

(** Lines 255-264. *)
Definition on_disconnected (LH : life_host) (o : job_object)
  : result unit * list life_event :=
  let cancelled :=
    swallow (if has_record_timer o then (result_of (lh_cancel LH), [LiTimerCancel])
             else (Raise (attribute_error "record_timer"), [])) in
  let stopped := swallow (_stop_led LH o) in
  (match fst cancelled with
   | Ok _ => fst stopped
   | Raise e => Raise e
   end, snd cancelled ++ snd stopped).

(* ================================================================== *)
(** ** Definitions used to state how rounding bears on the average

    The arithmetic of binary64 is given by the functions of
    [SpecFloat]: an operation computes a mantissa, an exponent and the
    position of what was cut off, and [binary_round_aux] rounds that to the
    nearest float, ties to even.  The definitions below name what these
    functions compute. *)

(** Where the fraction [a/d] lies between [a/d] rounded down and the next
    integer. *)
Definition loc (a d : Z) : location :=
  if a mod d =? 0 then loc_Exact else loc_Inexact (2 * (a mod d) ?= d).

(** The same as a shift record: the integer part, whether the rest is at
    least a half, and whether it is neither nothing nor a half. *)
Definition rec_of (a d : Z) : shr_record :=
  {| shr_m := a / d;
     shr_r := d <=? 2 * (a mod d);
     shr_s := negb ((a mod d =? 0) || (2 * (a mod d) =? d)) |}.

(** [a/d] rounded to an integer the way [round_nearest_even] does it. *)
Definition rne (a d : Z) : Z := round_nearest_even (a / d) (loc a d).

(** [M] is an integer nearest to [a/d], and the even one when [a/d] is
    halfway between two integers. *)
Definition nearest (a d M : Z) : Prop :=
  d * (2 * M - 1) <= 2 * a <= d * (2 * M + 1) /\
  (2 * a = d * (2 * M - 1) -> Z.even M = true) /\
  (2 * a = d * (2 * M + 1) -> Z.even M = true).

(** A mantissa [M <= 2^prc] at exponent [E], as a float: the carry of
    [M = 2^prc] moves to the next exponent, and an exponent beyond the
    format gives an infinity. *)
Definition packed (prc emx : Z) (sx : bool) (M E : Z) : spec_float :=
  if M <? 2 ^ prc then
    match M with
    | Zpos m => if E <=? emx - prc then S754_finite sx m E else S754_infinity sx
    | _ => S754_zero sx
    end
  else if E + 1 <=? emx - prc
       then S754_finite sx (Z.to_pos (2 ^ (prc - 1))) (E + 1)
       else S754_infinity sx.

(** Floats on one integer scale: a finite float counted in units of
    [2^e0], for an [e0] not above the least exponent; the infinities at
    [2^emx] and its opposite, beyond every finite float. *)
Definition top (emx e0 : Z) : Z := 2 ^ (emx - e0).

Definition ord (emx e0 : Z) (x : spec_float) : Z :=
  match x with
  | S754_zero _ | S754_nan => 0
  | S754_infinity s => cond_Zopp s (top emx e0)
  | S754_finite s m e => cond_Zopp s (Zpos m * 2 ^ (e - e0))
  end.

(** The float nearest to [A/B] units, on that scale. *)
Definition rnd (prc emx e0 : Z) (A B : Z) : Z :=
  let k := SpecFloat.fexp prc emx (Zdigits2 (A / B) + e0) - e0 in
  Z.min (rne A (B * 2 ^ k) * 2 ^ k) (top emx e0).

(** The same for a fraction of either sign: the magnitude is rounded. *)
Definition srnd (prc emx e0 : Z) (A B : Z) : Z :=
  if 0 <=? A then rnd prc emx e0 A B else - rnd prc emx e0 (- A) B.

(** Neither a NaN nor an infinity. *)
Definition sf_finite (x : spec_float) : Prop :=
  match x with
  | S754_zero _ | S754_finite _ _ _ => True
  | _ => False
  end.

(** binary64 on the scale of [2^-2098], fine enough for every quotient of
    two finite doubles. *)
Definition scale64 : Z := -2098.

Definition ordf (x : float) : Z := ord emax scale64 (Prim2SF x).

Definition not_nan (x : float) : Prop := Prim2SF x <> S754_nan.

(** The value of a finite double, counted in units of the smallest
    positive double [2^-1074]: every finite double is a whole number of
    them.  A NaN and the infinities have none. *)
Definition in_units (x : float) : option Z :=
  match Prim2SF x with
  | S754_zero _ => Some 0
  | S754_finite s m e => Some (cond_Zopp s (Zpos m * 2 ^ (e + 1074)))
  | _ => None
  end.

(** The sum of the values of finite doubles, without any rounding. *)
Fixpoint sum_in_units (l : list float) : option Z :=
  match l with
  | [] => Some 0
  | x :: rest =>
      match in_units x, sum_in_units rest with
      | Some a, Some b => Some (a + b)
      | _, _ => None
      end
  end.

(** The doubles 1.0, 2.0 and 4.0. *)
Definition one_two_four : list float := [1%float; 2%float; 4%float].

(* ================================================================== *)
(** * Properties *)

(** ** The monad *)

Lemma sampled_refl E s : sampled E s s.
Proof.
  constructor.
  - reflexivity.
  - exists 0%nat. simpl. rewrite Nat.add_0_r, app_nil_r. auto.
  - exists []. rewrite app_nil_r. auto.
Qed.

Lemma collected_reads_app E k n m :
  collected_reads E k (n + m) =
  collected_reads E k n ++ collected_reads E (k + n) m.
Proof.
  revert k. induction n as [|n IH]; intros k; simpl.
  - now rewrite Nat.add_0_r.
  - rewrite IH, <- plus_n_Sm. simpl. destruct (read_voltage_at E k); reflexivity.
Qed.

Lemma sampled_trans E s1 s2 s3 :
  sampled E s1 s2 -> sampled E s2 s3 -> sampled E s1 s3.
Proof.
  intros [Hs [n [Hr Hc]] [ev [Ht Hf]]] [Hs' [n' [Hr' Hc']] [ev' [Ht' Hf']]].
  constructor.
  - congruence.
  - exists (n + n')%nat. split; [lia|].
    rewrite Hc', Hc, Hr, collected_reads_app, app_assoc. reflexivity.
  - exists (ev ++ ev'). split.
    + rewrite Ht', Ht, app_assoc. reflexivity.
    + apply Forall_app; auto.
Qed.

(** ** The sampling loop *)

Lemma sampling_loop_spec E j t0 dt : forall fuel s,
  (Z.to_nat (target_samples j - Z.of_nat (List.length (samples s))) < fuel)%nat ->
  exists r s',
    sampling_loop fuel E j t0 dt s = Some (r, s') /\
    sampled E s s' /\
    Z.of_nat (List.length (samples s'))
      <= Z.max (Z.of_nat (List.length (samples s))) (target_samples j).
Proof.
  induction fuel as [|fuel IH]; intros s Hfuel; [lia|].
  cbn [sampling_loop]. unfold bind at 1, py_time. cbn beta iota.
  unfold bind at 1, get_samples. cbn [samples].
  destruct (keep_sampling j t0 (time_at E (time_calls s)) (samples s)) eqn:Hk.
  - apply andb_prop in Hk. destruct Hk as [_ Hlt]. apply Z.ltb_lt in Hlt.
    unfold bind at 1, read_voltage. cbn [read_calls samples self trace time_calls sleep_calls].
    destruct (read_voltage_at E (read_calls s)) as [v|e] eqn:Hread.
    + unfold bind at 1, append_sample. cbn [read_calls samples self trace time_calls sleep_calls].
      unfold bind at 1, py_sleep.
      destruct (is_nan dt);
    [|destruct (Py.sleep_overflows dt); [|destruct (dt <? 0)%float]].
      1,2,3: (eexists; eexists; split; [reflexivity|]; split;
        [ constructor; cbn;
          [ reflexivity
          | exists 1%nat; split; [lia|]; cbn; rewrite Hread; reflexivity
          | exists [EvReadVoltage]; split; [reflexivity|repeat constructor] ]
        | cbn; rewrite length_app; cbn; lia ]).
      cbn [read_calls samples self trace time_calls sleep_calls].
      destruct (sleep_at E (sleep_calls s)) as [e|].
      * eexists; eexists; split; [reflexivity|]; split.
        -- constructor; cbn.
           ++ reflexivity.
           ++ exists 1%nat; split; [lia|]; cbn; rewrite Hread; reflexivity.
           ++ exists [EvReadVoltage; EvSleep dt]. rewrite <- app_assoc.
              split; [reflexivity|repeat constructor].
        -- cbn; rewrite length_app; cbn; lia.
      * match goal with
        | |- context [sampling_loop fuel E j t0 dt ?st] =>
            destruct (IH st) as (r & s' & Hrun & Hs & Hlen)
        end.
        { cbn. rewrite length_app. cbn. lia. }
        exists r, s'. split; [exact Hrun|]. split.
        -- eapply sampled_trans; [|exact Hs].
           constructor; cbn.
           ++ reflexivity.
           ++ exists 1%nat; split; [lia|]; cbn; rewrite Hread; reflexivity.
           ++ exists [EvReadVoltage; EvSleep dt]. rewrite <- app_assoc.
              split; [reflexivity|repeat constructor].
        -- cbn in Hlen. rewrite length_app in Hlen. cbn in Hlen. lia.
    + eexists; eexists; split; [reflexivity|]; split.
      * constructor; cbn.
        -- reflexivity.
        -- exists 1%nat; split; [lia|]; cbn; rewrite Hread, app_nil_r; reflexivity.
        -- exists [EvReadVoltage]; split; [reflexivity|repeat constructor].
      * cbn. lia.
  - eexists; eexists; split; [reflexivity|]; split.
    + constructor; cbn.
      * reflexivity.
      * exists 0%nat; split; [lia|]; cbn; rewrite app_nil_r; reflexivity.
      * exists []; rewrite app_nil_r; split; [reflexivity|constructor].
    + cbn. lia.
Qed.

(** The loop ends at the first test that finds either bound reached, and
    takes one more sample otherwise. *)
Lemma sampling_loop_stop E j t0 dt fuel s :
  keep_sampling j t0 (time_at E (time_calls s)) (samples s) = false ->
  exists s',
    sampling_loop (S fuel) E j t0 dt s = Some (Ok tt, s') /\
    samples s' = samples s /\ read_calls s' = read_calls s /\
    sleep_calls s' = sleep_calls s /\ trace s' = trace s.
Proof.
  intros Hk. cbn [sampling_loop]. unfold bind, py_time, get_samples. cbn.
  rewrite Hk. eexists. split; [reflexivity|]. cbn. auto.
Qed.

Ltac step_loop s :=
  cbn [sampling_loop]; unfold bind at 1, py_time; cbn beta iota;
  unfold bind at 1, get_samples; cbn [samples].

Ltac step_read :=
  unfold bind at 1, read_voltage;
  cbn [read_calls samples self trace time_calls sleep_calls].

Ltac step_append_sleep dt :=
  unfold bind at 1, append_sample;
  cbn [read_calls samples self trace time_calls sleep_calls];
  unfold bind at 1, py_sleep;
  destruct (is_nan dt);
    [|destruct (Py.sleep_overflows dt); [|destruct (dt <? 0)%float]].

Lemma sampling_loop_reads_mono E j t0 dt : forall fuel s r s',
  sampling_loop fuel E j t0 dt s = Some (r, s') ->
  (read_calls s <= read_calls s')%nat.
Proof.
  induction fuel as [|fuel IH]; intros s r s'; [discriminate|].
  step_loop s. destruct (keep_sampling _ _ _ _).
  - step_read. destruct (read_voltage_at E (read_calls s)).
    + step_append_sleep dt.
      1,2,3: (unfold raise; intros [= <- <-]; cbn; lia).
      cbn [read_calls samples self trace time_calls sleep_calls].
      destruct (sleep_at E (sleep_calls s)).
      * intros [= <- <-]; cbn; lia.
      * intros Hr. apply IH in Hr. cbn in Hr. lia.
    + intros [= <- <-]; cbn; lia.
  - unfold ret. intros [= <- <-]; cbn; lia.
Qed.

Lemma sampling_loop_continue E j t0 dt fuel s r s' :
  keep_sampling j t0 (time_at E (time_calls s)) (samples s) = true ->
  sampling_loop (S fuel) E j t0 dt s = Some (r, s') ->
  (read_calls s < read_calls s')%nat.
Proof.
  intros Hk. step_loop s. rewrite Hk.
  step_read. destruct (read_voltage_at E (read_calls s)).
  - step_append_sleep dt.
    1,2,3: (unfold raise; intros [= <- <-]; cbn; lia).
    cbn [read_calls samples self trace time_calls sleep_calls].
    destruct (sleep_at E (sleep_calls s)).
    + intros [= <- <-]; cbn; lia.
    + intros Hr. apply sampling_loop_reads_mono in Hr. cbn in Hr. lia.
  - intros [= <- <-]; cbn; lia.
Qed.

(** ** The guarded block *)

Lemma settle_and_sample_spec E j fuel s :
  (Z.to_nat (target_samples j - Z.of_nat (List.length (samples s))) < fuel)%nat ->
  exists r s',
    settle_and_sample fuel E j s = Some (r, s') /\
    sampled E s s' /\
    Z.of_nat (List.length (samples s'))
      <= Z.max (Z.of_nat (List.length (samples s))) (target_samples j).
Proof.
  intros Hfuel. unfold settle_and_sample.
  unfold bind at 1, lift.
  destruct (settle_seconds j) as [settle_s|e].
  2:{ eexists; eexists; split; [reflexivity|]. split; [apply sampled_refl|lia]. }
  unfold bind at 1, print, emit. cbn beta iota.
  unfold bind at 1, py_sleep.
  destruct (is_nan settle_s);
    [|destruct (Py.sleep_overflows settle_s); [|destruct (settle_s <? 0)%float]].
  1,2,3: (eexists; eexists; split; [reflexivity|]; split;
        [ constructor; cbn;
          [ reflexivity
          | exists 0%nat; split; [lia|]; cbn; rewrite app_nil_r; reflexivity
          | eexists; split; [reflexivity|repeat constructor] ]
        | cbn; lia ]).
  cbn [read_calls samples self trace time_calls sleep_calls].
  destruct (sleep_at E (sleep_calls s)) as [e|].
  { eexists; eexists; split; [reflexivity|]; split;
        [ constructor; cbn;
          [ reflexivity
          | exists 0%nat; split; [lia|]; cbn; rewrite app_nil_r; reflexivity
          | exists [EvPrint (LogSettling settle_s); EvSleep settle_s];
            rewrite <- app_assoc; split; [reflexivity|repeat constructor] ]
        | cbn; lia ]. }
  unfold bind at 1, py_time. cbn beta iota.
  cbn [read_calls samples self trace time_calls sleep_calls].
  unfold bind at 1.
  destruct (target_dt_of j) as [dt|e].
  2:{ eexists; eexists; split; [reflexivity|]; split;
        [ constructor; cbn;
          [ reflexivity
          | exists 0%nat; split; [lia|]; cbn; rewrite app_nil_r; reflexivity
          | exists [EvPrint (LogSettling settle_s); EvSleep settle_s];
            rewrite <- app_assoc; split; [reflexivity|repeat constructor] ]
        | cbn; lia ]. }
  unfold bind at 1. cbn beta iota.
  match goal with
  | |- context [sampling_loop fuel E j ?t0 dt ?st] =>
      destruct (sampling_loop_spec E j t0 dt fuel st) as (r & s' & Hrun & Hs & Hlen);
      [ cbn; exact Hfuel | ]
  end.
  exists r, s'. split; [exact Hrun|]. split; [|exact Hlen].
  eapply sampled_trans; [|exact Hs].
  constructor; cbn.
  - reflexivity.
  - exists 0%nat; split; [lia|]; cbn; rewrite app_nil_r; reflexivity.
  - exists [EvPrint (LogSettling settle_s); EvSleep settle_s;
            EvPrint (LogSamplingPlan (burst_seconds j) (target_samples j) dt)].
    rewrite <- !app_assoc. split; [reflexivity|repeat constructor].
Qed.

Lemma acquire_and_sample_spec E j fuel s :
  (Z.to_nat (target_samples j) < fuel)%nat ->
  exists s',
    acquire_and_sample fuel E j s = Some (Ok tt, s') /\
    sampled E (fresh_samples s) s' /\
    Z.of_nat (List.length (samples s')) <= Z.max 0 (target_samples j).
Proof.
  intros Hfuel. unfold acquire_and_sample.
  unfold bind at 1, set_samples. fold (fresh_samples s).
  unfold try_except, with_context, led_enter, led_leave.
  unfold bind at 1. unfold bind at 1, answer.
  destruct (led_acquire E) as [e|].
  { unfold raise, print, emit. eexists. split; [reflexivity|]. split.
    - constructor; cbn.
      + reflexivity.
      + exists 0%nat; split; [lia|]; reflexivity.
      + eexists; split; [reflexivity|repeat constructor].
    - cbn. lia. }
  unfold ret, emit. cbn beta iota.
  match goal with
  | |- context [settle_and_sample fuel E j ?st] =>
      destruct (settle_and_sample_spec E j fuel st) as (r & s1 & Hrun & Hs & Hlen);
      [ cbn; rewrite Z.sub_0_r; exact Hfuel | rewrite Hrun ]
  end.
  cbn in Hlen.
  assert (Hpre : sampled E (fresh_samples s) s1).
  { eapply sampled_trans; [|exact Hs]. constructor; cbn.
    - reflexivity.
    - exists 0%nat; split; [lia|]; reflexivity.
    - eexists; split; [reflexivity|repeat constructor]. }
  clear Hs Hrun.
  unfold bind. cbn beta iota.
  destruct (led_release E) as [e|]; [|destruct r as [[]|e]];
    unfold raise, ret, print, emit; cbn beta iota;
    (eexists; split; [reflexivity|]; split; [|cbn; exact Hlen]);
    (eapply sampled_trans; [exact Hpre|]);
    (constructor; cbn;
     [ reflexivity
     | exists 0%nat; split; [lia|]; rewrite app_nil_r; reflexivity
     | eexists; split; [try rewrite <- app_assoc; reflexivity|repeat constructor] ]).
Qed.

(** ** Statistics, attribute and sinks *)

Lemma report_spec E s :
  report E (self s) s = Some (Ok tt, reported E s).
Proof.
  unfold report, reported, report_events, avg_of, db_events, publish_events.
  unfold bind at 1, get_samples.
  destruct (burst_stats (samples s)) as [[avg_v mn] mx]. cbn [fst snd].
  unfold persist, publish_burst, try_except, bind, get_self, set_self,
    print, emit, answer, raise, ret.
  cbn [self samples time_calls read_calls sleep_calls trace].
  destruct (sqlite_insert E _) as [e1|];
    destruct (mqtt_publish E _ _) as [e2|];
    cbn [self samples time_calls read_calls sleep_calls trace];
    repeat rewrite <- app_assoc; reflexivity.
Qed.

(** ** One whole cycle *)

Lemma acquire_and_sample_fresh E j fuel s :
  acquire_and_sample fuel E j s = acquire_and_sample fuel E j (fresh_samples s).
Proof. reflexivity. Qed.

(** A cycle always returns, without an exception, in the state [reported]
    computes from the state [s1] in which the guarded block ended. *)
Lemma burst_cycle_spec E s :
  exists s1,
    acquire_and_sample (cycle_fuel (self s)) E (self s) (started s)
      = Some (Ok tt, s1) /\
    sampled E (started s) s1 /\
    Z.of_nat (List.length (samples s1)) <= Z.max 0 (target_samples (self s)) /\
    _burst_cycle E s = Some (Ok tt, reported E s1).
Proof.
  unfold _burst_cycle, burst_cycle_with.
  unfold bind at 1, get_self. unfold bind at 1, print, emit.
  destruct (acquire_and_sample_spec E (self s) (cycle_fuel (self s))
              {| self := self s; samples := samples s; time_calls := time_calls s;
                 read_calls := read_calls s; sleep_calls := sleep_calls s;
                 trace := trace s ++ [EvPrint LogBurstStart] |})
    as (s1 & Hrun & Hs & Hlen).
  { unfold cycle_fuel. lia. }
  exists s1. split; [|split; [exact Hs|split; [exact Hlen|]]].
  - rewrite acquire_and_sample_fresh in Hrun. exact Hrun.
  - unfold bind. rewrite Hrun.
    destruct Hs as [Hself _ _]. cbn in Hself. rewrite <- Hself.
    apply report_spec.
Qed.

(** The scenario of the specification's section 8: ten samples 1.0 ... 10.0,
    average 5.5, one row, one message with [n_samples = 10]. *)
Example end_to_end_scenario :
  exists s',
    _burst_cycle steady_env (initial_state demo_job) = Some (Ok tt, s') /\
    List.length (samples s') = 10%nat /\
    burst_stats (samples s') = (5.5%float, 1%float, 10%float) /\
    last_burst_avg (self s') = Some 5.5%float /\
    List.length (filter is_sink_event (trace s')) = 2%nat /\
    In (EvPublish "pioreactor/pio1/exp1/led_reading/B"
          (burst_payload demo_job demo_now 5.5%float 10)) (trace s').
Proof.
  eexists. split; [vm_compute; reflexivity|].
  vm_compute. repeat split; auto 40.
Qed.

(* ================================================================== *)
(** * The claims about the burst cycle *)

(** C3.  With a positive [target_samples], whatever the host answers (clock,
    sensor, sleeps, LED driver) a cycle returns having collected between 0
    and [target_samples] samples.  The sampling loop ends at the first test
    that finds the elapsed time not below [burst_seconds] or the count not
    below [target_samples], without another read; while both are below, it
    reads the sensor once more.  The bound needs nothing of
    [burst_seconds]. *)
Theorem burst_collects_at_most_target (E : env) (s : mstate) :
  0 < target_samples (self s) ->
  (exists s',
     _burst_cycle E s = Some (Ok tt, s') /\
     0 <= Z.of_nat (List.length (samples s')) <= target_samples (self s)) /\
  (forall t0 dt fuel st,
     (time_at E (time_calls st) - t0 <? burst_seconds (self s))%float = false \/
     target_samples (self s) <= Z.of_nat (List.length (samples st)) ->
     exists st',
       sampling_loop (S fuel) E (self s) t0 dt st = Some (Ok tt, st') /\
       samples st' = samples st /\ read_calls st' = read_calls st) /\
  (forall t0 dt fuel st r st',
     (time_at E (time_calls st) - t0 <? burst_seconds (self s))%float = true ->
     Z.of_nat (List.length (samples st)) < target_samples (self s) ->
     sampling_loop (S fuel) E (self s) t0 dt st = Some (r, st') ->
     (read_calls st < read_calls st')%nat).
Proof.
  intros Hpos. repeat split.
  - destruct (burst_cycle_spec E s) as (s1 & _ & _ & Hlen & Hrun).
    exists (reported E s1). split; [exact Hrun|]. cbn. lia.
  - intros t0 dt fuel st Hstop.
    destruct (sampling_loop_stop E (self s) t0 dt fuel st) as (st' & Hrun & Hs & Hr & _).
    + unfold keep_sampling. destruct Hstop as [-> | Hcount]; [reflexivity|].
      apply andb_false_iff. right. apply Z.ltb_ge. exact Hcount.
    + exists st'. auto.
  - intros t0 dt fuel st r st' Htime Hcount.
    apply sampling_loop_continue. unfold keep_sampling.
    rewrite Htime. apply Z.ltb_lt in Hcount. rewrite Hcount. reflexivity.
Qed.

Lemma burst_collects_at_most_target_witness :
  exists s',
    _burst_cycle steady_env (initial_state demo_job) = Some (Ok tt, s') /\
    0 <= Z.of_nat (List.length (samples s')) <= 10.
Proof.
  destruct (burst_collects_at_most_target steady_env (initial_state demo_job))
    as [Hbound _].
  - reflexivity.
  - exact Hbound.
Defined.

(** C4.  A cycle that collected no sample sets average, minimum and maximum
    to 0.0 and goes on: it assigns 0.0 to [last_burst_avg], binds a
    well-formed row with reading 0.0 to the INSERT and publishes the payload
    with [avg_voltage = 0.0] and [n_samples = 0].  The cycle returns without
    an exception in every case. *)
Theorem empty_burst_falls_back_to_zero (E : env) (s : mstate) :
  burst_stats (@nil float) = (0%float, 0%float, 0%float) /\
  exists s',
    _burst_cycle E s = Some (Ok tt, s') /\
    (samples s' = [] ->
     let ts := current_utc_datetime E in
     last_burst_avg (self s') = Some 0%float /\
     In (EvPrint (LogSamples 0 0%float 0%float 0%float)) (trace s') /\
     In (EvDbInsert (insert_row (self s) ts 0%float)) (trace s') /\
     row_led_reading (insert_row (self s) ts 0%float) = 0%float /\
     row_well_formed (insert_row (self s) ts 0%float) /\
     In (EvPublish (burst_topic (self s)) (burst_payload (self s) ts 0%float 0))
        (trace s')).
Proof.
  split; [reflexivity|].
  destruct (burst_cycle_spec E s) as (s1 & _ & Hs & _ & Hrun).
  exists (reported E s1). split; [exact Hrun|].
  cbn [samples reported]. intros Hnil. cbv zeta.
  destruct Hs as [Hself _ _]. cbn in Hself.
  unfold reported. cbn [self trace]. rewrite Hnil, Hself.
  unfold report_events, avg_of. cbn [burst_stats fst snd List.length num_zero binary64].
  repeat split.
  - apply in_or_app. right. cbn. auto.
  - apply in_or_app. right. cbn. auto.
  - unfold row_well_formed, insert_row, db_channel. cbn.
    destruct (String.eqb _ "B"); [|destruct (String.eqb _ "A")]; auto.
  - apply in_or_app. right. cbn. auto 10.
Qed.

Lemma empty_burst_falls_back_to_zero_witness :
  exists s',
    _burst_cycle faulty_env (initial_state demo_job) = Some (Ok tt, s') /\
    samples s' = [] /\
    last_burst_avg (self s') = Some 0%float /\
    In (EvDbInsert (insert_row demo_job demo_now 0%float)) (trace s').
Proof.
  destruct (empty_burst_falls_back_to_zero faulty_env (initial_state demo_job))
    as [_ (s' & Hrun & Hempty)].
  assert (Hnil : samples s' = []).
  { vm_compute in Hrun. injection Hrun as <-. reflexivity. }
  exists s'. destruct (Hempty Hnil) as (Havg & _ & Hrow & _).
  repeat split; assumption.
Defined.

(** C6.  Whatever the host raises while the LED is acquired, during the
    settle wait or while sampling (every [env] is allowed, so every pattern
    of failures), the cycle returns without an exception.  It ends in the
    state [reported] computes from the state the guarded block left: the
    samples it uses for the statistics, the row and the message are exactly
    the voltages the sensor returned in the reads made before the failure,
    none when the LED could not be acquired, and the exception is printed. *)
Theorem sampling_failure_is_absorbed (E : env) (s : mstate) :
  exists s1 n,
    _burst_cycle E s = Some (Ok tt, reported E s1) /\
    samples s1 = collected_reads E (read_calls s) n /\
    read_calls s1 = (read_calls s + n)%nat /\
    (exists evs, trace (reported E s1) =
                 trace (started s) ++ evs ++ report_events E (self s) (samples s1)) /\
    (forall e, led_acquire E = Some e ->
       samples s1 = [] /\
       trace s1 = trace (started s) ++ [EvPrint (LogSamplingError e)]) /\
    (forall fuel t0 dt st e,
       keep_sampling (self s) t0 (time_at E (time_calls st)) (samples st) = true ->
       read_voltage_at E (read_calls st) = Raise e ->
       exists st',
         sampling_loop (S fuel) E (self s) t0 dt st = Some (Raise e, st') /\
         samples st' = samples st).
Proof.
  destruct (burst_cycle_spec E s) as (s1 & Hacq & Hs & _ & Hrun).
  destruct Hs as [Hself (n & Hreads & Hsamples) (evs & Htrace & _)].
  cbn in Hself, Hreads, Hsamples.
  exists s1, n.
  split; [exact Hrun|]. split; [exact Hsamples|]. split; [exact Hreads|].
  split; [|split].
  - exists evs. unfold reported. cbn [trace]. rewrite Htrace, Hself, <- app_assoc.
    reflexivity.
  - intros e He. clear - He Hacq.
    unfold acquire_and_sample, bind, set_samples, try_except, with_context,
      led_enter, bind, answer, raise in Hacq.
    rewrite He in Hacq. cbn in Hacq. injection Hacq as <-. cbn. auto.
  - intros fuel t0 dt st e Hk Hread.
    step_loop st. rewrite Hk. step_read. rewrite Hread.
    eexists. split; [reflexivity|]. reflexivity.
Qed.

Lemma sampling_failure_is_absorbed_witness :
  exists s1,
    _burst_cycle faulty_env (initial_state demo_job)
      = Some (Ok tt, reported faulty_env s1) /\
    samples s1 = [] /\
    trace s1 = [EvPrint LogBurstStart;
                EvPrint (LogSamplingError
                           (HostError "HardwareNotFoundError" "LED channel is locked"))].
Proof.
  destruct (sampling_failure_is_absorbed faulty_env (initial_state demo_job))
    as (s1 & n & Hrun & _ & _ & _ & Hacquire & _).
  exists s1. split; [exact Hrun|].
  exact (Hacquire _ eq_refl).
Defined.

Lemma sampling_events_are_not_sinks evs :
  Forall (fun ev => is_sampling_event ev = true) evs ->
  filter is_sink_event evs = [].
Proof.
  induction 1 as [|ev evs Hev _ IH]; [reflexivity|].
  cbn. rewrite IH. destruct ev; (discriminate || reflexivity).
Qed.

(** C8.  Whatever the datastore and the broker answer, the cycle returns
    without an exception and its sink events are exactly one INSERT attempt
    followed by one publish attempt.  A failing INSERT is printed and the
    publish is attempted all the same; a failing publish is printed and
    leaves what was recorded for the INSERT as it is: a successful INSERT
    stays reported as such. *)
Theorem sinks_fail_independently (E : env) (s : mstate) :
  exists s' evs,
    _burst_cycle E s = Some (Ok tt, s') /\
    trace s' = trace s ++ evs /\
    let ts := current_utc_datetime E in
    let avg_v := avg_of (samples s') in
    let row := insert_row (self s) ts avg_v in
    let topic := burst_topic (self s) in
    let payload := burst_payload (self s) ts avg_v (List.length (samples s')) in
    filter is_sink_event evs = [EvDbInsert row; EvPublish topic payload] /\
    (forall e, sqlite_insert E row = Some e -> In (EvPrint (LogDbError e)) evs) /\
    (sqlite_insert E row = None ->
     In (EvPrint (LogDbInsertOk ts avg_v (angle (self s))
                    (logged_channel (led_channel (self s))))) evs) /\
    (forall e, mqtt_publish E topic payload = Some e ->
               In (EvPrint (LogMqttFailed e)) evs) /\
    (mqtt_publish E topic payload = None ->
     In (EvPrint (LogMqttPublished (led_channel (self s)))) evs).
Proof.
  destruct (burst_cycle_spec E s) as (s1 & _ & Hs & _ & Hrun).
  destruct Hs as [Hself _ (evs & Htrace & Hevs)]. cbn in Hself, Htrace.
  exists (reported E s1).
  exists ((EvPrint LogBurstStart :: evs) ++ report_events E (self s) (samples s1)).
  split; [exact Hrun|]. split.
  { unfold reported. cbn [trace]. rewrite Htrace, Hself, <- !app_assoc. reflexivity. }
  cbn [samples reported]. cbv zeta.
  unfold report_events, avg_of, db_events, publish_events.
  destruct (burst_stats (samples s1)) as [[avg_v mn] mx]. cbn [fst snd].
  split; [|split; [|split; [|split]]].
  - rewrite filter_app. cbn [filter is_sink_event].
    rewrite (sampling_events_are_not_sinks evs Hevs).
    cbn. destruct (mqtt_publish E _ _); reflexivity.
  - intros e He. rewrite He. apply in_or_app. right. cbn. auto.
  - intros He. rewrite He. apply in_or_app. right. cbn. auto.
  - intros e He. rewrite He. apply in_or_app. right. cbn. auto 10.
  - intros He. rewrite He. apply in_or_app. right. cbn. auto 10.
Qed.

Lemma sinks_fail_independently_witness :
  exists s' evs,
    _burst_cycle faulty_env (initial_state demo_job) = Some (Ok tt, s') /\
    trace s' = evs /\
    In (EvPrint (LogDbError
                   (HostError "OperationalError" "unable to open database file"))) evs /\
    In (EvPrint (LogMqttFailed
                   (HostError "ConnectionError" "broker unreachable"))) evs.
Proof.
  destruct (sinks_fail_independently faulty_env (initial_state demo_job))
    as (s' & evs & Hrun & Htrace & _ & Hdb & _ & Hmqtt & _).
  exists s', evs. split; [exact Hrun|]. split; [exact Htrace|]. split.
  - exact (Hdb _ eq_refl).
  - exact (Hmqtt _ eq_refl).
Defined.

(** C9.  In every cycle [last_burst_avg] is assigned the cycle's average
    before any sink is touched: the assignment comes in the trace after
    events that are no sink events and before the INSERT and publish
    attempts, and when the cycle has returned the attribute holds that
    average whatever the datastore and the broker answered. *)
Theorem last_burst_avg_set_before_sinks (E : env) (s : mstate) :
  exists s' pre post,
    _burst_cycle E s = Some (Ok tt, s') /\
    last_burst_avg (self s') = Some (avg_of (samples s')) /\
    trace s' = trace s ++ pre ++ EvSetLastBurstAvg (avg_of (samples s')) :: post /\
    filter is_sink_event pre = [] /\
    filter is_sink_event post =
      [ EvDbInsert (insert_row (self s) (current_utc_datetime E) (avg_of (samples s')));
        EvPublish (burst_topic (self s))
          (burst_payload (self s) (current_utc_datetime E) (avg_of (samples s'))
             (List.length (samples s'))) ].
Proof.
  destruct (burst_cycle_spec E s) as (s1 & _ & Hs & _ & Hrun).
  destruct Hs as [Hself _ (evs & Htrace & Hevs)]. cbn in Hself, Htrace.
  exists (reported E s1), (EvPrint LogBurstStart :: evs).
  exists (tl (report_events E (self s) (samples s1))).
  split; [exact Hrun|]. split; [reflexivity|].
  cbn [samples reported trace]. rewrite Htrace, Hself.
  unfold report_events, avg_of, db_events, publish_events.
  destruct (burst_stats (samples s1)) as [[avg_v mn] mx]. cbn [fst snd].
  split; [|split].
  - rewrite <- !app_assoc. reflexivity.
  - cbn [filter is_sink_event]. apply sampling_events_are_not_sinks, Hevs.
  - cbn. destruct (mqtt_publish E _ _); reflexivity.
Qed.

(* ================================================================== *)
(** * [set_interval] *)

Lemma Prim2SF_zero : Prim2SF 0%float = S754_zero false.
Proof. reflexivity. Qed.

(** On binary64 [0 < v] excludes [v <= 0] (and a NaN satisfies neither). *)
Lemma ltb_zero_not_leb (v : float) :
  (0 <? v)%float = true -> (v <=? 0)%float = false.
Proof.
  rewrite ltb_spec, leb_spec, Prim2SF_zero.
  destruct (Prim2SF v) as [sg|sg| |sg m e]; cbn; try discriminate;
    destruct sg; cbn; congruence.
Qed.

(** C7.  [set_interval v] with [v <= 0] raises [ValueError] and leaves the
    whole state, so both the job's interval and the timer's, as it was; with
    [v > 0] it returns and both intervals are [v]. *)
Theorem set_interval_validates (v : float) (s : mstate) :
  ((v <=? 0)%float = true ->
   set_interval v s = Some (Raise (ValueError "interval must be positive."), s)) /\
  ((0 <? v)%float = true ->
   exists s',
     set_interval v s = Some (Ok tt, s') /\
     interval (self s') = v /\
     record_timer_interval (self s') = v).
Proof.
  unfold set_interval. split.
  - intros ->. reflexivity.
  - intros Hpos. rewrite (ltb_zero_not_leb v Hpos).
    eexists. split; [reflexivity|]. cbn. auto.
Qed.

Lemma set_interval_validates_witness :
  (exists s',
     set_interval 5%float (initial_state demo_job) = Some (Ok tt, s') /\
     interval (self s') = 5%float /\ record_timer_interval (self s') = 5%float) /\
  set_interval (-1)%float (initial_state demo_job) =
    Some (Raise (ValueError "interval must be positive."), initial_state demo_job).
Proof.
  split.
  - apply (set_interval_validates 5%float (initial_state demo_job)). reflexivity.
  - apply (set_interval_validates (-1)%float (initial_state demo_job)). reflexivity.
Defined.

(* ================================================================== *)
(** * The channel column *)

Lemma db_channel_cases (ch : string) :
  (ch = "B"%string -> db_channel ch = 2) /\
  (ch = "A"%string -> db_channel ch = 1) /\
  (ch <> "A"%string -> db_channel ch = 2) /\
  (db_channel ch = 1 \/ db_channel ch = 2).
Proof.
  unfold db_channel. repeat split.
  - intros ->. reflexivity.
  - intros ->. reflexivity.
  - intros Hne. destruct (String.eqb_spec ch "B"); [reflexivity|].
    destruct (String.eqb_spec ch "A"); [contradiction|reflexivity].
  - destruct (String.eqb ch "B"); [|destruct (String.eqb ch "A")]; auto.
Qed.

(** C2.  The channel bound to the INSERT is 1 for ["A"] and 2 for every
    other name: 2 for ["B"], but also 2, not 1, for an unknown name such as
    ["C"], for which the success message printed right after the INSERT
    shows 1.  The value is 1 or 2 in every case. *)
Theorem unknown_channel_is_stored_as_2 :
  db_channel "C" = 2 /\
  logged_channel "C" = "1"%string /\
  (forall ch, db_channel ch = if String.eqb ch "A" then 1 else 2) /\
  (forall ch, db_channel ch = 1 \/ db_channel ch = 2) /\
  exists s',
    _burst_cycle steady_env (initial_state demo_job_C) = Some (Ok tt, s') /\
    In (EvDbInsert (insert_row demo_job_C demo_now 5.5%float)) (trace s') /\
    row_channel (insert_row demo_job_C demo_now 5.5%float) = 2 /\
    In (EvPrint (LogDbInsertOk demo_now 5.5%float 180 "1")) (trace s').
Proof.
  split; [reflexivity|]. split; [reflexivity|].
  split.
  { intros ch. destruct (String.eqb_spec ch "A") as [->|Hne]; [reflexivity|].
    now apply db_channel_cases. }
  split; [intros ch; apply db_channel_cases|].
  eexists. split; [vm_compute; reflexivity|].
  split; [|split].
  - vm_compute. repeat (first [left; reflexivity | right]).
  - reflexivity.
  - vm_compute. repeat (first [left; reflexivity | right]).
Qed.

(* ================================================================== *)
(** * The wire contract of the ingestion path *)

Lemma topic_levels_nonempty (s : string) : topic_levels s <> [].
Proof.
  destruct s as [|c rest]; cbn; [discriminate|].
  destruct (Ascii.eqb c "/"); [discriminate|].
  destruct (topic_levels rest); discriminate.
Qed.

(** Splitting distributes over a separator. *)
Lemma topic_levels_sep (a b : string) :
  topic_levels (a ++ String "/" b) = topic_levels a ++ topic_levels b.
Proof.
  induction a as [|c a IH]; cbn; [reflexivity|].
  destruct (Ascii.eqb c "/"); rewrite IH; [reflexivity|].
  pose proof (topic_levels_nonempty a) as Hne.
  destruct (topic_levels a); [contradiction|reflexivity].
Qed.

(** The levels of the topic the cycle publishes on. *)
Lemma burst_topic_levels (j : job) :
  topic_levels (burst_topic j) =
  "pioreactor"%string ::
    topic_levels (job_unit j) ++ topic_levels (experiment j)
    ++ "led_reading"%string :: topic_levels (led_channel j).
Proof.
  unfold burst_topic.
  change ("pioreactor/" ++ job_unit j ++ "/" ++ experiment j
            ++ "/led_reading/" ++ led_channel j)%string
    with ("pioreactor" ++ String "/" (job_unit j ++ String "/" (experiment j
            ++ String "/" ("led_reading" ++ String "/" (led_channel j)))))%string.
  rewrite !topic_levels_sep. reflexivity.
Qed.

Lemma subscription_levels :
  topic_levels subscription =
  ["pioreactor"; "+"; "+"; "led_reading_plugin"; "led_reading"]%string.
Proof. reflexivity. Qed.

(** No topic the cycle publishes on is matched by the subscription. *)
Lemma burst_topic_not_subscribed (j : job) :
  topic_matches subscription (burst_topic j) = false.
Proof.
  unfold topic_matches. rewrite subscription_levels, burst_topic_levels.
  pose proof (topic_levels_nonempty (job_unit j)) as Hu.
  pose proof (topic_levels_nonempty (experiment j)) as He.
  pose proof (topic_levels_nonempty (led_channel j)) as Hc.
  destruct (topic_levels (job_unit j)) as [|u1 us]; [contradiction|].
  destruct (topic_levels (experiment j)) as [|e1 es]; [contradiction|].
  destruct (topic_levels (led_channel j)) as [|c1 cs]; [contradiction|].
  clear Hu He Hc.
  destruct us as [|u2 [|u3 us]]; destruct es as [|e2 [|e3 es]];
    cbn -[String.eqb];
    repeat match goal with
      | |- context [String.eqb ?a ?b] =>
          first [ let v := eval vm_compute in (String.eqb a b) in
                  match v with
                  | true => change (String.eqb a b) with true
                  | false => change (String.eqb a b) with false
                  end
                | destruct (String.eqb a b) ];
          cbn -[String.eqb]
      | |- context [match ?l ++ _ with _ => _ end] =>
          destruct l; cbn -[String.eqb]
      end;
    rewrite ?andb_false_r; reflexivity.
Qed.

(** What a cycle hands to the sinks. *)
Lemma cycle_sink_events (E : env) (s : mstate) :
  exists s' evs,
    _burst_cycle E s = Some (Ok tt, s') /\
    trace s' = trace s ++ evs /\
    filter is_sink_event evs =
      [ EvDbInsert (insert_row (self s) (current_utc_datetime E) (avg_of (samples s')));
        EvPublish (burst_topic (self s))
          (burst_payload (self s) (current_utc_datetime E) (avg_of (samples s'))
             (List.length (samples s'))) ].
Proof.
  destruct (burst_cycle_spec E s) as (s1 & _ & Hs & _ & Hrun).
  destruct Hs as [Hself _ (evs & Htrace & Hevs)]. cbn in Hself, Htrace.
  exists (reported E s1).
  exists ((EvPrint LogBurstStart :: evs) ++ report_events E (self s) (samples s1)).
  split; [exact Hrun|]. split.
  { unfold reported. cbn [trace]. rewrite Htrace, Hself, <- !app_assoc. reflexivity. }
  cbn [samples reported].
  unfold report_events, avg_of, db_events, publish_events.
  destruct (burst_stats (samples s1)) as [[avg_v mn] mx]. cbn [fst snd].
  rewrite filter_app. cbn [filter is_sink_event].
  rewrite (sampling_events_are_not_sinks evs Hevs).
  cbn. destruct (mqtt_publish E _ _); reflexivity.
Qed.

(** The payload of the cycle has no key [led_reading], and its [channel] is
    the channel name, a string. *)
Lemma burst_payload_fields (j : job) (ts : datetime) (avg_v : float) (n : nat) :
  subscript (burst_payload j ts avg_v n) "led_reading" = Raise (KeyError "led_reading") /\
  subscript (burst_payload j ts avg_v n) "avg_voltage" = Ok (JFloat avg_v) /\
  subscript (burst_payload j ts avg_v n) "angle" = Ok (JInt (angle j)) /\
  subscript (burst_payload j ts avg_v n) "channel" = Ok (JString (led_channel j)).
Proof. repeat split; reflexivity. Qed.

(** C1.  The message of every cycle misses the contract of the ingestion
    path the plugin registers.  Its topic
    [pioreactor/<unit>/<experiment>/led_reading/<channel>] is matched by the
    subscription [pioreactor/+/+/led_reading_plugin/led_reading] for no
    unit, experiment and channel, so the broker never hands it to the
    parser; and handed the payload, the parser raises [KeyError] on
    [led_reading] (the reading is sent as [avg_voltage] and the channel as
    its name), whatever the host functions it calls return short of raising
    first, so no row is produced. *)
Theorem burst_message_misses_wire_contract (E : env) (s : mstate)
  (produce_metadata : string -> result (string * string)) (now : string)
  (float_of_str : string -> result float) (int_of_str : string -> result Z) :
  exists s' evs topic payload,
    _burst_cycle E s = Some (Ok tt, s') /\
    trace s' = trace s ++ evs /\
    filter (fun ev => match ev with EvPublish _ _ => true | _ => false end) evs
      = [EvPublish topic payload] /\
    topic = burst_topic (self s) /\
    topic_matches subscription topic = false /\
    ingest produce_metadata now float_of_str int_of_str topic payload = None /\
    subscript payload "led_reading" = Raise (KeyError "led_reading") /\
    subscript payload "channel" = Ok (JString (led_channel (self s))) /\
    _parser produce_metadata now float_of_str int_of_str topic payload =
      rbind (produce_metadata topic) (fun _ => Raise (KeyError "led_reading")).
Proof.
  destruct (cycle_sink_events E s) as (s' & evs & Hrun & Htrace & Hsinks).
  exists s', evs, (burst_topic (self s)).
  eexists. split; [exact Hrun|]. split; [exact Htrace|]. split.
  { assert (Hf : forall l,
        filter (fun ev => match ev with EvPublish _ _ => true | _ => false end) l =
        filter (fun ev => match ev with EvPublish _ _ => true | _ => false end)
               (filter is_sink_event l)).
    { induction l as [|ev l IH]; [reflexivity|].
      destruct ev; cbn; rewrite IH; reflexivity. }
    rewrite Hf, Hsinks. reflexivity. }
  split; [reflexivity|].
  split; [apply burst_topic_not_subscribed|].
  split; [unfold ingest; now rewrite burst_topic_not_subscribed|].
  split; [reflexivity|]. split; [reflexivity|].
  unfold _parser. destruct (produce_metadata _); reflexivity.
Qed.

(* ================================================================== *)
(** * The average against the extremes *)

(** ** Floats as fractions cut to a format

    What follows reads the rounding of [SpecFloat] as a function of the
    exact value: rounding is to the nearest float, monotone, and leaves a
    float as it is.  It is stated for any precision and exponent range, and
    used for binary64 below. *)

Lemma Zdigits2_log2 (n : Z) : 0 < n -> Zdigits2 n = Z.log2 n + 1.
Proof.
  destruct n as [|p|p]; try lia. intros _. cbn [Zdigits2].
  induction p as [p IH|p IH|]; cbn [digits2_pos]; try reflexivity.
  - rewrite Pos2Z.inj_succ, IH. cbn [Z.log2].
    destruct p; cbn [Z.log2 Pos.size]; lia.
  - rewrite Pos2Z.inj_succ, IH. cbn [Z.log2].
    destruct p; cbn [Z.log2 Pos.size]; lia.
Qed.

Lemma Zdigits2_nonneg (n : Z) : 0 <= Zdigits2 n.
Proof. destruct n; cbn; lia. Qed.

Lemma Zdigits2_pos (n : Z) : 0 < n -> 0 < Zdigits2 n.
Proof. destruct n; cbn; lia. Qed.

(** [n] has at most [g] binary digits exactly when it is below [2^g]. *)
Lemma Zdigits2_le (n g : Z) : 0 < n -> 0 <= g -> (Zdigits2 n <= g <-> n < 2 ^ g).
Proof.
  intros Hn Hg. rewrite (Zdigits2_log2 n Hn).
  rewrite (Z.log2_lt_pow2 n g Hn). lia.
Qed.

Lemma Zdigits2_gt (n g : Z) : 0 < n -> 0 <= g -> (g < Zdigits2 n <-> 2 ^ g <= n).
Proof.
  intros Hn Hg. rewrite (Zdigits2_log2 n Hn).
  rewrite (Z.log2_le_pow2 n g Hn). lia.
Qed.

Lemma pow2_pos (k : Z) : 0 <= k -> 0 < 2 ^ k.
Proof. intros. apply Z.pow_pos_nonneg; lia. Qed.

Lemma pow2_le (j k : Z) : 0 <= j <= k -> 2 ^ j <= 2 ^ k.
Proof. intros. apply Z.pow_le_mono_r; lia. Qed.

Lemma pow2_lt (j k : Z) : 0 <= j < k -> 2 ^ j < 2 ^ k.
Proof. intros. apply Z.pow_lt_mono_r; lia. Qed.

Lemma pow2_add (j k : Z) : 0 <= j -> 0 <= k -> 2 ^ (j + k) = 2 ^ j * 2 ^ k.
Proof. intros. apply Z.pow_add_r; lia. Qed.

(** ** Shifting right *)

Lemma shr_1_eq (m : Z) (r s : bool) :
  0 <= m ->
  shr_1 {| shr_m := m; shr_r := r; shr_s := s |} =
  {| shr_m := m / 2; shr_r := Z.odd m; shr_s := r || s |}.
Proof.
  intros Hm. rewrite <- Z.div2_div.
  destruct m as [|[p|p|]|p]; try reflexivity; lia.
Qed.

Lemma rec_of_loc (a d : Z) :
  0 < d -> shr_record_of_loc (a / d) (loc a d) = rec_of a d.
Proof.
  intros Hd. unfold loc, rec_of.
  pose proof (Z.mod_pos_bound a d Hd) as Hr.
  set (r := a mod d) in *.
  destruct (Z.eqb_spec r 0) as [H0|H0].
  - destruct (Z.leb_spec d (2 * r)); [lia|reflexivity].
  - destruct (Z.compare_spec (2 * r) d) as [He|Hl|Hg];
      destruct (Z.leb_spec d (2 * r));
      destruct (Z.eqb_spec (2 * r) d); try lia; reflexivity.
Qed.

Lemma loc_of_rec (a d : Z) :
  0 < d -> loc_of_shr_record (rec_of a d) = loc a d.
Proof.
  intros Hd. rewrite <- (rec_of_loc a d Hd).
  destruct (loc a d) as [|[]]; reflexivity.
Qed.

Lemma shr_1_rec (a d : Z) :
  0 <= a -> 0 < d -> shr_1 (rec_of a d) = rec_of a (d * 2).
Proof.
  intros Ha Hd. unfold rec_of at 1.
  rewrite shr_1_eq by (apply Z.div_pos; lia).
  pose proof (Z.div_mod a d ltac:(lia)) as Hdm.
  pose proof (Z.mod_pos_bound a d Hd) as Hr.
  pose proof (Z.div_pos a d Ha Hd) as Hq.
  set (q := a / d) in *. set (r := a mod d) in *.
  pose proof (Z.div_mod q 2 ltac:(lia)) as Hq2.
  pose proof (Z.mod_pos_bound q 2 ltac:(lia)) as Hb.
  assert (Hdiv : a / (d * 2) = q / 2).
  { unfold q. rewrite Z.div_div by lia. reflexivity. }
  assert (Hmod : a mod (d * 2) = d * (q mod 2) + r).
  { symmetry. apply (Z.mod_unique_pos a (d * 2) (q / 2)); nia. }
  pose proof (Zodd_mod q) as Hodd.
  unfold rec_of. rewrite Hdiv, Hmod, Hodd.
  assert (Hcase : q mod 2 = 0 \/ q mod 2 = 1) by lia.
  destruct Hcase as [Hc|Hc]; rewrite Hc; rewrite ?Z.mul_0_r, ?Z.mul_1_r, ?Z.add_0_l;
    f_equal;
    destruct (Z.leb_spec d (2 * r)); destruct (Z.eqb_spec r 0);
    destruct (Z.eqb_spec (2 * r) d);
    try (destruct (Z.leb_spec (d * 2) (2 * r)));
    try (destruct (Z.leb_spec (d * 2) (2 * (d + r))));
    try (destruct (Z.eqb_spec (2 * r) (d * 2)));
    try (destruct (Z.eqb_spec (d + r) 0));
    try (destruct (Z.eqb_spec (2 * (d + r)) (d * 2)));
    try reflexivity; lia.
Qed.

Lemma iter_shr_1_rec (p : positive) : forall a d,
  0 <= a -> 0 < d ->
  iter_pos shr_1 p (rec_of a d) = rec_of a (d * 2 ^ Zpos p).
Proof.
  induction p as [p IH|p IH|]; intros a d Ha Hd; cbn [iter_pos].
  - rewrite shr_1_rec, IH, IH by (try apply Z.mul_pos_pos; try apply pow2_pos; lia).
    f_equal. rewrite (Pos2Z.inj_xI p), <- (Z.add_diag (Zpos p)).
    rewrite (pow2_add (Zpos p + Zpos p) 1), (pow2_add (Zpos p) (Zpos p)) by lia.
    change (2 ^ 1) with 2. ring.
  - rewrite IH, IH by (try apply Z.mul_pos_pos; try apply pow2_pos; lia).
    f_equal. rewrite (Pos2Z.inj_xO p), <- (Z.add_diag (Zpos p)).
    rewrite (pow2_add (Zpos p) (Zpos p)) by lia. ring.
  - rewrite shr_1_rec by lia. reflexivity.
Qed.

Lemma shr_rec (a d e n : Z) :
  0 <= a -> 0 < d -> 0 <= n ->
  shr (rec_of a d) e n = (rec_of a (d * 2 ^ n), e + n).
Proof.
  intros Ha Hd Hn. unfold shr. destruct n as [|p|p]; try lia.
  - rewrite Z.mul_1_r, Z.add_0_r. reflexivity.
  - rewrite iter_shr_1_rec by lia. reflexivity.
Qed.

(** ** Rounding to the nearest integer, ties to even *)

Lemma rne_cases (a d : Z) :
  0 < d ->
  (2 * (a mod d) < d /\ rne a d = a / d) \/
  (2 * (a mod d) = d /\ rne a d = if Z.even (a / d) then a / d else a / d + 1) \/
  (d < 2 * (a mod d) /\ rne a d = a / d + 1).
Proof.
  intros Hd. unfold rne, loc.
  pose proof (Z.mod_pos_bound a d Hd) as Hr.
  set (r := a mod d) in *.
  destruct (Z.eqb_spec r 0) as [H0|H0].
  - left. split; [lia|reflexivity].
  - destruct (Z.compare_spec (2 * r) d) as [He|Hl|Hg]; auto.
Qed.

Lemma rne_nearest (a d : Z) : 0 < d -> nearest a d (rne a d).
Proof.
  intros Hd. unfold nearest.
  pose proof (Z.div_mod a d ltac:(lia)) as Hdm.
  pose proof (Z.mod_pos_bound a d Hd) as Hr.
  destruct (rne_cases a d Hd) as [[Hc ->]|[[Hc ->]|[Hc ->]]].
  - split; [nia|]. split; intros; nia.
  - destruct (Z.even (a / d)) eqn:Hev.
    + split; [nia|]. split; intros; [nia|exact Hev].
    + assert (Hev' : Z.even (a / d + 1) = true).
      { rewrite Z.even_add, Hev. reflexivity. }
      split; [nia|]. split; intros; [exact Hev'|nia].
  - split; [nia|]. split; intros; nia.
Qed.

Lemma nearest_mono (a d M a' d' M' : Z) :
  0 < d -> 0 < d' -> nearest a d M -> nearest a' d' M' ->
  a * d' <= a' * d -> M <= M'.
Proof.
  intros Hd Hd' (Hb & Hlo & _) (Hb' & _ & Hhi') Hle.
  destruct (Z.le_gt_cases M M') as [|Hgt]; [assumption|exfalso].
  assert (H1 : d * d' * (2 * M - 1) <= 2 * a * d') by nia.
  assert (H2 : 2 * a' * d <= d * d' * (2 * M' + 1)) by nia.
  assert (H3 : d * d' * (2 * M - 1) <= d * d' * (2 * M' + 1)) by nia.
  assert (Hdd : 0 < d * d') by nia.
  assert (HM : M = M' + 1) by nia.
  subst M.
  assert (E1 : 2 * a = d * (2 * (M' + 1) - 1)) by nia.
  assert (E2 : 2 * a' = d' * (2 * M' + 1)) by nia.
  specialize (Hlo E1). specialize (Hhi' E2).
  rewrite Z.even_add, Hhi' in Hlo. discriminate.
Qed.

Lemma rne_mono (a d a' d' : Z) :
  0 < d -> 0 < d' -> a * d' <= a' * d -> rne a d <= rne a' d'.
Proof.
  intros Hd Hd' Hle.
  exact (nearest_mono _ _ _ _ _ _ Hd Hd' (rne_nearest a d Hd) (rne_nearest a' d' Hd') Hle).
Qed.

Lemma rne_ext (a d a' d' : Z) :
  0 < d -> 0 < d' -> a * d' = a' * d -> rne a d = rne a' d'.
Proof.
  intros Hd Hd' He. apply Z.le_antisymm; apply rne_mono; lia.
Qed.

Lemma rne_exact (m d : Z) : 0 < d -> rne (m * d) d = m.
Proof.
  intros Hd. unfold rne, loc. rewrite Z.mod_mul, Z.div_mul by lia. reflexivity.
Qed.

Lemma rne_bounds (a d : Z) : 0 < d -> a / d <= rne a d <= a / d + 1.
Proof.
  intros Hd.
  destruct (rne_cases a d Hd) as [[_ ->]|[[_ ->]|[_ ->]]]; try lia.
  destruct (Z.even (a / d)); lia.
Qed.

Section Format.
Variables prc emx : Z.
Hypothesis Hprc : 0 < prc.
Hypothesis Hemx : prc < emx.

#[warnings="-notation-for-abbreviation"]
Local Notation emn := (SpecFloat.emin prc emx).
#[warnings="-notation-for-abbreviation"]
Local Notation fxp := (SpecFloat.fexp prc emx).

Lemma fxp_ge (e : Z) : emn <= fxp e /\ e - prc <= fxp e.
Proof. unfold SpecFloat.fexp. lia. Qed.

Lemma fxp_eq (e : Z) : fxp e = e - prc \/ fxp e = emn.
Proof. unfold SpecFloat.fexp. lia. Qed.

Lemma Zdigits2_pow2 (k : Z) : 0 <= k -> Zdigits2 (2 ^ k) = k + 1.
Proof.
  intros Hk. rewrite Zdigits2_log2 by (apply pow2_pos; lia).
  rewrite Z.log2_pow2 by lia. reflexivity.
Qed.

Lemma Zdigits2_upper (n : Z) : 0 <= n -> n < 2 ^ Zdigits2 n.
Proof.
  intros Hn. destruct (Z.eq_dec n 0) as [->|Hne]; [cbn; lia|].
  apply Zdigits2_le; [lia|apply Zdigits2_nonneg|lia].
Qed.

Lemma Zdigits2_lower (n : Z) : 0 < n -> 2 ^ (Zdigits2 n - 1) <= n.
Proof.
  intros Hn. apply Zdigits2_gt; [lia| |lia].
  pose proof (Zdigits2_pos n Hn). lia.
Qed.

(** The shape of a rounded value: [a/d], at exponent [ex], is cut to the
    exponent [E] of the format and rounded there. *)
Lemma bra_shape (sx : bool) (a d ex : Z) :
  0 <= a -> 0 < d ->
  ex <= fxp (Zdigits2 (a / d) + ex) ->
  let E := fxp (Zdigits2 (a / d) + ex) in
  let M := rne a (d * 2 ^ (E - ex)) in
  0 <= M <= 2 ^ prc /\
  (emn < E -> 2 ^ (prc - 1) <= M) /\
  binary_round_aux prc emx sx (a / d) ex (loc a d) = packed prc emx sx M E.
Proof.
  intros Ha Hd Hpre E M.
  pose proof (Z.div_pos a d Ha Hd) as Hq.
  set (g := Zdigits2 (a / d)) in *.
  assert (Hg : 0 <= g) by apply Zdigits2_nonneg.
  set (n := E - ex) in *.
  assert (Hn : 0 <= n) by (unfold n; fold E in Hpre; lia).
  assert (HD : 0 < d * 2 ^ n) by (apply Z.mul_pos_pos; [lia|apply pow2_pos; lia]).
  assert (HF : a / (d * 2 ^ n) = a / d / 2 ^ n).
  { rewrite Z.div_div; [reflexivity|lia|apply pow2_pos; lia]. }
  pose proof (fxp_ge (g + ex)) as [HE1 HE2]. fold E in HE1, HE2.
  assert (HFhi : a / (d * 2 ^ n) < 2 ^ prc).
  { rewrite HF. apply Z.div_lt_upper_bound; [apply pow2_pos; lia|].
    rewrite <- pow2_add by lia.
    apply Z.lt_le_trans with (2 ^ g); [apply Zdigits2_upper; lia|].
    apply pow2_le. unfold n. lia. }
  assert (HF0 : 0 <= a / (d * 2 ^ n)) by (apply Z.div_pos; lia).
  pose proof (rne_bounds a (d * 2 ^ n) HD) as HMb. fold M in HMb.
  assert (HM : 0 <= M <= 2 ^ prc) by lia.
  assert (Hnormal : emn < E -> 2 ^ (prc - 1) <= M).
  { intros Hgt.
    assert (HE : E = g + ex - prc).
    { destruct (fxp_eq (g + ex)) as [H1|H1]; fold E in H1; lia. }
    assert (Hq0 : 0 < a / d).
    { destruct (Z.eq_dec (a / d) 0) as [H0|H0]; [|lia].
      exfalso. unfold g in HE. rewrite H0 in HE. cbn in HE. fold E in Hpre. lia. }
    assert (2 ^ (prc - 1) <= a / (d * 2 ^ n)); [|lia].
    rewrite HF. apply Z.div_le_lower_bound; [apply pow2_pos; lia|].
    rewrite <- pow2_add by lia.
    replace (n + (prc - 1)) with (g - 1) by (unfold n; lia).
    apply Zdigits2_lower. exact Hq0. }
  split; [exact HM|]. split; [exact Hnormal|].
  unfold binary_round_aux, shr_fexp, packed.
  fold g. fold E. fold n.
  rewrite (rec_of_loc a d Hd), (shr_rec a d ex n Ha Hd Hn).
  rewrite (loc_of_rec a (d * 2 ^ n) HD).
  cbn [shr_m rec_of]. fold (rne a (d * 2 ^ n)). fold M.
  replace (ex + n) with E by (unfold n; lia).
  change (shr_record_of_loc M loc_Exact)
    with {| shr_m := M; shr_r := false; shr_s := false |}.
  destruct (Z.ltb_spec M (2 ^ prc)) as [Hlt|Hge].
  - assert (Hdig : Zdigits2 M <= prc).
    { destruct (Z.eq_dec M 0) as [->|HM0]; [cbn; lia|].
      apply Zdigits2_le; lia. }
    assert (Hn2 : fxp (Zdigits2 M + E) - E <= 0).
    { destruct (fxp_eq (Zdigits2 M + E)) as [H1|H1]; lia. }
    unfold shr. destruct (fxp (Zdigits2 M + E) - E) as [|p|p] eqn:Hs; try lia;
      cbn [shr_m]; destruct M as [|m|m]; try reflexivity; lia.
  - assert (HM2 : M = 2 ^ prc) by lia.
    assert (Hn2 : fxp (Zdigits2 M + E) - E = 1).
    { rewrite HM2, Zdigits2_pow2 by lia.
      destruct (fxp_eq (prc + 1 + E)) as [H1|H1];
        pose proof (fxp_ge (prc + 1 + E)); lia. }
    rewrite Hn2. unfold shr. cbn [iter_pos].
    rewrite shr_1_eq by lia. cbn [shr_m].
    assert (Hhalf : M / 2 = 2 ^ (prc - 1)).
    { rewrite HM2. replace prc with (Z.succ (prc - 1)) at 1 by lia.
      rewrite Z.pow_succ_r by lia. rewrite Z.mul_comm, Z.div_mul by lia.
      reflexivity. }
    rewrite Hhalf.
    pose proof (pow2_pos (prc - 1) ltac:(lia)) as Hp.
    destruct (2 ^ (prc - 1)) as [|p|p] eqn:Hpw; try lia.
    reflexivity.
Qed.

Lemma Zdigits2_unique (n g : Z) :
  0 < g -> 2 ^ (g - 1) <= n < 2 ^ g -> Zdigits2 n = g.
Proof.
  intros Hg [Hlo Hhi].
  assert (Hn : 0 < n) by (pose proof (pow2_pos (g - 1)); lia).
  assert (H1 : Zdigits2 n <= g) by (apply Zdigits2_le; lia).
  assert (H2 : g - 1 < Zdigits2 n) by (apply Zdigits2_gt; lia).
  lia.
Qed.

(** Scaling a fraction by a power of two adds to its digits. *)
Lemma Zdigits2_scaled (a d j : Z) :
  0 <= a -> 0 < d -> 0 <= j -> 0 < a / d ->
  Zdigits2 (a * 2 ^ j / d) = Zdigits2 (a / d) + j.
Proof.
  intros Ha Hd Hj Hq.
  pose proof (Zdigits2_pos _ Hq) as Hg.
  pose proof (Zdigits2_lower _ Hq) as Hlo.
  pose proof (Zdigits2_upper (a / d) ltac:(lia)) as Hhi.
  set (g := Zdigits2 (a / d)) in *.
  pose proof (pow2_pos j Hj) as Hpj.
  pose proof (Z.div_mod a d ltac:(lia)) as Hdm.
  pose proof (Z.mod_pos_bound a d Hd) as Hr.
  assert (H1 : d * 2 ^ (g - 1) <= a) by nia.
  assert (H2 : a < d * 2 ^ g) by nia.
  apply Zdigits2_unique; [lia|]. split.
  - replace (g + j - 1) with (g - 1 + j) by lia. rewrite pow2_add by lia.
    apply Z.div_le_lower_bound; [lia|].
    rewrite Z.mul_assoc. apply Z.mul_le_mono_nonneg_r; lia.
  - rewrite pow2_add by lia.
    apply Z.div_lt_upper_bound; [lia|].
    rewrite Z.mul_assoc. apply Z.mul_lt_mono_pos_r; lia.
Qed.

Variable e0 : Z.
Hypothesis He0 : e0 <= emn - emx.

#[warnings="-notation-for-abbreviation"]
Local Notation TOP := (top emx e0).

Lemma top_pos : 0 < TOP.
Proof. unfold top. apply pow2_pos. unfold SpecFloat.emin in He0. lia. Qed.

(** What a packed mantissa is worth. *)
Lemma packed_ord (M E : Z) :
  0 <= M <= 2 ^ prc -> emn <= E -> (emn < E -> 2 ^ (prc - 1) <= M) ->
  ord emx e0 (packed prc emx false M E) = Z.min (M * 2 ^ (E - e0)) TOP.
Proof.
  intros HM HE Hnormal. unfold packed.
  pose proof top_pos as Htop.
  assert (Hk : 0 <= E - e0) by lia.
  pose proof (pow2_pos (E - e0) Hk) as Hpk.
  assert (Hemn : emn < emx - prc + 1) by (unfold SpecFloat.emin; lia).
  destruct (Z.ltb_spec M (2 ^ prc)) as [Hlt|Hge].
  - destruct M as [|m|m]; [cbn [ord]; lia| |lia].
    destruct (Z.leb_spec E (emx - prc)) as [Hle|Hgt]; cbn [ord cond_Zopp].
    + assert (Zpos m * 2 ^ (E - e0) < TOP); [|lia].
      unfold top. replace (emx - e0) with (prc + (emx - prc - e0)) by lia.
      rewrite pow2_add by lia.
      pose proof (pow2_le (E - e0) (emx - prc - e0) ltac:(lia)).
      pose proof (pow2_pos (emx - prc - e0) ltac:(lia)). nia.
    + assert (TOP <= Zpos m * 2 ^ (E - e0)); [|lia].
      specialize (Hnormal ltac:(lia)).
      unfold top. replace (emx - e0) with ((prc - 1) + (emx - prc + 1 - e0)) by lia.
      rewrite pow2_add by lia.
      pose proof (pow2_le (emx - prc + 1 - e0) (E - e0) ltac:(lia)).
      pose proof (pow2_pos (emx - prc + 1 - e0) ltac:(lia)).
      pose proof (pow2_pos (prc - 1) ltac:(lia)). nia.
  - assert (HM2 : M = 2 ^ prc) by lia.
    pose proof (pow2_pos (prc - 1) ltac:(lia)) as Hp.
    assert (Hval : M * 2 ^ (E - e0) = 2 ^ (prc + (E - e0))).
    { rewrite HM2, pow2_add by lia. reflexivity. }
    destruct (Z.leb_spec (E + 1) (emx - prc)) as [Hle|Hgt]; cbn [ord cond_Zopp].
    + rewrite Z2Pos.id by lia.
      replace (E + 1 - e0) with (1 + (E - e0)) by lia.
      assert (Heq : 2 ^ (prc - 1) * 2 ^ (1 + (E - e0)) = M * 2 ^ (E - e0)).
      { rewrite Hval, <- pow2_add by lia. f_equal. lia. }
      rewrite Heq, Hval.
      pose proof (pow2_le (prc + (E - e0)) (emx - e0) ltac:(lia)).
      unfold top. lia.
    + rewrite Hval.
      pose proof (pow2_le (emx - e0) (prc + (E - e0)) ltac:(lia)).
      unfold top. lia.
Qed.

Lemma packed_valid (sx : bool) (M E : Z) :
  0 <= M <= 2 ^ prc -> emn <= E -> (emn < E -> 2 ^ (prc - 1) <= M) ->
  SpecFloat.valid_binary prc emx (packed prc emx sx M E) = true /\
  packed prc emx sx M E <> S754_nan.
Proof.
  intros HM HE Hnormal. unfold packed.
  destruct (Z.ltb_spec M (2 ^ prc)) as [Hlt|Hge].
  - destruct M as [|m|m]; [split; [reflexivity|discriminate]| |lia].
    destruct (Z.leb_spec E (emx - prc)) as [Hle|Hgt];
      [|split; [reflexivity|discriminate]].
    split; [|discriminate].
    cbn [SpecFloat.valid_binary]. unfold bounded, canonical_mantissa.
    apply andb_true_intro. split; [|apply Z.leb_le; exact Hle].
    apply Z.eqb_eq.
    change (Zpos (digits2_pos m)) with (Zdigits2 (Zpos m)).
    assert (Hd1 : Zdigits2 (Zpos m) <= prc) by (apply Zdigits2_le; lia).
    destruct (Z.eq_dec E emn) as [He|He].
    + unfold SpecFloat.fexp. lia.
    + assert (Hd2 : prc - 1 < Zdigits2 (Zpos m)).
      { apply Zdigits2_gt; [lia|lia|]. apply Hnormal. lia. }
      unfold SpecFloat.fexp. lia.
  - destruct (Z.leb_spec (E + 1) (emx - prc)) as [Hle|Hgt];
      [|split; [reflexivity|discriminate]].
    split; [|discriminate].
    cbn [SpecFloat.valid_binary]. unfold bounded, canonical_mantissa.
    apply andb_true_intro. split; [|apply Z.leb_le; exact Hle].
    apply Z.eqb_eq.
    pose proof (pow2_pos (prc - 1) ltac:(lia)) as Hp.
    change (Zpos (digits2_pos (Z.to_pos (2 ^ (prc - 1)))))
      with (Zdigits2 (Zpos (Z.to_pos (2 ^ (prc - 1))))).
    rewrite Z2Pos.id by lia. rewrite Zdigits2_pow2 by lia.
    unfold SpecFloat.fexp. lia.
Qed.

Lemma packed_opp (M E : Z) :
  packed prc emx true M E = SFopp (packed prc emx false M E).
Proof.
  unfold packed. destruct (M <? 2 ^ prc).
  - destruct M; try reflexivity. destruct (E <=? emx - prc); reflexivity.
  - destruct (E + 1 <=? emx - prc); reflexivity.
Qed.

(** The exponent of the format depends on the value only. *)
Lemma fxp_scaled (a d ex : Z) :
  0 <= a -> 0 < d -> e0 <= ex ->
  ex <= fxp (Zdigits2 (a / d) + ex) ->
  fxp (Zdigits2 (a * 2 ^ (ex - e0) / d) + e0) = fxp (Zdigits2 (a / d) + ex).
Proof.
  intros Ha Hd Hex Hpre.
  pose proof (Z.div_pos a d Ha Hd) as Hq.
  destruct (Z.eq_dec (a / d) 0) as [H0|H0].
  - rewrite H0 in *. cbn [Zdigits2] in *.
    assert (Hlow : a * 2 ^ (ex - e0) / d < 2 ^ (ex - e0)).
    { apply Z.div_lt_upper_bound; [lia|].
      assert (a < d) by (apply Z.div_small_iff in H0; lia).
      pose proof (pow2_pos (ex - e0) ltac:(lia)). nia. }
    assert (Hnn : 0 <= a * 2 ^ (ex - e0) / d).
    { apply Z.div_pos; [|lia]. pose proof (pow2_pos (ex - e0) ltac:(lia)). nia. }
    assert (Hdig : Zdigits2 (a * 2 ^ (ex - e0) / d) <= ex - e0).
    { destruct (Z.eq_dec (a * 2 ^ (ex - e0) / d) 0) as [->|Hne]; [cbn; lia|].
      apply Zdigits2_le; lia. }
    unfold SpecFloat.fexp in *. lia.
  - rewrite Zdigits2_scaled by lia. f_equal. lia.
Qed.

(** Rounding a located fraction gives the float nearest to its value. *)
Lemma bra_rnd (sx : bool) (a d ex : Z) :
  0 <= a -> 0 < d -> e0 <= ex ->
  ex <= fxp (Zdigits2 (a / d) + ex) ->
  ord emx e0 (binary_round_aux prc emx false (a / d) ex (loc a d))
    = rnd prc emx e0 (a * 2 ^ (ex - e0)) d /\
  binary_round_aux prc emx sx (a / d) ex (loc a d)
    = (if sx then SFopp else fun x => x)
        (binary_round_aux prc emx false (a / d) ex (loc a d)) /\
  SpecFloat.valid_binary prc emx (binary_round_aux prc emx sx (a / d) ex (loc a d)) = true /\
  binary_round_aux prc emx sx (a / d) ex (loc a d) <> S754_nan.
Proof.
  intros Ha Hd Hex Hpre.
  destruct (bra_shape false a d ex Ha Hd Hpre) as (HM & Hnormal & Hfalse).
  destruct (bra_shape sx a d ex Ha Hd Hpre) as (_ & _ & Hsx).
  cbv zeta in *.
  set (E := fxp (Zdigits2 (a / d) + ex)) in *.
  set (M := rne a (d * 2 ^ (E - ex))) in *.
  assert (HE : emn <= E) by (apply fxp_ge).
  split; [|split].
  - rewrite Hfalse, packed_ord by assumption.
    unfold rnd. rewrite fxp_scaled by assumption. fold E.
    f_equal. f_equal. unfold M.
    pose proof (pow2_pos (E - ex) ltac:(lia)).
    pose proof (pow2_pos (E - e0) ltac:(lia)).
    apply rne_ext; [nia|nia|].
    replace (E - e0) with ((E - ex) + (ex - e0)) by lia.
    rewrite pow2_add by lia. ring.
  - rewrite Hsx, Hfalse. destruct sx; [apply packed_opp|reflexivity].
  - rewrite Hsx. apply packed_valid; assumption.
Qed.

Lemma Zdigits2_mono (m n : Z) : 0 <= m <= n -> Zdigits2 m <= Zdigits2 n.
Proof.
  intros [Hm Hmn]. destruct (Z.eq_dec m 0) as [->|Hne].
  - apply Zdigits2_nonneg.
  - apply Zdigits2_le; [lia|apply Zdigits2_nonneg|].
    pose proof (Zdigits2_upper n ltac:(lia)). lia.
Qed.

Lemma fxp_mono (e e' : Z) : e <= e' -> fxp e <= fxp e'.
Proof. unfold SpecFloat.fexp. lia. Qed.

Lemma div_frac_mono (A1 B1 A2 B2 : Z) :
  0 < B1 -> 0 < B2 -> A1 * B2 <= A2 * B1 -> A1 / B1 <= A2 / B2.
Proof.
  intros H1 H2 Hle. apply Z.div_le_lower_bound; [lia|].
  pose proof (Z.div_mod A1 B1 ltac:(lia)) as Hdm.
  pose proof (Z.mod_pos_bound A1 B1 H1) as Hr.
  assert (B1 * (B2 * (A1 / B1)) <= B1 * A2); [nia|].
  apply Z.mul_le_mono_pos_l with B1; lia.
Qed.

(** The bounds of [bra_shape], for the fraction on the scale itself. *)
Lemma rnd_mantissa (A B : Z) :
  0 <= A -> 0 < B ->
  let E := fxp (Zdigits2 (A / B) + e0) in
  let M := rne A (B * 2 ^ (E - e0)) in
  emn <= E /\ 0 <= M <= 2 ^ prc /\ (emn < E -> 2 ^ (prc - 1) <= M).
Proof.
  intros HA HB E M.
  assert (HE : emn <= E) by apply fxp_ge.
  destruct (bra_shape false A B e0 HA HB ltac:(fold E; lia)) as (HM & Hn & _).
  auto.
Qed.

Lemma rnd_range (A B : Z) : 0 <= A -> 0 < B -> 0 <= rnd prc emx e0 A B <= TOP.
Proof.
  intros HA HB. destruct (rnd_mantissa A B HA HB) as (HE & HM & _).
  unfold rnd. pose proof top_pos.
  pose proof (pow2_pos (fxp (Zdigits2 (A / B) + e0) - e0) ltac:(lia)). nia.
Qed.

(** Rounding is monotone. *)
Lemma rnd_mono (A1 B1 A2 B2 : Z) :
  0 <= A1 -> 0 < B1 -> 0 <= A2 -> 0 < B2 ->
  A1 * B2 <= A2 * B1 ->
  rnd prc emx e0 A1 B1 <= rnd prc emx e0 A2 B2.
Proof.
  intros HA1 HB1 HA2 HB2 Hle.
  destruct (rnd_mantissa A1 B1 HA1 HB1) as (HE1 & HM1 & _).
  destruct (rnd_mantissa A2 B2 HA2 HB2) as (HE2 & HM2 & Hn2).
  unfold rnd. cbv zeta in *.
  assert (Hq : A1 / B1 <= A2 / B2) by (apply div_frac_mono; assumption).
  assert (Hq0 : 0 <= A1 / B1) by (apply Z.div_pos; lia).
  assert (HE : fxp (Zdigits2 (A1 / B1) + e0) <= fxp (Zdigits2 (A2 / B2) + e0)).
  { apply fxp_mono. pose proof (Zdigits2_mono (A1 / B1) (A2 / B2)). lia. }
  set (E1 := fxp (Zdigits2 (A1 / B1) + e0)) in *.
  set (E2 := fxp (Zdigits2 (A2 / B2) + e0)) in *.
  set (M1 := rne A1 (B1 * 2 ^ (E1 - e0))) in *.
  set (M2 := rne A2 (B2 * 2 ^ (E2 - e0))) in *.
  apply Z.min_le_compat_r.
  pose proof (pow2_pos (E1 - e0) ltac:(lia)) as Hp1.
  pose proof (pow2_pos (E2 - e0) ltac:(lia)) as Hp2.
  destruct (Z.eq_dec E1 E2) as [Heq|Hne].
  - assert (M1 <= M2); [|rewrite <- Heq in *; nia].
    unfold M1, M2. rewrite <- Heq. apply rne_mono; nia.
  - specialize (Hn2 ltac:(lia)).
    apply Z.le_trans with (2 ^ (prc + (E1 - e0))).
    + rewrite pow2_add by lia. nia.
    + apply Z.le_trans with (2 ^ ((prc - 1) + (E2 - e0))).
      * apply pow2_le. lia.
      * rewrite pow2_add by lia. nia.
Qed.

Lemma rnd_ext (A1 B1 A2 B2 : Z) :
  0 <= A1 -> 0 < B1 -> 0 <= A2 -> 0 < B2 ->
  A1 * B2 = A2 * B1 ->
  rnd prc emx e0 A1 B1 = rnd prc emx e0 A2 B2.
Proof. intros. apply Z.le_antisymm; apply rnd_mono; lia. Qed.

(** A value the format holds is its own rounding. *)
Lemma rnd_idem (m j : Z) :
  0 <= m < 2 ^ prc -> emn <= j + e0 -> m * 2 ^ j < TOP ->
  rnd prc emx e0 (m * 2 ^ j) 1 = m * 2 ^ j.
Proof.
  intros Hm Hj Htop. unfold rnd. rewrite Z.div_1_r, Z.mul_1_l.
  assert (Hj0 : 0 <= j) by lia.
  pose proof (pow2_pos j Hj0) as Hpj.
  destruct (Z.eq_dec m 0) as [->|Hne].
  { rewrite !Z.mul_0_l. pose proof top_pos. lia. }
  assert (Hdig : Zdigits2 (m * 2 ^ j) = Zdigits2 m + j).
  { pose proof (Zdigits2_scaled m 1 j ltac:(lia) ltac:(lia) Hj0) as Hs.
    rewrite !Z.div_1_r in Hs. apply Hs. lia. }
  rewrite Hdig.
  assert (Hdm : Zdigits2 m <= prc) by (apply Zdigits2_le; lia).
  set (k := fxp (Zdigits2 m + j + e0) - e0).
  assert (Hk : 0 <= k <= j).
  { unfold k. pose proof (fxp_ge (Zdigits2 m + j + e0)).
    destruct (fxp_eq (Zdigits2 m + j + e0)); lia. }
  replace (m * 2 ^ j) with (m * 2 ^ (j - k) * 2 ^ k) at 1.
  2:{ rewrite <- Z.mul_assoc, <- pow2_add by lia. do 2 f_equal. lia. }
  rewrite rne_exact by (apply pow2_pos; lia).
  rewrite <- Z.mul_assoc, <- pow2_add by lia.
  replace (j - k + k) with j by lia. lia.
Qed.

(** ** The order of floats on the scale *)

Lemma valid_finite (s : bool) (m : positive) (e : Z) :
  SpecFloat.valid_binary prc emx (S754_finite s m e) = true ->
  emn <= e <= emx - prc /\ Zdigits2 (Zpos m) <= prc /\
  (emn < e -> Zdigits2 (Zpos m) = prc).
Proof.
  cbn [SpecFloat.valid_binary]. unfold bounded, canonical_mantissa.
  intros H. apply andb_prop in H. destruct H as [Hc Hb].
  apply Z.eqb_eq in Hc. apply Z.leb_le in Hb.
  change (Zpos (digits2_pos m)) with (Zdigits2 (Zpos m)) in Hc.
  unfold SpecFloat.fexp in Hc. lia.
Qed.

Lemma valid_finite_range (s : bool) (m : positive) (e : Z) :
  SpecFloat.valid_binary prc emx (S754_finite s m e) = true ->
  0 < Zpos m * 2 ^ (e - e0) < TOP.
Proof.
  intros Hv. destruct (valid_finite s m e Hv) as (He & Hd & _).
  pose proof (pow2_pos (e - e0) ltac:(lia)) as Hp.
  split; [lia|].
  assert (Hm : Zpos m < 2 ^ prc) by (apply Zdigits2_le; lia).
  unfold top. replace (emx - e0) with (prc + (emx - prc - e0)) by lia.
  rewrite pow2_add by lia.
  pose proof (pow2_le (e - e0) (emx - prc - e0) ltac:(lia)).
  pose proof (pow2_pos prc ltac:(lia)). nia.
Qed.

Lemma finite_compare (s1 s2 : bool) (m1 m2 : positive) (e1 e2 : Z) :
  SpecFloat.valid_binary prc emx (S754_finite s1 m1 e1) = true ->
  SpecFloat.valid_binary prc emx (S754_finite s2 m2 e2) = true ->
  match e1 ?= e2 with
  | Lt => Lt
  | Gt => Gt
  | Eq => Pos.compare_cont Eq m1 m2
  end = (Zpos m1 * 2 ^ (e1 - e0) ?= Zpos m2 * 2 ^ (e2 - e0)).
Proof.
  intros Hv1 Hv2.
  destruct (valid_finite s1 m1 e1 Hv1) as (He1 & Hd1 & Hn1).
  destruct (valid_finite s2 m2 e2 Hv2) as (He2 & Hd2 & Hn2).
  assert (Hlt : forall ma mb ea eb,
    emn <= ea -> ea < eb ->
    Zdigits2 (Zpos ma) <= prc -> Zdigits2 (Zpos mb) = prc ->
    Zpos ma * 2 ^ (ea - e0) < Zpos mb * 2 ^ (eb - e0)).
  { intros ma mb ea eb Hea Hab Hda Hdb.
    assert (Hma : Zpos ma < 2 ^ prc) by (apply Zdigits2_le; lia).
    assert (Hmb : 2 ^ (prc - 1) <= Zpos mb) by (apply Zdigits2_gt; lia).
    pose proof (pow2_pos (ea - e0) ltac:(lia)).
    pose proof (pow2_pos (eb - e0) ltac:(lia)).
    apply Z.lt_le_trans with (2 ^ (prc + (ea - e0))).
    - rewrite pow2_add by lia. nia.
    - apply Z.le_trans with (2 ^ ((prc - 1) + (eb - e0))).
      + apply pow2_le. lia.
      + rewrite pow2_add by lia. nia. }
  destruct (Z.compare_spec e1 e2) as [Heq|Hl|Hg].
  - subst e2. pose proof (pow2_pos (e1 - e0) ltac:(lia)) as Hp.
    change (Pos.compare_cont Eq m1 m2) with (Zpos m1 ?= Zpos m2).
    destruct (Z.compare_spec (Zpos m1) (Zpos m2)) as [Hc|Hc|Hc]; symmetry.
    + apply Z.compare_eq_iff. rewrite Hc. reflexivity.
    + apply Z.compare_lt_iff. nia.
    + apply Z.compare_gt_iff. nia.
  - symmetry. apply Z.compare_lt_iff. apply Hlt; lia.
  - symmetry. apply Z.compare_gt_iff. apply Hlt; lia.
Qed.

Lemma SFcompare_ord (x y : spec_float) :
  SpecFloat.valid_binary prc emx x = true ->
  SpecFloat.valid_binary prc emx y = true ->
  x <> S754_nan -> y <> S754_nan ->
  SFcompare x y = Some (ord emx e0 x ?= ord emx e0 y).
Proof.
  intros Hx Hy Hnx Hny. pose proof top_pos as Htop.
  destruct x as [sx|sx| |sx mx ex]; [| |contradiction|];
    destruct y as [sy|sy| |sy my ey]; try contradiction;
    try pose proof (valid_finite_range _ _ _ Hx) as Rx;
    try pose proof (valid_finite_range _ _ _ Hy) as Ry;
    cbn [SFcompare ord].
  - reflexivity.
  - f_equal. symmetry. destruct sy; cbn [cond_Zopp];
      [apply Z.compare_gt_iff|apply Z.compare_lt_iff]; lia.
  - f_equal. symmetry. destruct sy; cbn [cond_Zopp];
      [apply Z.compare_gt_iff|apply Z.compare_lt_iff]; lia.
  - f_equal. symmetry. destruct sx; cbn [cond_Zopp];
      [apply Z.compare_lt_iff|apply Z.compare_gt_iff]; lia.
  - f_equal. symmetry. destruct sx, sy; cbn [cond_Zopp];
      [apply Z.compare_eq_iff|apply Z.compare_lt_iff
      |apply Z.compare_gt_iff|apply Z.compare_eq_iff]; lia.
  - f_equal. symmetry. destruct sx, sy; cbn [cond_Zopp];
      [apply Z.compare_lt_iff|apply Z.compare_lt_iff
      |apply Z.compare_gt_iff|apply Z.compare_gt_iff]; lia.
  - f_equal. symmetry. destruct sx; cbn [cond_Zopp];
      [apply Z.compare_lt_iff|apply Z.compare_gt_iff]; lia.
  - f_equal. symmetry. destruct sx, sy; cbn [cond_Zopp];
      [apply Z.compare_gt_iff|apply Z.compare_lt_iff
      |apply Z.compare_gt_iff|apply Z.compare_lt_iff]; lia.
  - f_equal. destruct sx, sy; cbn [cond_Zopp].
    + rewrite Z.compare_opp, <- (finite_compare _ _ _ _ _ _ Hy Hx).
      rewrite (Z.compare_antisym ex ey).
      destruct (ex ?= ey); cbn [CompOpp]; try reflexivity.
      apply (Pos.compare_cont_antisym mx my Eq).
    + symmetry. apply Z.compare_lt_iff. lia.
    + symmetry. apply Z.compare_gt_iff. lia.
    + apply (finite_compare _ _ _ _ _ _ Hx Hy).
Qed.

Lemma SFleb_ord (x y : spec_float) :
  SpecFloat.valid_binary prc emx x = true ->
  SpecFloat.valid_binary prc emx y = true ->
  x <> S754_nan -> y <> S754_nan ->
  SFleb x y = (ord emx e0 x <=? ord emx e0 y).
Proof.
  intros Hx Hy Hnx Hny. unfold SFleb, Z.leb.
  rewrite (SFcompare_ord x y Hx Hy Hnx Hny).
  destruct (ord emx e0 x ?= ord emx e0 y); reflexivity.
Qed.

Lemma SFltb_ord (x y : spec_float) :
  SpecFloat.valid_binary prc emx x = true ->
  SpecFloat.valid_binary prc emx y = true ->
  x <> S754_nan -> y <> S754_nan ->
  SFltb x y = (ord emx e0 x <? ord emx e0 y).
Proof.
  intros Hx Hy Hnx Hny. unfold SFltb, Z.ltb.
  rewrite (SFcompare_ord x y Hx Hy Hnx Hny).
  destruct (ord emx e0 x ?= ord emx e0 y); reflexivity.
Qed.

(** ** Signed values *)

Lemma ord_opp (x : spec_float) : ord emx e0 (SFopp x) = - ord emx e0 x.
Proof. destruct x as [s|s| |s m e]; cbn [SFopp ord]; try destruct s; cbn; lia. Qed.

Lemma rnd_zero (B : Z) : 0 < B -> rnd prc emx e0 0 B = 0.
Proof.
  intros HB. unfold rnd.
  assert (Hr : forall D, rne 0 D = 0) by reflexivity.
  rewrite Hr. pose proof top_pos. lia.
Qed.

Lemma srnd_range (A B : Z) : 0 < B -> - TOP <= srnd prc emx e0 A B <= TOP.
Proof.
  intros HB. unfold srnd. destruct (Z.leb_spec 0 A).
  - pose proof (rnd_range A B ltac:(lia) HB). lia.
  - pose proof (rnd_range (- A) B ltac:(lia) HB). lia.
Qed.

Lemma srnd_mono (A1 B1 A2 B2 : Z) :
  0 < B1 -> 0 < B2 -> A1 * B2 <= A2 * B1 ->
  srnd prc emx e0 A1 B1 <= srnd prc emx e0 A2 B2.
Proof.
  intros HB1 HB2 Hle. unfold srnd.
  destruct (Z.leb_spec 0 A1) as [H1|H1]; destruct (Z.leb_spec 0 A2) as [H2|H2].
  - apply rnd_mono; lia.
  - nia.
  - pose proof (rnd_range (- A1) B1 ltac:(lia) HB1).
    pose proof (rnd_range A2 B2 ltac:(lia) HB2). lia.
  - assert (rnd prc emx e0 (- A2) B2 <= rnd prc emx e0 (- A1) B1); [|lia].
    apply rnd_mono; lia.
Qed.

Lemma srnd_ext (A1 B1 A2 B2 : Z) :
  0 < B1 -> 0 < B2 -> A1 * B2 = A2 * B1 ->
  srnd prc emx e0 A1 B1 = srnd prc emx e0 A2 B2.
Proof. intros. apply Z.le_antisymm; apply srnd_mono; lia. Qed.

Lemma srnd_cond (s : bool) (A B : Z) :
  0 <= A -> 0 < B ->
  cond_Zopp s (rnd prc emx e0 A B) = srnd prc emx e0 (cond_Zopp s A) B.
Proof.
  intros HA HB. unfold srnd. destruct s; cbn [cond_Zopp].
  - destruct (Z.leb_spec 0 (- A)) as [H|H].
    + assert (A = 0) by lia. subst A. cbn. rewrite rnd_zero by lia. reflexivity.
    + rewrite Z.opp_involutive. reflexivity.
  - destruct (Z.leb_spec 0 A); [reflexivity|lia].
Qed.

(** A finite float is the rounding of its own value. *)
Lemma ord_finite_idem (x : spec_float) :
  SpecFloat.valid_binary prc emx x = true -> sf_finite x ->
  srnd prc emx e0 (ord emx e0 x) 1 = ord emx e0 x.
Proof.
  intros Hv Hf. destruct x as [s|s| |s m e]; try contradiction; cbn [ord].
  - unfold srnd. cbn. apply rnd_zero. lia.
  - destruct (valid_finite s m e Hv) as (He & Hd & _).
    pose proof (valid_finite_range s m e Hv) as Hr.
    rewrite <- srnd_cond by lia. f_equal.
    apply rnd_idem; [|lia|lia].
    split; [lia|]. apply Zdigits2_le; lia.
Qed.

Lemma ord_range (x : spec_float) :
  SpecFloat.valid_binary prc emx x = true -> - TOP <= ord emx e0 x <= TOP.
Proof.
  intros Hv. pose proof top_pos.
  destruct x as [s|s| |s m e]; cbn [ord]; try lia.
  - destruct s; cbn; lia.
  - pose proof (valid_finite_range s m e Hv). destruct s; cbn [cond_Zopp]; lia.
Qed.

Lemma ord_finite_range (x : spec_float) :
  SpecFloat.valid_binary prc emx x = true -> sf_finite x ->
  - TOP < ord emx e0 x < TOP.
Proof.
  intros Hv Hf. pose proof top_pos.
  destruct x as [s|s| |s m e]; try contradiction; cbn [ord]; try lia.
  pose proof (valid_finite_range s m e Hv). destruct s; cbn [cond_Zopp]; lia.
Qed.

(** ** Conversion of an integer and addition *)

Lemma iter_xO (d m : positive) : Zpos (Pos.iter xO m d) = Zpos m * 2 ^ Zpos d.
Proof.
  induction d as [|d IH] using Pos.peano_ind.
  - cbn [Pos.iter]. change (2 ^ 1) with 2. lia.
  - rewrite Pos.iter_succ, Pos2Z.inj_xO, IH, Pos2Z.inj_succ.
    rewrite Z.pow_succ_r by lia. ring.
Qed.

Lemma shl_align_spec (m : positive) (e e' : Z) :
  snd (shl_align m e e') = Z.min e e' /\
  Zpos (fst (shl_align m e e')) = Zpos m * 2 ^ (e - Z.min e e').
Proof.
  unfold shl_align. destruct (e' - e) as [|p|p] eqn:Hd; cbn [fst snd].
  - replace (Z.min e e') with e by lia. rewrite Z.sub_diag. split; lia.
  - replace (Z.min e e') with e by lia. rewrite Z.sub_diag. split; lia.
  - replace (Z.min e e') with e' by lia. split; [reflexivity|].
    rewrite iter_xO. f_equal. f_equal. lia.
Qed.

Lemma binary_round_ord (s : bool) (m : positive) (e : Z) :
  e0 <= e ->
  ord emx e0 (binary_round prc emx s m e)
    = cond_Zopp s (rnd prc emx e0 (Zpos m * 2 ^ (e - e0)) 1) /\
  SpecFloat.valid_binary prc emx (binary_round prc emx s m e) = true /\
  binary_round prc emx s m e <> S754_nan.
Proof.
  intros He. unfold binary_round.
  change (Zpos (digits2_pos m)) with (Zdigits2 (Zpos m)).
  set (e' := fxp (Zdigits2 (Zpos m) + e)).
  destruct (shl_align_spec m e e') as [Hsnd Hfst].
  destruct (shl_align m e e') as [mz ez]. cbn [fst snd] in Hsnd, Hfst.
  assert (He' : emn <= e') by apply fxp_ge.
  assert (Hez : e0 <= ez) by lia.
  pose proof (pow2_pos (e - Z.min e e') ltac:(lia)) as Hp.
  assert (Hdig : Zdigits2 (Zpos mz) + ez = Zdigits2 (Zpos m) + e).
  { rewrite Hfst.
    pose proof (Zdigits2_scaled (Zpos m) 1 (e - Z.min e e')
                  ltac:(lia) ltac:(lia) ltac:(lia)) as Hs.
    rewrite !Z.div_1_r in Hs. rewrite Hs by lia. lia. }
  assert (Hbra : forall sx,
            binary_round_aux prc emx sx (Zpos mz) ez loc_Exact
            = binary_round_aux prc emx sx (Zpos mz / 1) ez (loc (Zpos mz) 1)).
  { intros sx. rewrite Z.div_1_r. unfold loc. rewrite Z.mod_1_r. reflexivity. }
  rewrite !Hbra.
  assert (Hpre : ez <= fxp (Zdigits2 (Zpos mz / 1) + ez)).
  { rewrite Z.div_1_r, Hdig. fold e'. lia. }
  destruct (bra_rnd s (Zpos mz) 1 ez ltac:(lia) ltac:(lia) Hez Hpre)
    as (Hord & Hsign & Hvalid & Hnan).
  split; [|split; assumption].
  rewrite Hsign.
  assert (Hval : Zpos mz * 2 ^ (ez - e0) = Zpos m * 2 ^ (e - e0)).
  { rewrite Hfst, <- Z.mul_assoc, <- pow2_add by lia. do 2 f_equal. lia. }
  destruct s; cbn [cond_Zopp]; [rewrite ord_opp|]; rewrite Hord, Hval; reflexivity.
Qed.

Lemma binary_normalize_ord (N e : Z) :
  e0 <= e ->
  ord emx e0 (binary_normalize prc emx N e false)
    = srnd prc emx e0 (N * 2 ^ (e - e0)) 1 /\
  SpecFloat.valid_binary prc emx (binary_normalize prc emx N e false) = true /\
  binary_normalize prc emx N e false <> S754_nan.
Proof.
  intros He. pose proof (pow2_pos (e - e0) ltac:(lia)) as Hp.
  destruct N as [|m|m]; cbn [binary_normalize].
  - split; [|split; [reflexivity|discriminate]].
    unfold srnd. cbn. rewrite rnd_zero by lia. reflexivity.
  - destruct (binary_round_ord false m e He) as (Ho & Hv & Hn).
    split; [|split; assumption].
    rewrite Ho. apply (srnd_cond false); lia.
  - destruct (binary_round_ord true m e He) as (Ho & Hv & Hn).
    split; [|split; assumption].
    rewrite Ho, srnd_cond by lia. f_equal. cbn [cond_Zopp]. lia.
Qed.

(** The sum of two finite floats is the rounding of the sum of their
    values. *)
Lemma SFadd_ord (x y : spec_float) :
  SpecFloat.valid_binary prc emx x = true ->
  SpecFloat.valid_binary prc emx y = true ->
  sf_finite x -> sf_finite y ->
  ord emx e0 (SFadd prc emx x y)
    = srnd prc emx e0 (ord emx e0 x + ord emx e0 y) 1 /\
  SFadd prc emx x y <> S754_nan.
Proof.
  intros Hx Hy Fx Fy.
  destruct x as [sx|sx| |sx mx ex]; try contradiction;
    destruct y as [sy|sy| |sy my ey]; try contradiction.
  - split; [|destruct sx, sy; discriminate].
    assert (Hz : srnd prc emx e0 0 1 = 0).
    { unfold srnd. cbn. apply rnd_zero. lia. }
    cbn [ord]. rewrite Z.add_0_l, Hz. destruct sx, sy; reflexivity.
  - split; [|discriminate]. cbn [SFadd].
    change (ord emx e0 (S754_zero sx)) with 0. rewrite Z.add_0_l.
    symmetry. apply ord_finite_idem; [assumption|exact I].
  - split; [|discriminate]. cbn [SFadd].
    change (ord emx e0 (S754_zero sy)) with 0. rewrite Z.add_0_r.
    symmetry. apply ord_finite_idem; [assumption|exact I].
  - cbn [SFadd].
    destruct (valid_finite sx mx ex Hx) as (Hex & _).
    destruct (valid_finite sy my ey Hy) as (Hey & _).
    set (ez := Z.min ex ey).
    destruct (shl_align_spec mx ex ez) as [_ H1].
    destruct (shl_align_spec my ey ez) as [_ H2].
    rewrite H1, H2.
    replace (Z.min ex ez) with ez by lia. replace (Z.min ey ez) with ez by lia.
    destruct (binary_normalize_ord
                (cond_Zopp sx (Zpos mx * 2 ^ (ex - ez))
                 + cond_Zopp sy (Zpos my * 2 ^ (ey - ez))) ez ltac:(lia))
      as (Ho & _ & Hn).
    split; [|exact Hn]. rewrite Ho. f_equal. cbn [ord].
    assert (Hmx : 2 ^ (ex - e0) = 2 ^ (ex - ez) * 2 ^ (ez - e0)).
    { rewrite <- pow2_add by lia. f_equal. lia. }
    assert (Hmy : 2 ^ (ey - e0) = 2 ^ (ey - ez) * 2 ^ (ez - e0)).
    { rewrite <- pow2_add by lia. f_equal. lia. }
    rewrite Hmx, Hmy. destruct sx, sy; cbn [cond_Zopp]; ring.
Qed.

Lemma finite_or_infinite (z : spec_float) :
  z <> S754_nan -> sf_finite z \/ exists s, z = S754_infinity s.
Proof.
  intros Nz. destruct z as [s|s| |s m e]; try contradiction;
    try (left; exact I). right. now exists s.
Qed.

(** Addition is monotone in both arguments, also from an infinite
    accumulator. *)
Lemma SFadd_mono (x x' y y' : spec_float) :
  SpecFloat.valid_binary prc emx x = true ->
  SpecFloat.valid_binary prc emx x' = true ->
  SpecFloat.valid_binary prc emx y = true ->
  SpecFloat.valid_binary prc emx y' = true ->
  x <> S754_nan -> x' <> S754_nan -> sf_finite y -> sf_finite y' ->
  ord emx e0 x <= ord emx e0 x' -> ord emx e0 y <= ord emx e0 y' ->
  ord emx e0 (SFadd prc emx x y) <= ord emx e0 (SFadd prc emx x' y') /\
  SFadd prc emx x y <> S754_nan /\ SFadd prc emx x' y' <> S754_nan.
Proof.
  intros Hx Hx' Hy Hy' Nx Nx' Fy Fy' Lx Ly.
  pose proof top_pos as Htop.
  assert (Hinf : forall s z, sf_finite z ->
            SFadd prc emx (S754_infinity s) z = S754_infinity s).
  { intros s z Fz. destruct z; try contradiction; reflexivity. }
  destruct (finite_or_infinite x Nx) as [Fx|[s ->]];
    destruct (finite_or_infinite x' Nx') as [Fx'|[s' ->]];
    try rewrite (Hinf s y Fy); try rewrite (Hinf s' y' Fy').
  - destruct (SFadd_ord x y Hx Hy Fx Fy) as [Ho Hn].
    destruct (SFadd_ord x' y' Hx' Hy' Fx' Fy') as [Ho' Hn'].
    split; [|split; assumption]. rewrite Ho, Ho'. apply srnd_mono; lia.
  - destruct (SFadd_ord x y Hx Hy Fx Fy) as [Ho Hn].
    split; [|split; [assumption|discriminate]].
    pose proof (ord_finite_range x Hx Fx) as Rx.
    rewrite Ho. pose proof (srnd_range (ord emx e0 x + ord emx e0 y) 1 ltac:(lia)).
    destruct s'; cbn [ord cond_Zopp] in *; lia.
  - destruct (SFadd_ord x' y' Hx' Hy' Fx' Fy') as [Ho' Hn'].
    split; [|split; [discriminate|assumption]].
    pose proof (ord_finite_range x' Hx' Fx') as Rx'.
    rewrite Ho'. pose proof (srnd_range (ord emx e0 x' + ord emx e0 y') 1 ltac:(lia)).
    destruct s; cbn [ord cond_Zopp] in *; lia.
  - split; [|split; discriminate].
    destruct s, s'; cbn [ord cond_Zopp] in *; lia.
Qed.

(** ** Division *)

Lemma new_location_loc (a d : Z) :
  0 < d -> new_location d (a mod d) = loc a d.
Proof.
  intros Hd. unfold new_location, new_location_even, new_location_odd, loc.
  pose proof (Z.mod_pos_bound a d Hd) as Hr.
  set (r := a mod d) in *.
  destruct (Z.even d) eqn:Hev; [reflexivity|].
  destruct (Z.eqb_spec r 0) as [H0|H0]; [reflexivity|].
  assert (Hodd : Z.odd d = true) by (rewrite <- Z.negb_even, Hev; reflexivity).
  apply Z.odd_spec in Hodd. destruct Hodd as [b Hb].
  f_equal.
  destruct (Z.compare_spec (2 * r + 1) d); destruct (Z.compare_spec (2 * r) d);
    try reflexivity; lia.
Qed.

Lemma SFdiv_core_spec (mx my : positive) (ex ey : Z) (sx sy : bool) :
  SpecFloat.valid_binary prc emx (S754_finite sx mx ex) = true ->
  SpecFloat.valid_binary prc emx (S754_finite sy my ey) = true ->
  exists s e',
    0 <= s /\ s + e' = ex - ey /\ e0 <= e' /\
    SFdiv_core_binary prc emx (Zpos mx) ex (Zpos my) ey
      = (Zpos mx * 2 ^ s / Zpos my, e', loc (Zpos mx * 2 ^ s) (Zpos my)) /\
    e' <= fxp (Zdigits2 (Zpos mx * 2 ^ s / Zpos my) + e').
Proof.
  intros Hx Hy.
  destruct (valid_finite sx mx ex Hx) as (Hex & Hdx & _).
  destruct (valid_finite sy my ey Hy) as (Hey & Hdy & _).
  unfold SFdiv_core_binary.
  set (d1 := Zdigits2 (Zpos mx)) in *. set (d2 := Zdigits2 (Zpos my)) in *.
  set (e' := Z.min (fxp (d1 + ex - (d2 + ey))) (ex - ey)).
  set (s := ex - ey - e').
  assert (Hs : 0 <= s) by (unfold s, e'; lia).
  exists s, e'. split; [exact Hs|]. split; [unfold s; lia|].
  assert (He' : e0 <= e').
  { unfold e'. pose proof (fxp_ge (d1 + ex - (d2 + ey))). lia. }
  split; [exact He'|].
  assert (Hm' : match s with
                | 0 => Zpos mx
                | Zpos _ => Z.shiftl (Zpos mx) s
                | Zneg _ => 0
                end = Zpos mx * 2 ^ s).
  { destruct s as [|p|p] eqn:Hsp; [rewrite Z.mul_1_r; reflexivity| |lia].
    apply Z.shiftl_mul_pow2. lia. }
  rewrite Hm'.
  pose proof (pow2_pos s Hs) as Hps.
  split.
  - unfold Z.div, Z.modulo, loc.
    pose proof (new_location_loc (Zpos mx * 2 ^ s) (Zpos my) ltac:(lia)) as Hl.
    unfold Z.modulo, loc in Hl.
    destruct (Z.div_eucl (Zpos mx * 2 ^ s) (Zpos my)) as [q r].
    rewrite Hl. reflexivity.
  - destruct (Z.le_gt_cases e' emn) as [Hle|Hgt].
    { pose proof (fxp_ge (Zdigits2 (Zpos mx * 2 ^ s / Zpos my) + e')). lia. }
    assert (HD : e' <= d1 + ex - (d2 + ey) - prc).
    { unfold e' in *. destruct (fxp_eq (d1 + ex - (d2 + ey))); lia. }
    assert (Hmx : 2 ^ (d1 - 1) <= Zpos mx) by (apply Zdigits2_lower; lia).
    assert (Hmy : Zpos my < 2 ^ d2) by (apply Zdigits2_upper; lia).
    assert (Hd1 : 0 < d1) by (apply Zdigits2_pos; lia).
    assert (Hd2 : 0 < d2) by (apply Zdigits2_pos; lia).
    assert (Hq : 2 ^ (prc - 1) <= Zpos mx * 2 ^ s / Zpos my).
    { apply Z.div_le_lower_bound; [lia|].
      apply Z.le_trans with (2 ^ d2 * 2 ^ (prc - 1)).
      - pose proof (pow2_pos (prc - 1) ltac:(lia)). nia.
      - rewrite <- pow2_add by lia.
        apply Z.le_trans with (2 ^ (d1 - 1) * 2 ^ s); [|nia].
        rewrite <- pow2_add by lia. apply pow2_le. unfold s. lia. }
    assert (Hdq : prc - 1 < Zdigits2 (Zpos mx * 2 ^ s / Zpos my)).
    { apply Zdigits2_gt; [|lia|exact Hq].
      pose proof (pow2_pos (prc - 1) ltac:(lia)). lia. }
    pose proof (fxp_ge (Zdigits2 (Zpos mx * 2 ^ s / Zpos my) + e')). lia.
Qed.

(** The quotient of a finite float by a positive finite one is the rounding
    of the quotient of their values. *)
Lemma SFdiv_ord (x : spec_float) (my : positive) (ey : Z) :
  SpecFloat.valid_binary prc emx x = true ->
  SpecFloat.valid_binary prc emx (S754_finite false my ey) = true ->
  sf_finite x ->
  ord emx e0 (SFdiv prc emx x (S754_finite false my ey))
    = srnd prc emx e0 (ord emx e0 x * 2 ^ (- e0))
        (ord emx e0 (S754_finite false my ey)) /\
  SFdiv prc emx x (S754_finite false my ey) <> S754_nan.
Proof.
  intros Hx Hy Fx.
  pose proof (valid_finite_range false my ey Hy) as Ry.
  assert (He0n : 0 <= - e0) by (unfold SpecFloat.emin in He0; lia).
  destruct x as [sx|sx| |sx mx ex]; try contradiction.
  - split; [|discriminate]. cbn [SFdiv].
    change (ord emx e0 (S754_zero (xorb sx false))) with 0.
    change (ord emx e0 (S754_zero sx)) with 0. rewrite Z.mul_0_l.
    unfold srnd. change (0 <=? 0) with true. cbv iota.
    symmetry. apply rnd_zero. cbn [ord cond_Zopp]. lia.
  - cbn [SFdiv].
    destruct (SFdiv_core_spec mx my ex ey sx false Hx Hy)
      as (s & e' & Hs & Hse & He' & Hcore & Hpre).
    rewrite Hcore.
    pose proof (pow2_pos s Hs) as Hps.
    destruct (bra_rnd (xorb sx false) (Zpos mx * 2 ^ s) (Zpos my) e'
                ltac:(lia) ltac:(lia) He' Hpre) as (Hord & Hsign & _ & Hnan).
    split; [|exact Hnan].
    destruct (valid_finite sx mx ex Hx) as (Hex & _).
    destruct (valid_finite false my ey Hy) as (Hey & _).
    assert (Hmag : rnd prc emx e0 (Zpos mx * 2 ^ s * 2 ^ (e' - e0)) (Zpos my)
                   = rnd prc emx e0 (Zpos mx * 2 ^ (ex - e0) * 2 ^ (- e0))
                       (Zpos my * 2 ^ (ey - e0))).
    { pose proof (pow2_pos (e' - e0) ltac:(lia)).
      pose proof (pow2_pos (ex - e0) ltac:(lia)).
      pose proof (pow2_pos (ey - e0) ltac:(lia)).
      pose proof (pow2_pos (- e0) ltac:(lia)).
      apply rnd_ext; try nia.
      rewrite <- !Z.mul_assoc. f_equal.
      rewrite (Z.mul_comm (Zpos my)), !Z.mul_assoc. f_equal.
      rewrite <- !pow2_add by lia. f_equal. lia. }
    rewrite Hsign, Bool.xorb_false_r. cbn [ord cond_Zopp].
    pose proof (pow2_pos (ex - e0) ltac:(lia)).
    pose proof (pow2_pos (- e0) ltac:(lia)).
    destruct sx; cbn [cond_Zopp]; [rewrite ord_opp|]; rewrite Hord, Hmag.
    + transitivity (srnd prc emx e0
                      (cond_Zopp true (Zpos mx * 2 ^ (ex - e0) * 2 ^ (- e0)))
                      (Zpos my * 2 ^ (ey - e0))).
      * apply (srnd_cond true); nia.
      * f_equal. cbn [cond_Zopp]. ring.
    + apply (srnd_cond false); nia.
Qed.

Lemma SFdiv_mono (x x' : spec_float) (my : positive) (ey : Z) :
  SpecFloat.valid_binary prc emx x = true ->
  SpecFloat.valid_binary prc emx x' = true ->
  SpecFloat.valid_binary prc emx (S754_finite false my ey) = true ->
  x <> S754_nan -> x' <> S754_nan ->
  ord emx e0 x <= ord emx e0 x' ->
  ord emx e0 (SFdiv prc emx x (S754_finite false my ey))
    <= ord emx e0 (SFdiv prc emx x' (S754_finite false my ey)) /\
  SFdiv prc emx x (S754_finite false my ey) <> S754_nan /\
  SFdiv prc emx x' (S754_finite false my ey) <> S754_nan.
Proof.
  intros Hx Hx' Hy Nx Nx' Lx.
  pose proof top_pos as Htop.
  pose proof (valid_finite_range false my ey Hy) as Ry.
  assert (He0n : 0 <= - e0) by (unfold SpecFloat.emin in He0; lia).
  pose proof (pow2_pos (- e0) He0n) as Hp.
  assert (Hinf : forall s, SFdiv prc emx (S754_infinity s) (S754_finite false my ey)
                           = S754_infinity s).
  { intros []; reflexivity. }
  destruct (finite_or_infinite x Nx) as [Fx|[s ->]];
    destruct (finite_or_infinite x' Nx') as [Fx'|[s' ->]];
    rewrite ?Hinf.
  - destruct (SFdiv_ord x my ey Hx Hy Fx) as [Ho Hn].
    destruct (SFdiv_ord x' my ey Hx' Hy Fx') as [Ho' Hn'].
    split; [|split; assumption]. rewrite Ho, Ho'.
    cbn [ord cond_Zopp] in *. apply srnd_mono; try lia.
    apply Z.mul_le_mono_nonneg_r; [lia|].
    apply Z.mul_le_mono_nonneg_r; lia.
  - destruct (SFdiv_ord x my ey Hx Hy Fx) as [Ho Hn].
    split; [|split; [assumption|discriminate]].
    pose proof (ord_finite_range x Hx Fx) as Rx.
    rewrite Ho.
    pose proof (srnd_range (ord emx e0 x * 2 ^ (- e0))
                  (ord emx e0 (S754_finite false my ey))
                  ltac:(cbn [ord cond_Zopp]; lia)).
    destruct s'; cbn [ord cond_Zopp] in *; lia.
  - destruct (SFdiv_ord x' my ey Hx' Hy Fx') as [Ho' Hn'].
    split; [|split; [discriminate|assumption]].
    pose proof (ord_finite_range x' Hx' Fx') as Rx'.
    rewrite Ho'.
    pose proof (srnd_range (ord emx e0 x' * 2 ^ (- e0))
                  (ord emx e0 (S754_finite false my ey))
                  ltac:(cbn [ord cond_Zopp]; lia)).
    destruct s; cbn [ord cond_Zopp] in *; lia.
  - split; [|split; discriminate].
    destruct s, s'; cbn [ord cond_Zopp] in *; lia.
Qed.

End Format.

(** ** binary64 *)

Lemma prec_pos : 0 < prec.
Proof. reflexivity. Qed.

Lemma prec_lt_emax : prec < emax.
Proof. reflexivity. Qed.

Lemma scale64_low : scale64 <= SpecFloat.emin prec emax - emax.
Proof. discriminate. Qed.

Lemma Prim2SF_infinity : Prim2SF infinity = S754_infinity false.
Proof. reflexivity. Qed.

Lemma is_finite_spec (x : float) : is_finite x = true -> sf_finite (Prim2SF x).
Proof.
  unfold is_finite, is_nan, is_infinity.
  rewrite !eqb_spec, abs_spec, Prim2SF_infinity.
  destruct (Prim2SF x) as [s|s| |s m e]; try destruct s; cbn;
    try discriminate; auto.
Qed.

Lemma finite_not_nan (x : float) : sf_finite (Prim2SF x) -> not_nan x.
Proof. unfold not_nan. destruct (Prim2SF x); cbn; congruence. Qed.

Lemma leb_ordf (x y : float) :
  not_nan x -> not_nan y -> (x <=? y)%float = (ordf x <=? ordf y).
Proof.
  intros Hx Hy. rewrite leb_spec.
  apply (SFleb_ord prec emax prec_pos prec_lt_emax scale64 scale64_low);
    auto using Prim2SF_valid.
Qed.

Lemma ltb_ordf (x y : float) :
  not_nan x -> not_nan y -> (x <? y)%float = (ordf x <? ordf y).
Proof.
  intros Hx Hy. rewrite ltb_spec.
  apply (SFltb_ord prec emax prec_pos prec_lt_emax scale64 scale64_low);
    auto using Prim2SF_valid.
Qed.

Lemma not_nan_is_nan (x : float) : not_nan x -> is_nan x = false.
Proof.
  intros Nx. unfold is_nan. rewrite eqb_spec. unfold SFeqb.
  rewrite (SFcompare_ord prec emax prec_pos prec_lt_emax scale64 scale64_low
             _ _ (Prim2SF_valid x) (Prim2SF_valid x) Nx Nx).
  rewrite Z.compare_refl. reflexivity.
Qed.

Lemma add_mono (x x' y y' : float) :
  not_nan x -> not_nan x' ->
  sf_finite (Prim2SF y) -> sf_finite (Prim2SF y') ->
  ordf x <= ordf x' -> ordf y <= ordf y' ->
  ordf (x + y) <= ordf (x' + y') /\ not_nan (x + y) /\ not_nan (x' + y').
Proof.
  intros Nx Nx' Fy Fy' Lx Ly. unfold ordf, not_nan. rewrite !add_spec.
  apply (SFadd_mono prec emax prec_pos prec_lt_emax scale64 scale64_low);
    auto using Prim2SF_valid.
Qed.

(** Summing, left to right, is monotone in every sample. *)
Lemma fold_add_mono (l l' : list float) :
  Forall2 (fun y y' => sf_finite (Prim2SF y) /\ sf_finite (Prim2SF y')
                       /\ ordf y <= ordf y') l l' ->
  forall acc acc',
    not_nan acc -> not_nan acc' -> ordf acc <= ordf acc' ->
    ordf (fold_left PrimFloat.add l acc) <= ordf (fold_left PrimFloat.add l' acc') /\
    not_nan (fold_left PrimFloat.add l acc) /\
    not_nan (fold_left PrimFloat.add l' acc').
Proof.
  induction 1 as [|y y' l l' (Fy & Fy' & Ly) _ IH]; intros acc acc' Na Na' La.
  - cbn. auto.
  - cbn [fold_left].
    destruct (add_mono acc acc' y y' Na Na' Fy Fy' La Ly) as (L1 & N1 & N1').
    apply IH; assumption.
Qed.

(** The length of a list of fewer than [2^53] items converts exactly. *)
Lemma num_of_len_spec (n : nat) :
  0 < Z.of_nat n < 2 ^ 53 ->
  exists m e,
    Prim2SF (num_of_len n) = S754_finite false m e /\
    ordf (num_of_len n) = Z.of_nat n * 2 ^ 2098.
Proof.
  intros Hn. unfold ordf. cbn [num_of_len binary64]. unfold Py.Z2SF.
  destruct (binary_normalize_ord prec emax prec_pos prec_lt_emax scale64 scale64_low
              (Z.of_nat n) 0 ltac:(discriminate)) as (Ho & Hv & Hnan).
  rewrite (Prim2SF_SF2Prim _ Hv).
  change (0 - scale64) with 2098 in Ho.
  assert (Hval : ord emax scale64 (binary_normalize prec emax (Z.of_nat n) 0 false)
                 = Z.of_nat n * 2 ^ 2098).
  { rewrite Ho. unfold srnd.
    pose proof (pow2_pos 2098 ltac:(lia)) as Hp.
    destruct (Z.leb_spec 0 (Z.of_nat n * 2 ^ 2098)) as [_|Hneg]; [|nia].
    apply (rnd_idem prec emax prec_pos prec_lt_emax scale64 scale64_low).
    - change (2 ^ prec) with (2 ^ 53). lia.
    - discriminate.
    - unfold top. change (emax - scale64) with (53 + (971 + 2098)).
      rewrite (pow2_add 53), (pow2_add 971) by lia.
      pose proof (pow2_pos 971 ltac:(lia)). nia. }
  pose proof (pow2_pos 2098 ltac:(lia)) as Hp.
  destruct (binary_normalize prec emax (Z.of_nat n) 0 false) as [s|s| |s m e];
    try contradiction.
  - cbn [ord] in Hval. nia.
  - pose proof (top_pos prec emax prec_pos prec_lt_emax scale64 scale64_low) as Ht.
    exfalso. destruct s; cbn [ord cond_Zopp] in Hval; [nia|].
    assert (top emax scale64 = 2 ^ 53 * (2 ^ 971 * 2 ^ 2098)).
    { unfold top. change (emax - scale64) with (53 + (971 + 2098)).
      rewrite (pow2_add 53), (pow2_add 971) by lia. reflexivity. }
    pose proof (pow2_pos 971 ltac:(lia)). nia.
  - destruct s.
    + exfalso. cbn [ord cond_Zopp] in Hval.
      pose proof (pow2_pos (e - scale64)).
      assert (0 < Zpos m * 2 ^ (e - scale64)); [|nia].
      apply (valid_finite_range prec emax prec_pos prec_lt_emax scale64 scale64_low
               true m e Hv).
    + exists m, e. split; [reflexivity|exact Hval].
Qed.

Lemma div_mono (x x' : float) (n : nat) :
  0 < Z.of_nat n < 2 ^ 53 ->
  not_nan x -> not_nan x' -> ordf x <= ordf x' ->
  ordf (x / num_of_len n) <= ordf (x' / num_of_len n) /\
  not_nan (x / num_of_len n) /\ not_nan (x' / num_of_len n).
Proof.
  intros Hn Nx Nx' Lx. destruct (num_of_len_spec n Hn) as (m & e & Hshape & _).
  unfold ordf, not_nan. rewrite !div_spec, Hshape.
  apply (SFdiv_mono prec emax prec_pos prec_lt_emax scale64 scale64_low);
    auto using Prim2SF_valid.
  rewrite <- Hshape. apply Prim2SF_valid.
Qed.

(** ** The extremes *)

Lemma py_min_spec (rest : list float) : forall first,
  not_nan first -> Forall not_nan rest ->
  In (py_min first rest) (first :: rest) /\
  forall y, In y (first :: rest) -> ordf (py_min first rest) <= ordf y.
Proof.
  induction rest as [|a rest IH]; intros first Nf Nr.
  - cbn. split; [auto|]. intros y [<-|[]]. lia.
  - inversion Nr as [|? ? Na Nr']; subst.
    change (py_min first (a :: rest))
      with (py_min (if (a <? first)%float then a else first) rest).
    rewrite (ltb_ordf a first Na Nf).
    destruct (Z.ltb_spec (ordf a) (ordf first)) as [Hlt|Hge].
    + destruct (IH a Na Nr') as [Hin Hall].
      split.
      * destruct Hin as [<-|Hin]; [right; left; reflexivity|right; right; exact Hin].
      * intros y [<-|[<-|Hy]].
        -- pose proof (Hall a (or_introl eq_refl)). lia.
        -- apply Hall. left. reflexivity.
        -- apply Hall. right. exact Hy.
    + destruct (IH first Nf Nr') as [Hin Hall].
      split.
      * destruct Hin as [<-|Hin]; [left; reflexivity|right; right; exact Hin].
      * intros y [<-|[<-|Hy]].
        -- apply Hall. left. reflexivity.
        -- pose proof (Hall first (or_introl eq_refl)). lia.
        -- apply Hall. right. exact Hy.
Qed.

Lemma py_max_spec (rest : list float) : forall first,
  not_nan first -> Forall not_nan rest ->
  In (py_max first rest) (first :: rest) /\
  forall y, In y (first :: rest) -> ordf y <= ordf (py_max first rest).
Proof.
  induction rest as [|a rest IH]; intros first Nf Nr.
  - cbn. split; [auto|]. intros y [<-|[]]. lia.
  - inversion Nr as [|? ? Na Nr']; subst.
    change (py_max first (a :: rest))
      with (py_max (if (first <? a)%float then a else first) rest).
    rewrite (ltb_ordf first a Nf Na).
    destruct (Z.ltb_spec (ordf first) (ordf a)) as [Hlt|Hge].
    + destruct (IH a Na Nr') as [Hin Hall].
      split.
      * destruct Hin as [<-|Hin]; [right; left; reflexivity|right; right; exact Hin].
      * intros y [<-|[<-|Hy]].
        -- pose proof (Hall a (or_introl eq_refl)). lia.
        -- apply Hall. left. reflexivity.
        -- apply Hall. right. exact Hy.
    + destruct (IH first Nf Nr') as [Hin Hall].
      split.
      * destruct Hin as [<-|Hin]; [left; reflexivity|right; right; exact Hin].
      * intros y [<-|[<-|Hy]].
        -- apply Hall. left. reflexivity.
        -- pose proof (Hall first (or_introl eq_refl)). lia.
        -- apply Hall. right. exact Hy.
Qed.

(** ** Exact sums *)

Lemma in_units_ordf (x : float) (u : Z) :
  in_units x = Some u -> ordf x = u * 2 ^ 1024 /\ sf_finite (Prim2SF x).
Proof.
  unfold in_units, ordf. pose proof (Prim2SF_valid x) as Hv.
  destruct (Prim2SF x) as [s|s| |s m e]; try discriminate; intros Hu.
  - assert (u = 0) by congruence. subst u. split; [reflexivity|exact I].
  - assert (u = cond_Zopp s (Zpos m * 2 ^ (e + 1074))) by congruence. subst u.
    clear Hu. split; [|exact I].
    destruct (valid_finite prec emax s m e Hv) as (He & _).
    change (SpecFloat.emin prec emax) with (-1074) in He.
    cbn [ord]. replace (e - scale64) with ((e + 1074) + 1024) by (unfold scale64; lia).
    rewrite pow2_add by lia. destruct s; cbn [cond_Zopp]; ring.
Qed.

Lemma finite_in_units (x : float) :
  sf_finite (Prim2SF x) -> exists u, in_units x = Some u.
Proof.
  unfold in_units. destruct (Prim2SF x); cbn; try contradiction; eauto.
Qed.

Lemma sum_in_units_bounds (lo hi : Z) (l : list float) :
  Forall (fun x => sf_finite (Prim2SF x)) l ->
  (forall x, In x l -> lo <= ordf x <= hi) ->
  exists total,
    sum_in_units l = Some total /\
    Z.of_nat (List.length l) * lo <= total * 2 ^ 1024
      <= Z.of_nat (List.length l) * hi.
Proof.
  induction 1 as [|x l Fx _ IH]; intros Hb.
  - exists 0. cbn. split; [reflexivity|lia].
  - destruct IH as (t & Ht & Hbt); [intros y Hy; apply Hb; now right|].
    destruct (finite_in_units x Fx) as [u Hu].
    destruct (in_units_ordf x u Hu) as [Hux _].
    pose proof (Hb x (or_introl eq_refl)) as Hbx.
    exists (u + t). cbn [sum_in_units]. rewrite Hu, Ht. split; [reflexivity|].
    cbn [List.length]. rewrite Nat2Z.inj_succ. lia.
Qed.

(** The quotient by the length, when the dividend is finite. *)
Lemma div_len_ordf (x : float) (n : nat) :
  0 < Z.of_nat n < 2 ^ 53 -> sf_finite (Prim2SF x) ->
  ordf (x / num_of_len n)
    = srnd prec emax scale64 (ordf x) (Z.of_nat n) /\
  not_nan (x / num_of_len n).
Proof.
  intros Hn Fx. destruct (num_of_len_spec n Hn) as (m & e & Hshape & Hval).
  unfold ordf, not_nan in *. rewrite div_spec, Hshape. unfold SF64div.
  assert (Hv : SpecFloat.valid_binary prec emax (S754_finite false m e) = true).
  { rewrite <- Hshape. apply Prim2SF_valid. }
  destruct (SFdiv_ord prec emax prec_pos prec_lt_emax scale64 scale64_low
              (Prim2SF x) m e (Prim2SF_valid x) Hv Fx) as [Ho Hnan].
  split; [|exact Hnan].
  rewrite Ho. rewrite Hshape in Hval. rewrite Hval.
  change (- scale64) with 2098.
  pose proof (pow2_pos 2098 ltac:(lia)) as Hp.
  apply (srnd_ext prec emax prec_pos prec_lt_emax scale64 scale64_low); nia.
Qed.

Lemma finite_ordf_idem (x : float) :
  sf_finite (Prim2SF x) -> srnd prec emax scale64 (ordf x) 1 = ordf x.
Proof.
  intros Fx.
  apply (ord_finite_idem prec emax prec_pos prec_lt_emax scale64 scale64_low);
    [apply Prim2SF_valid|exact Fx].
Qed.

Lemma Forall2_repeat_r {A : Type} (P : A -> A -> Prop) (l : list A) (b : A) :
  (forall x, In x l -> P x b) -> Forall2 P l (repeat b (List.length l)).
Proof.
  induction l as [|a l IH]; intros H; cbn; constructor.
  - apply H. now left.
  - apply IH. intros x Hx. apply H. now right.
Qed.

Lemma Forall2_repeat_l {A : Type} (P : A -> A -> Prop) (l : list A) (b : A) :
  (forall x, In x l -> P b x) -> Forall2 P (repeat b (List.length l)) l.
Proof.
  induction l as [|a l IH]; intros H; cbn; constructor.
  - apply H. now left.
  - apply IH. intros x Hx. apply H. now right.
Qed.

Lemma avg_of_cons (x : float) (rest : list float) :
  avg_of (x :: rest)
  = (fold_left PrimFloat.add (x :: rest) 0 / num_of_len (S (List.length rest)))%float.
Proof. reflexivity. Qed.

(** C5, as amended.  For a non-empty list of fewer than [2^53] finite
    samples, the minimum and the maximum the cycle computes are samples
    that bound every sample, and the binary64 average it computes is not a
    NaN and lies between what the same computation gives for as many copies
    of the minimum and for as many copies of the maximum: only the rounding
    that summing equal samples suffers can take it out of the interval.
    Whenever the sum of the samples was computed without rounding error,
    the average lies between the minimum and the maximum themselves,
    however the division rounds. *)
Theorem binary64_average_between_min_and_max (l : list float) :
  l <> [] ->
  Forall (fun x => is_finite x = true) l ->
  Z.of_nat (List.length l) < 2 ^ 53 ->
  let n := List.length l in
  (In (min_of l) l /\ In (max_of l) l /\
   forall x, In x l ->
     (min_of l <=? x)%float = true /\ (x <=? max_of l)%float = true) /\
  (is_nan (avg_of l) = false /\
   (avg_of (repeat (min_of l) n) <=? avg_of l)%float = true /\
   (avg_of l <=? avg_of (repeat (max_of l) n))%float = true) /\
  (in_units (py_sum l) = sum_in_units l ->
   (min_of l <=? avg_of l)%float = true /\
   (avg_of l <=? max_of l)%float = true).
Proof.
  destruct l as [|x rest]; [congruence|]. intros _ Hfin Hlen n.
  assert (Fall : Forall (fun y => sf_finite (Prim2SF y)) (x :: rest)).
  { eapply Forall_impl; [|exact Hfin]. intros y. apply is_finite_spec. }
  assert (Nall : Forall not_nan (x :: rest)).
  { eapply Forall_impl; [|exact Fall]. intros y. apply finite_not_nan. }
  assert (Fin : forall y, In y (x :: rest) -> sf_finite (Prim2SF y)).
  { apply Forall_forall. exact Fall. }
  inversion Nall as [|? ? Nx Nrest]; subst.
  destruct (py_min_spec rest x Nx Nrest) as [Hmin_in Hmin].
  destruct (py_max_spec rest x Nx Nrest) as [Hmax_in Hmax].
  change (min_of (x :: rest)) with (py_min x rest).
  change (max_of (x :: rest)) with (py_max x rest).
  set (mn := py_min x rest) in *. set (mx := py_max x rest) in *.
  assert (Fmn : sf_finite (Prim2SF mn)) by (apply Fin; exact Hmin_in).
  assert (Fmx : sf_finite (Prim2SF mx)) by (apply Fin; exact Hmax_in).
  assert (Hn : 0 < Z.of_nat (S (List.length rest)) < 2 ^ 53).
  { cbn [List.length] in Hlen. lia. }
  assert (N0 : not_nan 0%float) by (unfold not_nan; rewrite Prim2SF_zero; discriminate).
  split; [|split].
  - split; [exact Hmin_in|]. split; [exact Hmax_in|].
    intros y Hy. pose proof (finite_not_nan y (Fin y Hy)) as Ny.
    rewrite (leb_ordf mn y (finite_not_nan mn Fmn) Ny).
    rewrite (leb_ordf y mx Ny (finite_not_nan mx Fmx)).
    split; apply Z.leb_le; [apply Hmin|apply Hmax]; exact Hy.
  - unfold n. cbn [List.length repeat]. rewrite !avg_of_cons, !repeat_length.
    change (mn :: repeat mn (List.length rest))
      with (repeat mn (List.length (x :: rest))).
    change (mx :: repeat mx (List.length rest))
      with (repeat mx (List.length (x :: rest))).
    destruct (fold_add_mono (repeat mn (List.length (x :: rest))) (x :: rest))
      with (acc := 0%float) (acc' := 0%float) as (Llo & Nlo & Nsum);
      [apply Forall2_repeat_l; intros y Hy; auto|exact N0|exact N0|lia|].
    destruct (fold_add_mono (x :: rest) (repeat mx (List.length (x :: rest))))
      with (acc := 0%float) (acc' := 0%float) as (Lhi & _ & Nhi);
      [apply Forall2_repeat_r; intros y Hy; auto|exact N0|exact N0|lia|].
    destruct (div_mono _ _ (S (List.length rest)) Hn Nlo Nsum Llo) as (D1 & M1 & M2).
    destruct (div_mono _ _ (S (List.length rest)) Hn Nsum Nhi Lhi) as (D2 & _ & M3).
    rewrite (leb_ordf _ _ M1 M2), (leb_ordf _ _ M2 M3).
    split; [apply not_nan_is_nan; exact M2|].
    split; apply Z.leb_le; assumption.
  - intros Hexact. rewrite avg_of_cons.
    destruct (sum_in_units_bounds (ordf mn) (ordf mx) (x :: rest) Fall)
      as (total & Htotal & Hbounds).
    { intros y Hy. split; [apply Hmin|apply Hmax]; exact Hy. }
    unfold py_sum in Hexact. cbn [num_add num_zero binary64] in Hexact.
    rewrite Htotal in Hexact.
    destruct (in_units_ordf _ _ Hexact) as [Hsum Fsum].
    destruct (div_len_ordf _ (S (List.length rest)) Hn Fsum) as [Havg Navg].
    rewrite (leb_ordf _ _ (finite_not_nan mn Fmn) Navg).
    rewrite (leb_ordf _ _ Navg (finite_not_nan mx Fmx)).
    rewrite Havg, Hsum. cbn [List.length] in Hbounds.
    split; apply Z.leb_le.
    + rewrite <- (finite_ordf_idem mn Fmn).
      apply (srnd_mono prec emax prec_pos prec_lt_emax scale64 scale64_low); lia.
    + rewrite <- (finite_ordf_idem mx Fmx).
      apply (srnd_mono prec emax prec_pos prec_lt_emax scale64 scale64_low); lia.
Qed.

(** 1.0, 2.0 and 4.0 sum to 7.0 without rounding; a third of that is
    rounded, and stays between 1.0 and 4.0. *)
Lemma binary64_average_between_min_and_max_witness :
  in_units (py_sum one_two_four) = sum_in_units one_two_four /\
  avg_of one_two_four = 0x1.2aaaaaaaaaaabp+1%float /\
  (1 <=? avg_of one_two_four)%float = true /\
  (avg_of one_two_four <=? 4)%float = true.
Proof.
  assert (Hsum : in_units (py_sum one_two_four) = sum_in_units one_two_four).
  { vm_compute. reflexivity. }
  destruct (binary64_average_between_min_and_max one_two_four)
    as (_ & _ & Hexact).
  - discriminate.
  - repeat constructor.
  - reflexivity.
  - destruct (Hexact Hsum) as [Hlo Hhi].
    split; [exact Hsum|]. split; [reflexivity|]. split; [exact Hlo|exact Hhi].
Defined.

(** What the hypotheses keep out: a sum that overflows gives an infinite
    average, above the maximum, and a NaN among the samples gives a NaN,
    which compares with nothing. *)
Example average_of_huge_or_nan_samples :
  avg_of [0x1.1ccf385ebc8ap+1023; 0x1.1ccf385ebc8ap+1023]%float = infinity /\
  (avg_of [0x1.1ccf385ebc8ap+1023; 0x1.1ccf385ebc8ap+1023]
     <=? max_of [0x1.1ccf385ebc8ap+1023; 0x1.1ccf385ebc8ap+1023])%float = false /\
  is_nan (avg_of [1%float; nan]) = true /\
  (min_of [1%float; nan] <=? avg_of [1%float; nan])%float = false.
Proof. repeat split; reflexivity. Qed.

(** In binary64 the claim fails: three samples of 0.1 sum to
    0.30000000000000004, and a third of that is 0.10000000000000002, above
    the maximum 0.1.  The compensated sum of CPython 3.12 gives the same. *)
Lemma binary64_average_above_max :
  avg_of [f0_1; f0_1; f0_1] = 0x1.999999999999bp-4%float /\
  max_of [f0_1; f0_1; f0_1] = f0_1 /\
  (avg_of [f0_1; f0_1; f0_1] <=? max_of [f0_1; f0_1; f0_1])%float = false /\
  (py_sum_compensated [f0_1; f0_1; f0_1] / num_of_len 3 <=? f0_1)%float = false /\
  ~ (forall l : list float, l <> [] ->
       (min_of l <=? avg_of l)%float = true /\
       (avg_of l <=? max_of l)%float = true).
Proof.
  split; [reflexivity|]. split; [reflexivity|]. split; [reflexivity|].
  split; [reflexivity|].
  intros Hall.
  destruct (Hall [f0_1; f0_1; f0_1]) as [_ Hle]; [discriminate|].
  vm_compute in Hle. discriminate.
Qed.

(* ================================================================== *)
(** * The settle wait *)

(** ** Signs through rounding, conversion and division *)

Lemma binary_round_aux_signed sx mx ex lx :
  sf_signed sx (binary_round_aux prec emax sx mx ex lx).
Proof.
  unfold binary_round_aux.
  destruct (shr_fexp prec emax mx ex lx) as [mrs' e'].
  destruct (shr_fexp prec emax _ e' loc_Exact) as [mrs'' e''].
  destruct (shr_m mrs''); cbn; auto.
  destruct (Z.leb _ _); cbn; auto.
Qed.

Lemma binary_round_signed sx mx ex :
  sf_signed sx (binary_round prec emax sx mx ex).
Proof.
  unfold binary_round. destruct (shl_align _ _ _) as [mz ez].
  apply binary_round_aux_signed.
Qed.

Lemma Z2SF_signed_nonpos (z : Z) : z <= 0 -> sf_signed true (Py.Z2SF z).
Proof.
  intros Hz. unfold Py.Z2SF, binary_normalize. destruct z; cbn; auto.
  - lia.
  - apply binary_round_signed.
Qed.

Lemma SFldexp_signed b x e :
  sf_signed b x -> sf_signed b (SFldexp prec emax x e).
Proof.
  destruct x; cbn; auto. intros ->. apply binary_round_signed.
Qed.

Lemma SFopp_signed b x : sf_signed b x -> sf_signed (negb b) (SFopp x).
Proof. destruct x; cbn; auto; intros ->; reflexivity. Qed.

Lemma of_uint63_signed n : sf_signed false (Prim2SF (of_uint63 n)).
Proof.
  rewrite of_uint63_spec. unfold binary_normalize.
  pose proof (Uint63.to_Z_bounded n) as Hb.
  destruct (Uint63.to_Z n) eqn:Hn; cbn; auto.
  - apply binary_round_signed.
  - lia.
Qed.

Lemma SF2Prim_signed b x :
  sf_signed b x -> sf_signed b (Prim2SF (SF2Prim x)).
Proof.
  destruct x as [sg|sg| |sg m e]; cbn [SF2Prim sf_signed].
  - intros _. destruct sg; cbn; exact I.
  - intros <-. destruct sg; reflexivity.
  - intros _. exact I.
  - intros <-.
    assert (Hf : sf_signed false
                   (Prim2SF (Z.ldexp (of_uint63 (Uint63.of_Z (Zpos m))) e))).
    { unfold Z.ldexp. rewrite ldshiftexp_spec.
      apply SFldexp_signed, of_uint63_signed. }
    destruct sg; [|exact Hf].
    rewrite opp_spec. apply (SFopp_signed false), Hf.
Qed.

Lemma Prim2SF_1000 : Prim2SF f1000 = S754_finite false 8796093022208000 (-43).
Proof. reflexivity. Qed.

Lemma div_1000_signed b x :
  sf_signed b (Prim2SF x) -> sf_signed b (Prim2SF (x / f1000)).
Proof.
  rewrite div_spec, Prim2SF_1000. unfold SF64div, SFdiv.
  destruct (Prim2SF x) as [sg|sg| |sg m e]; cbn [sf_signed]; auto.
  - intros <-. cbn. destruct sg; reflexivity.
  - intros <-. destruct (SFdiv_core_binary _ _ _ _ _ _) as [[mz ez] lz].
    destruct sg; apply binary_round_aux_signed.
Qed.

Lemma signed_not_above_zero x :
  sf_signed true (Prim2SF x) -> (0 <? x)%float = false.
Proof.
  rewrite ltb_spec, Prim2SF_zero.
  destruct (Prim2SF x) as [sg|sg| |sg m e]; cbn; auto; intros ->; reflexivity.
Qed.

(** ** What [max(0.0, q)] can be *)

Lemma max2_zero_not_negative (q : float) :
  (Py.max2 0 q <? 0)%float = false /\ is_nan (Py.max2 0 q) = false.
Proof.
  unfold Py.max2. destruct (0 <? q)%float eqn:Hq; [|split; reflexivity].
  unfold is_nan. rewrite eqb_spec. revert Hq. rewrite !ltb_spec, Prim2SF_zero.
  destruct (Prim2SF q) as [sg|sg| |sg m e]; cbn; try discriminate;
    destruct sg; cbn; try discriminate; intros _.
  - split; reflexivity.
  - unfold SFeqb, SFcompare. rewrite Z.compare_refl, Pos.compare_cont_refl.
    split; reflexivity.
Qed.

(** ** The wait inside the cycle *)

Lemma settle_and_sample_waits E j fuel s d :
  (Z.to_nat (target_samples j - Z.of_nat (List.length (samples s))) < fuel)%nat ->
  settle_seconds j = Ok d ->
  (d <? 0)%float = false -> is_nan d = false -> Py.sleep_overflows d = false ->
  exists r s' post,
    settle_and_sample fuel E j s = Some (r, s') /\
    trace s' = trace s ++ EvPrint (LogSettling d) :: EvSleep d :: post.
Proof.
  intros Hfuel Hd Hneg Hnan Hfit. unfold settle_and_sample.
  unfold bind at 1, lift. rewrite Hd.
  unfold bind at 1, print, emit. cbn beta iota.
  unfold bind at 1, py_sleep. rewrite Hneg, Hnan, Hfit.
  cbn [read_calls samples self trace time_calls sleep_calls].
  destruct (sleep_at E (sleep_calls s)) as [e|].
  { do 2 eexists. exists []. split; [reflexivity|].
    cbn. rewrite <- app_assoc. reflexivity. }
  unfold bind at 1, py_time. cbn beta iota.
  cbn [read_calls samples self trace time_calls sleep_calls].
  unfold bind at 1.
  destruct (target_dt_of j) as [dt|e].
  2:{ do 2 eexists. exists []. split; [reflexivity|].
      cbn. rewrite <- app_assoc. reflexivity. }
  unfold bind at 1. cbn beta iota.
  match goal with
  | |- context [sampling_loop fuel E j ?t0 dt ?st] =>
      destruct (sampling_loop_spec E j t0 dt fuel st)
        as (r & s' & Hrun & [_ _ (evs & Htr & _)] & _);
      [ cbn; exact Hfuel | ]
  end.
  exists r, s'.
  exists (EvPrint (LogSamplingPlan (burst_seconds j) (target_samples j) dt) :: evs).
  split; [exact Hrun|]. rewrite Htr. cbn. rewrite <- !app_assoc. reflexivity.
Qed.

Lemma acquire_and_sample_waits E j fuel s d :
  (Z.to_nat (target_samples j) < fuel)%nat ->
  led_acquire E = None ->
  settle_seconds j = Ok d ->
  (d <? 0)%float = false -> is_nan d = false -> Py.sleep_overflows d = false ->
  exists s' post,
    acquire_and_sample fuel E j s = Some (Ok tt, s') /\
    trace s' = trace s ++
      EvLedAcquire (led_channel j) (led_intensity j) ::
      EvPrint (LogSettling d) :: EvSleep d :: post.
Proof.
  intros Hfuel Hled Hd Hneg Hnan Hfit. unfold acquire_and_sample.
  unfold bind at 1, set_samples.
  unfold try_except, with_context, led_enter, led_leave.
  unfold bind at 1. unfold bind at 1, answer. rewrite Hled.
  unfold ret, emit. cbn beta iota.
  match goal with
  | |- context [settle_and_sample fuel E j ?st] =>
      destruct (settle_and_sample_waits E j fuel st d)
        as (r & s1 & post & Hrun & Htr); auto;
      [ cbn; rewrite Z.sub_0_r; exact Hfuel | rewrite Hrun ]
  end.
  cbn in Htr. unfold bind. cbn beta iota.
  destruct (led_release E) as [e|]; [|destruct r as [[]|e]];
    unfold raise, ret, print, emit; cbn beta iota;
    do 2 eexists; (split; [reflexivity|]); cbn; rewrite Htr;
    rewrite <- !app_assoc; cbn; reflexivity.
Qed.

(** C10, as amended.  When [settle_ms] converts to a float [x], the length
    the cycle computes for the settle wait is [max(0.0, x / 1000.0)]; it is
    never negative and never a NaN, and it is 0.0 for every
    [settle_ms <= 0].  When the LED was acquired and the length is within
    the clock of [sleep], which 0.0 is, the cycle prints it and sleeps for
    it. *)
Theorem settle_wait_is_clamped (E : env) (s : mstate) (x : float) :
  Py.float_of_int (settle_ms (self s)) = Ok x ->
  led_acquire E = None ->
  settle_seconds (self s) = Ok (Py.max2 0 (x / f1000)) /\
  (Py.max2 0 (x / f1000) <? 0)%float = false /\
  is_nan (Py.max2 0 (x / f1000)) = false /\
  (settle_ms (self s) <= 0 -> Py.max2 0 (x / f1000) = 0%float) /\
  (settle_ms (self s) <= 0 \/ Py.sleep_overflows (Py.max2 0 (x / f1000)) = false ->
   exists s' post,
     _burst_cycle E s = Some (Ok tt, s') /\
     trace s' = trace s ++
       [ EvPrint LogBurstStart;
         EvLedAcquire (led_channel (self s)) (led_intensity (self s));
         EvPrint (LogSettling (Py.max2 0 (x / f1000)));
         EvSleep (Py.max2 0 (x / f1000)) ] ++ post).
Proof.
  intros Hx Hled.
  assert (Hd : settle_seconds (self s) = Ok (Py.max2 0 (x / f1000))).
  { unfold settle_seconds, Py.int_truediv. rewrite Hx. reflexivity. }
  destruct (max2_zero_not_negative (x / f1000)) as [Hneg Hnan].
  assert (Hzero : settle_ms (self s) <= 0 -> Py.max2 0 (x / f1000) = 0%float).
  { intros Hz. unfold Py.max2.
    rewrite signed_not_above_zero; [reflexivity|].
    apply div_1000_signed.
    assert (Hxe : x = SF2Prim (Py.Z2SF (settle_ms (self s)))).
    { unfold Py.float_of_int in Hx.
      destruct (Py.Z2SF (settle_ms (self s))); congruence. }
    rewrite Hxe. apply SF2Prim_signed, Z2SF_signed_nonpos, Hz. }
  split; [exact Hd|]. split; [exact Hneg|]. split; [exact Hnan|].
  split; [exact Hzero|].
  intros Hfit.
  assert (Hfit' : Py.sleep_overflows (Py.max2 0 (x / f1000)) = false).
  { destruct Hfit as [Hz|Hfit]; [|exact Hfit]. rewrite (Hzero Hz). reflexivity. }
  destruct (burst_cycle_spec E s) as (s1 & Hacq & [Hself _ _] & _ & Hrun).
  destruct (acquire_and_sample_waits E (self s) (cycle_fuel (self s)) (started s)
              (Py.max2 0 (x / f1000)))
    as (s1' & post & Hacq' & Htr);
    [ unfold cycle_fuel; lia | exact Hled | exact Hd | exact Hneg | exact Hnan
    | exact Hfit' | ].
  rewrite Hacq in Hacq'. injection Hacq' as <-.
  exists (reported E s1), (post ++ report_events E (self s1) (samples s1)).
  split; [exact Hrun|].
  unfold reported. cbn [trace]. rewrite Htr. cbn. rewrite <- !app_assoc.
  reflexivity.
Qed.

Lemma settle_wait_is_clamped_witness :
  settle_seconds demo_job_negative_settle = Ok 0%float /\
  exists s' post,
    _burst_cycle steady_env (initial_state demo_job_negative_settle)
      = Some (Ok tt, s') /\
    trace s' =
      [ EvPrint LogBurstStart; EvLedAcquire "B" 70%float;
        EvPrint (LogSettling 0%float); EvSleep 0%float ] ++ post.
Proof.
  destruct (settle_wait_is_clamped steady_env
              (initial_state demo_job_negative_settle) (-5)%float)
    as (Hd & _ & _ & Hzero & Hrun).
  - reflexivity.
  - reflexivity.
  - assert (H0 : Py.max2 0 (-5 / f1000) = 0%float) by (apply Hzero; cbn; lia).
    rewrite H0 in Hd, Hrun. split; [exact Hd|]. apply Hrun. left. cbn. lia.
Defined.

(** C10 as stated fails where [settle_ms] does not fit a float: for
    [settle_ms = -2^1024] the conversion raises [OverflowError] inside the
    guarded block, the handler prints it, and the cycle neither sleeps nor
    samples. *)
Lemma huge_negative_settle_is_not_clamped :
  settle_ms demo_job_huge_settle < 0 /\
  settle_seconds demo_job_huge_settle
    = Raise (OverflowError "int too large to convert to float") /\
  exists s',
    _burst_cycle steady_env (initial_state demo_job_huge_settle) = Some (Ok tt, s') /\
    samples s' = [] /\
    filter (fun ev => match ev with EvSleep _ => true | _ => false end) (trace s') = [] /\
    In (EvPrint (LogSamplingError (OverflowError "int too large to convert to float")))
       (trace s').
Proof.
  split; [reflexivity|]. split; [vm_compute; reflexivity|].
  eexists. split; [vm_compute; reflexivity|].
  split; [reflexivity|]. split; [reflexivity|].
  vm_compute. repeat (first [left; reflexivity | right]).
Qed.

(** A settle time that converts but exceeds the clock of [sleep] is refused
    by [sleep] itself; the handler absorbs that too. *)
Example overlong_settle_is_refused :
  settle_seconds demo_job_long_settle = Ok 1e10%float /\
  Py.sleep_overflows 1e10%float = true /\
  exists s',
    _burst_cycle steady_env (initial_state demo_job_long_settle) = Some (Ok tt, s') /\
    samples s' = [] /\
    In (EvPrint (LogSamplingError
                   (OverflowError "timestamp too large to convert to C _PyTime_t")))
       (trace s').
Proof.
  split; [reflexivity|]. split; [reflexivity|].
  eexists. split; [vm_compute; reflexivity|]. split; [reflexivity|].
  vm_compute. repeat (first [left; reflexivity | right]).
Qed.

(* ================================================================== *)
(** * Further properties of the burst cycle *)

(** ** What the loop does to the host *)

(** The loop makes [n] reads, never more than the count still missing, at
    most as many waits and at most one more clock call.  Every read but
    possibly the last returned a value; a read is dropped only when it
    raised, and none is when the loop ends without an exception. *)
Lemma sampling_loop_accounts E j t0 dt : forall fuel s r s',
  sampling_loop fuel E j t0 dt s = Some (r, s') ->
  exists n evs,
    read_calls s' = (read_calls s + n)%nat /\
    (sleep_calls s <= sleep_calls s' <= sleep_calls s + n)%nat /\
    (time_calls s + n <= time_calls s' <= time_calls s + n + 1)%nat /\
    (List.length (samples s') <= List.length (samples s) + n
       <= List.length (samples s') + 1)%nat /\
    Z.of_nat (List.length (samples s) + n)
      <= Z.max (Z.of_nat (List.length (samples s))) (target_samples j) /\
    (forall i, (i + 1 < n)%nat -> exists v, read_voltage_at E (read_calls s + i) = Ok v) /\
    (r = Ok tt -> List.length (samples s') = (List.length (samples s) + n)%nat) /\
    trace s' = trace s ++ evs /\
    Forall (fun ev => is_body_event ev = true) evs.
Proof.
  induction fuel as [|fuel IH]; intros s r s'; [discriminate|].
  step_loop s. destruct (keep_sampling _ _ _ _) eqn:Hk.
  - apply andb_prop in Hk. destruct Hk as [_ Hlt]. apply Z.ltb_lt in Hlt.
    step_read. destruct (read_voltage_at E (read_calls s)) as [v|e] eqn:Hread.
    + step_append_sleep dt.
      1,2,3: (unfold raise; intros [= <- <-]; exists 1%nat, [EvReadVoltage];
              cbn; rewrite ?length_app; cbn;
              repeat split; try lia; try discriminate; repeat constructor).
      cbn [read_calls samples self trace time_calls sleep_calls].
      destruct (sleep_at E (sleep_calls s)).
      * intros [= <- <-]. exists 1%nat, [EvReadVoltage; EvSleep dt].
        cbn; rewrite ?length_app, <- ?app_assoc; cbn.
        repeat split; try lia; try discriminate; repeat constructor.
      * intros Hr. apply IH in Hr.
        destruct Hr as (n & evs & Hrd & Hsl & Htm & Hlen & Hcap & Hgood & Hok & Htr & Hev).
        cbn in Hrd, Hsl, Htm, Hlen, Hcap, Hgood, Hok, Htr.
        rewrite length_app in Hlen, Hcap, Hok. cbn in Hlen, Hcap, Hok.
        exists (S n), (EvReadVoltage :: EvSleep dt :: evs).
        rewrite Htr, <- !app_assoc. cbn.
        split; [lia|]. split; [lia|]. split; [lia|]. split; [lia|].
        split; [lia|]. split; [|split].
        -- intros [|i] Hi.
           ++ exists v. rewrite Nat.add_0_r. exact Hread.
           ++ destruct (Hgood i) as [w Hw]; [lia|]. exists w.
              rewrite <- Hw. f_equal. lia.
        -- intros Hrok. specialize (Hok Hrok). lia.
        -- split; [reflexivity|]. repeat constructor. exact Hev.
    + intros [= <- <-]. exists 1%nat, [EvReadVoltage]. cbn.
      split; [lia|]. split; [lia|]. split; [lia|]. split; [lia|].
      split; [lia|]. split; [intros i Hi; lia|].
      split; [discriminate|]. split; [reflexivity|repeat constructor].
  - unfold ret. intros [= <- <-]. exists 0%nat, []. cbn.
    rewrite app_nil_r.
    split; [lia|]. split; [lia|]. split; [lia|]. split; [lia|].
    split; [lia|]. split; [intros i Hi; lia|].
    split; [lia|]. split; [reflexivity|constructor].
Qed.

Ltac account_done :=
  repeat split; try lia; try discriminate; try (intros; lia); try reflexivity;
  repeat constructor.

Lemma settle_and_sample_accounts E j fuel s r s' :
  settle_and_sample fuel E j s = Some (r, s') ->
  exists n evs,
    read_calls s' = (read_calls s + n)%nat /\
    (sleep_calls s <= sleep_calls s' <= sleep_calls s + n + 1)%nat /\
    (time_calls s <= time_calls s' <= time_calls s + n + 2)%nat /\
    (List.length (samples s') <= List.length (samples s) + n
       <= List.length (samples s') + 1)%nat /\
    Z.of_nat (List.length (samples s) + n)
      <= Z.max (Z.of_nat (List.length (samples s))) (target_samples j) /\
    (forall i, (i + 1 < n)%nat -> exists v, read_voltage_at E (read_calls s + i) = Ok v) /\
    (r = Ok tt -> List.length (samples s') = (List.length (samples s) + n)%nat) /\
    trace s' = trace s ++ evs /\
    Forall (fun ev => is_body_event ev = true) evs.
Proof.
  unfold settle_and_sample. unfold bind at 1, lift.
  destruct (settle_seconds j) as [settle_s|e].
  2:{ intros [= <- <-]. exists 0%nat, []. rewrite app_nil_r. account_done. }
  unfold bind at 1, print, emit. cbn beta iota.
  unfold bind at 1, py_sleep.
  destruct (is_nan settle_s);
    [|destruct (Py.sleep_overflows settle_s); [|destruct (settle_s <? 0)%float]].
  1,2,3: (unfold raise; intros [= <- <-];
          exists 0%nat, [EvPrint (LogSettling settle_s)]; cbn; account_done).
  cbn [read_calls samples self trace time_calls sleep_calls].
  destruct (sleep_at E (sleep_calls s)) as [e|].
  { intros [= <- <-].
    exists 0%nat, [EvPrint (LogSettling settle_s); EvSleep settle_s]. cbn.
    rewrite <- app_assoc. account_done. }
  unfold bind at 1, py_time. cbn beta iota.
  cbn [read_calls samples self trace time_calls sleep_calls].
  unfold bind at 1.
  destruct (target_dt_of j) as [dt|e].
  2:{ intros [= <- <-].
      exists 0%nat, [EvPrint (LogSettling settle_s); EvSleep settle_s]. cbn.
      rewrite <- app_assoc. account_done. }
  unfold bind at 1. cbn beta iota.
  intros Hrun. apply sampling_loop_accounts in Hrun.
  destruct Hrun as (n & evs & Hrd & Hsl & Htm & Hlen & Hcap & Hgood & Hok & Htr & Hev).
  cbn in Hrd, Hsl, Htm, Hlen, Hcap, Hgood, Hok, Htr.
  exists n, (EvPrint (LogSettling settle_s) :: EvSleep settle_s ::
             EvPrint (LogSamplingPlan (burst_seconds j) (target_samples j) dt) :: evs).
  rewrite Htr, <- !app_assoc. cbn.
  split; [lia|]. split; [lia|]. split; [lia|]. split; [lia|].
  split; [lia|]. split; [exact Hgood|]. split; [exact Hok|].
  split; [reflexivity|]. repeat constructor. exact Hev.
Qed.

(** The guarded block always ends without an exception.  When the LED
    cannot be acquired it touches nothing else; when it can, the LED is
    given back after the block, whatever happened in it. *)
Lemma acquire_and_sample_accounts E j fuel s r s1 :
  acquire_and_sample fuel E j s = Some (r, s1) ->
  r = Ok tt /\
  match led_acquire E with
  | Some e =>
      read_calls s1 = read_calls s /\ sleep_calls s1 = sleep_calls s /\
      time_calls s1 = time_calls s /\ samples s1 = [] /\
      trace s1 = trace s ++ [EvPrint (LogSamplingError e)]
  | None =>
      exists n mid tail,
        read_calls s1 = (read_calls s + n)%nat /\
        (sleep_calls s <= sleep_calls s1 <= sleep_calls s + n + 1)%nat /\
        (time_calls s <= time_calls s1 <= time_calls s + n + 2)%nat /\
        (List.length (samples s1) <= n <= List.length (samples s1) + 1)%nat /\
        Z.of_nat n <= Z.max 0 (target_samples j) /\
        (forall i, (i + 1 < n)%nat ->
                   exists v, read_voltage_at E (read_calls s + i) = Ok v) /\
        trace s1 = trace s ++
          EvLedAcquire (led_channel j) (led_intensity j) :: mid
          ++ EvLedRelease (led_channel j) :: tail /\
        Forall (fun ev => is_body_event ev = true) mid /\
        (tail = [] \/ exists e, tail = [EvPrint (LogSamplingError e)])
  end.
Proof.
  unfold acquire_and_sample.
  unfold bind at 1, set_samples.
  unfold try_except, with_context, led_enter, led_leave.
  unfold bind at 1. unfold bind at 1, answer.
  destruct (led_acquire E) as [e|].
  { unfold raise, print, emit. intros [= <- <-]. cbn. auto 10. }
  unfold ret, emit. cbn beta iota.
  match goal with
  | |- context [settle_and_sample fuel E j ?st] =>
      destruct (settle_and_sample fuel E j st) as [[r0 s0]|] eqn:Hbody;
      [|discriminate]
  end.
  apply settle_and_sample_accounts in Hbody.
  destruct Hbody as (n & evs & Hrd & Hsl & Htm & Hlen & Hcap & Hgood & _ & Htr & Hev).
  cbn in Hrd, Hsl, Htm, Hlen, Hcap, Hgood, Htr.
  unfold bind. cbn beta iota.
  destruct (led_release E) as [e|]; [|destruct r0 as [[]|e]];
    unfold raise, ret, print, emit; cbn beta iota;
    intros [= <- <-]; (split; [reflexivity|]);
    exists n, evs; eexists; cbn; rewrite Htr;
    (split; [lia|]); (split; [lia|]); (split; [lia|]); (split; [lia|]);
    (split; [lia|]); (split; [exact Hgood|]);
    (split; [rewrite <- !app_assoc; cbn; reflexivity|]);
    (split; [exact Hev|]); eauto.
Qed.

Lemma report_events_no_led E j l :
  filter is_led_event (report_events E j l) = [].
Proof.
  unfold report_events, db_events, publish_events.
  destruct (burst_stats l) as [[avg_v mn] mx]. cbn.
  destruct (mqtt_publish E _ _); reflexivity.
Qed.

(** The guarded block of a cycle, as [acquire_and_sample_accounts] sees
    it. *)
Lemma burst_cycle_block E s :
  exists s1,
    acquire_and_sample (cycle_fuel (self s)) E (self s) (started s)
      = Some (Ok tt, s1) /\
    self s1 = self s /\
    _burst_cycle E s = Some (Ok tt, reported E s1).
Proof.
  destruct (burst_cycle_spec E s) as (s1 & Hacq & [Hself _ _] & _ & Hrun).
  exists s1. auto.
Qed.

(** ** The LED is given back *)

(** X1.  When the LED was acquired, the cycle gives it back exactly once,
    whatever the sleeps, the clock and the sensor do and however the block
    ends: between acquiring and giving back there are only the block's own
    prints, waits and reads, and everything after, the statistics and both
    sinks, comes with the LED released. *)
Theorem led_is_given_back (E : env) (s : mstate) :
  led_acquire E = None ->
  exists s' mid rest,
    _burst_cycle E s = Some (Ok tt, s') /\
    trace s' = trace s ++
      EvPrint LogBurstStart ::
      EvLedAcquire (led_channel (self s)) (led_intensity (self s)) :: mid
      ++ EvLedRelease (led_channel (self s)) :: rest /\
    Forall (fun ev => is_body_event ev = true) mid /\
    filter is_led_event rest = [] /\
    In (EvSetLastBurstAvg (avg_of (samples s'))) rest /\
    filter is_sink_event rest =
      [ EvDbInsert (insert_row (self s) (current_utc_datetime E) (avg_of (samples s')));
        EvPublish (burst_topic (self s))
          (burst_payload (self s) (current_utc_datetime E) (avg_of (samples s'))
             (List.length (samples s'))) ].
Proof.
  intros Hled.
  destruct (burst_cycle_block E s) as (s1 & Hacq & Hself & Hrun).
  apply acquire_and_sample_accounts in Hacq. destruct Hacq as [_ Hacc].
  rewrite Hled in Hacc.
  destruct Hacc as (n & mid & tail & _ & _ & _ & _ & _ & _ & Htr & Hmid & Htail).
  cbn in Htr.
  exists (reported E s1), mid, (tail ++ report_events E (self s) (samples s1)).
  split; [exact Hrun|]. split.
  { unfold reported. cbn [trace]. rewrite Htr, Hself, <- !app_assoc. cbn.
    rewrite <- !app_assoc. reflexivity. }
  split; [exact Hmid|].
  cbn [samples reported].
  rewrite !filter_app, report_events_no_led.
  unfold report_events, avg_of, db_events, publish_events.
  destruct (burst_stats (samples s1)) as [[avg_v mn] mx]. cbn [fst snd].
  destruct Htail as [->|[e ->]]; cbn;
    (split; [reflexivity|]); (split; [auto|]);
    destruct (mqtt_publish E _ _); reflexivity.
Qed.

Lemma led_is_given_back_witness :
  exists s' mid rest,
    _burst_cycle flaky_env (initial_state demo_job) = Some (Ok tt, s') /\
    trace s' =
      EvPrint LogBurstStart :: EvLedAcquire "B" 70%float :: mid
      ++ EvLedRelease "B" :: rest /\
    filter is_led_event rest = [].
Proof.
  destruct (led_is_given_back flaky_env (initial_state demo_job))
    as (s' & mid & rest & Hrun & Htr & _ & Hrest & _).
  - reflexivity.
  - exists s', mid, rest. auto.
Defined.

(** ** How much of the host a cycle uses *)

(** X2.  A cycle reads the sensor at most [target_samples] times (never,
    when that is not positive), waits at most once more than it reads, and
    asks the clock at most twice more than it reads. *)
Theorem cycle_host_calls_are_bounded (E : env) (s : mstate) :
  exists s' n,
    _burst_cycle E s = Some (Ok tt, s') /\
    read_calls s' = (read_calls s + n)%nat /\
    Z.of_nat n <= Z.max 0 (target_samples (self s)) /\
    (sleep_calls s <= sleep_calls s' <= sleep_calls s + n + 1)%nat /\
    (time_calls s <= time_calls s' <= time_calls s + n + 2)%nat.
Proof.
  destruct (burst_cycle_block E s) as (s1 & Hacq & Hself & Hrun).
  apply acquire_and_sample_accounts in Hacq. destruct Hacq as [_ Hacc].
  exists (reported E s1).
  destruct (led_acquire E) as [e|].
  - destruct Hacc as (Hrd & Hsl & Htm & _). cbn in Hrd, Hsl, Htm.
    exists 0%nat. split; [exact Hrun|]. cbn. lia.
  - destruct Hacc as (n & mid & tail & Hrd & Hsl & Htm & _ & Hcap & _).
    cbn in Hrd, Hsl, Htm. exists n. split; [exact Hrun|]. cbn. lia.
Qed.

(** X3.  In a cycle only the last read can have failed: the cycle made [n]
    reads, every one of them but possibly the last returned a voltage, and
    the samples are [n] or [n - 1] many, in the order they were read. *)
Theorem only_the_last_read_can_fail (E : env) (s : mstate) :
  exists s' n,
    _burst_cycle E s = Some (Ok tt, s') /\
    read_calls s' = (read_calls s + n)%nat /\
    samples s' = collected_reads E (read_calls s) n /\
    (List.length (samples s') <= n <= List.length (samples s') + 1)%nat /\
    (forall i, (i + 1 < n)%nat ->
               exists v, read_voltage_at E (read_calls s + i) = Ok v).
Proof.
  destruct (burst_cycle_spec E s)
    as (s1 & Hacq & [_ (m & Hm & Hsamples) _] & _ & Hrun).
  cbn in Hm, Hsamples.
  apply acquire_and_sample_accounts in Hacq. destruct Hacq as [_ Hacc].
  exists (reported E s1), m. split; [exact Hrun|]. cbn [read_calls samples reported].
  split; [exact Hm|]. split; [exact Hsamples|].
  destruct (led_acquire E) as [e|].
  - destruct Hacc as (Hrd & _ & _ & Hnil & _). cbn in Hrd.
    assert (m = 0)%nat by lia. subst m. rewrite Hnil. cbn.
    split; [lia|]. intros i Hi. lia.
  - destruct Hacc as (n & mid & tail & Hrd & _ & _ & Hlen & _ & Hgood & _).
    cbn in Hrd, Hgood. assert (n = m) by lia. subst n.
    split; [exact Hlen|exact Hgood].
Qed.

Lemma only_the_last_read_can_fail_witness :
  exists s',
    _burst_cycle flaky_env (initial_state demo_job) = Some (Ok tt, s') /\
    read_calls s' = 3%nat /\
    samples s' = [1%float; 2%float].
Proof.
  destruct (only_the_last_read_can_fail flaky_env (initial_state demo_job))
    as (s' & n & Hrun & Hrd & Hsamples & _ & _).
  exists s'. split; [exact Hrun|].
  assert (Hn : read_calls s' = 3%nat).
  { vm_compute in Hrun. injection Hrun as <-. reflexivity. }
  split; [exact Hn|].
  rewrite Hsamples. cbn in Hrd. rewrite Hn in Hrd. subst n. reflexivity.
Defined.

(** ** The cadence *)

Lemma SFltb_asym (x y : spec_float) : SFltb x y = true -> SFltb y x = false.
Proof.
  unfold SFltb, SFcompare.
  destruct x as [sx|sx| |sx mx ex], y as [sy|sy| |sy my ey];
    try destruct sx; try destruct sy; cbn; try discriminate; try reflexivity;
    change (Pos.compare_cont Eq my mx) with (Pos.compare my mx);
    change (Pos.compare_cont Eq mx my) with (Pos.compare mx my);
    rewrite (Z.compare_antisym ex ey), (Pos.compare_antisym mx my);
    destruct (Z.compare ex ey), (Pos.compare mx my); cbn;
    try discriminate; reflexivity.
Qed.

Lemma ltb_asym (x y : float) : (x <? y)%float = true -> (y <? x)%float = false.
Proof. rewrite !ltb_spec. apply SFltb_asym. Qed.

Lemma ltb_not_nan (x y : float) : (x <? y)%float = true -> is_nan y = false.
Proof.
  unfold is_nan. rewrite ltb_spec, eqb_spec. unfold SFltb, SFeqb, SFcompare.
  destruct (Prim2SF x) as [sx|sx| |sx mx ex], (Prim2SF y) as [sy|sy| |sy my ey];
    try destruct sx; try destruct sy; cbn; try discriminate; try reflexivity;
    intros _; rewrite Z.compare_refl, Pos.compare_cont_refl; reflexivity.
Qed.

Lemma Prim2SF_0_02 : Prim2SF f0_02 = S754_finite false 5764607523034235 (-58).
Proof. reflexivity. Qed.

(** Above 0.02 is above 0. *)
Lemma above_floor_not_negative (q : float) :
  (f0_02 <? q)%float = true -> (q <? 0)%float = false.
Proof.
  rewrite !ltb_spec, Prim2SF_0_02, Prim2SF_zero. unfold SFltb, SFcompare.
  destruct (Prim2SF q) as [sq|sq| |sq mq eq]; try destruct sq; cbn;
    try discriminate; reflexivity.
Qed.

(** X4.  Whenever the cadence can be computed it is at least the floor of
    0.02 s, hence neither negative nor a NaN, even for a negative, infinite
    or NaN [burst_seconds]; it is 0.05 s when [target_samples] is at most 1.
    So [sleep] refuses it only when it lies beyond its clock. *)
Theorem cadence_is_at_least_the_floor (j : job) (dt : float) :
  target_dt_of j = Ok dt ->
  (dt <? f0_02)%float = false /\
  (dt <? 0)%float = false /\
  is_nan dt = false /\
  (target_samples j <= 1 -> dt = f0_05) /\
  sleep_accepts dt = negb (Py.sleep_overflows dt).
Proof.
  intros Hdt.
  assert (Hcases : dt = f0_05 \/ exists q, dt = Py.max2 f0_02 q).
  { unfold target_dt_of in Hdt. destruct (1 <? target_samples j).
    - destruct (Py.truediv_int _ _) as [q|e]; [|discriminate].
      cbn in Hdt. injection Hdt as <-. right. now exists q.
    - injection Hdt as <-. now left. }
  assert (Hfloor : (dt <? f0_02)%float = false /\ (dt <? 0)%float = false
                   /\ is_nan dt = false).
  { destruct Hcases as [->|[q ->]]; [repeat split; reflexivity|].
    unfold Py.max2. destruct (f0_02 <? q)%float eqn:Hq.
    - split; [now apply ltb_asym|]. split; [now apply above_floor_not_negative|].
      now apply (ltb_not_nan f0_02).
    - repeat split; reflexivity. }
  destruct Hfloor as (H1 & H2 & H3).
  split; [exact H1|]. split; [exact H2|]. split; [exact H3|]. split.
  - intros Hle. unfold target_dt_of in Hdt.
    destruct (Z.ltb_spec 1 (target_samples j)); [lia|]. congruence.
  - unfold sleep_accepts. rewrite H2, H3. cbn. now rewrite andb_true_r.
Qed.

Lemma cadence_is_at_least_the_floor_witness :
  target_dt_of demo_job = Ok f0_1 /\
  (f0_1 <? f0_02)%float = false /\ sleep_accepts f0_1 = true.
Proof.
  destruct (cadence_is_at_least_the_floor demo_job f0_1)
    as (Hfloor & _ & _ & _ & Hsleep).
  - reflexivity.
  - split; [reflexivity|]. split; [exact Hfloor|]. rewrite Hsleep. reflexivity.
Defined.

(** ** A full burst *)

Lemma sleep_accepts_runs E dt s :
  sleep_accepts dt = true ->
  py_sleep E dt s =
  Some (match sleep_at E (sleep_calls s) with
        | None => Ok tt
        | Some e => Raise e
        end,
        {| self := self s; samples := samples s; time_calls := time_calls s;
           read_calls := read_calls s; sleep_calls := S (sleep_calls s);
           trace := trace s ++ [EvSleep dt] |}).
Proof.
  unfold sleep_accepts, py_sleep. intros H.
  apply andb_prop in H. destruct H as [H Hneg].
  apply andb_prop in H. destruct H as [Hnan Hfit].
  apply negb_true_iff in Hneg, Hnan, Hfit. rewrite Hneg, Hnan, Hfit. reflexivity.
Qed.

(** While reads and waits succeed and the clock stays within the burst, the
    loop goes on until the count is reached. *)
Lemma sampling_loop_fills E j t0 dt :
  sleep_accepts dt = true ->
  (forall k, sleep_at E k = None) ->
  (forall k, exists v, read_voltage_at E k = Ok v) ->
  forall fuel s,
    let m := Z.to_nat (target_samples j - Z.of_nat (List.length (samples s))) in
    (m < fuel)%nat ->
    (forall i, (i < m)%nat ->
       (time_at E (time_calls s + i) - t0 <? burst_seconds j)%float = true) ->
    exists s',
      sampling_loop fuel E j t0 dt s = Some (Ok tt, s') /\
      samples s' = samples s ++ collected_reads E (read_calls s) m /\
      List.length (samples s') = (List.length (samples s) + m)%nat.
Proof.
  intros Hdt Hsleep Hread.
  induction fuel as [|fuel IH]; intros s m Hfuel Hclock; [lia|].
  step_loop s. unfold keep_sampling.
  destruct (Z.ltb_spec (Z.of_nat (List.length (samples s))) (target_samples j))
    as [Hlt|Hge].
  - assert (Hm : m = S (Z.to_nat (target_samples j
                                   - Z.of_nat (List.length (samples s ++ [0%float]))))).
    { subst m. rewrite length_app. cbn. lia. }
    assert (H0 : (time_at E (time_calls s) - t0 <? burst_seconds j)%float = true).
    { rewrite <- (Nat.add_0_r (time_calls s)). apply Hclock. lia. }
    rewrite H0. cbn [andb].
    step_read. destruct (Hread (read_calls s)) as [v Hv]. rewrite Hv.
    unfold bind at 1, append_sample.
    cbn [read_calls samples self trace time_calls sleep_calls].
    unfold bind at 1. rewrite (sleep_accepts_runs E dt _ Hdt).
    cbn [read_calls samples self trace time_calls sleep_calls].
    rewrite Hsleep.
    match goal with
    | |- context [sampling_loop fuel E j t0 dt ?st] =>
        destruct (IH st) as (s' & Hrun & Hs & Hlen)
    end.
    { cbn. rewrite length_app in *. cbn in *. lia. }
    { cbn. intros i Hi. rewrite length_app in Hi. cbn in Hi.
      rewrite plus_n_Sm. apply Hclock. rewrite length_app in Hm. cbn in Hm. lia. }
    exists s'. split; [exact Hrun|]. cbn in Hs, Hlen.
    rewrite length_app in Hs, Hlen. cbn in Hs, Hlen.
    rewrite length_app in Hm. cbn in Hm.
    split.
    + rewrite Hs, Hm. cbn. rewrite Hv, <- app_assoc. reflexivity.
    + rewrite Hlen. lia.
  - rewrite andb_false_r. unfold ret.
    assert (Hm : m = 0%nat) by (subst m; lia). rewrite Hm.
    eexists. split; [reflexivity|]. cbn. rewrite app_nil_r. split; [reflexivity|lia].
Qed.

Lemma settle_and_sample_fills E j fuel s d dt :
  (forall k, sleep_at E k = None) ->
  (forall k, exists v, read_voltage_at E k = Ok v) ->
  settle_seconds j = Ok d -> sleep_accepts d = true ->
  target_dt_of j = Ok dt -> sleep_accepts dt = true ->
  let m := Z.to_nat (target_samples j - Z.of_nat (List.length (samples s))) in
  (m < fuel)%nat ->
  (forall i, (i < m)%nat ->
     (time_at E (S (time_calls s) + i) - time_at E (time_calls s)
        <? burst_seconds j)%float = true) ->
  exists s',
    settle_and_sample fuel E j s = Some (Ok tt, s') /\
    samples s' = samples s ++ collected_reads E (read_calls s) m /\
    List.length (samples s') = (List.length (samples s) + m)%nat.
Proof.
  intros Hsleep Hread Hd Hdok Hdt Hdtok m Hfuel Hclock.
  unfold settle_and_sample. unfold bind at 1, lift. rewrite Hd.
  unfold bind at 1, print, emit. cbn beta iota.
  unfold bind at 1. rewrite (sleep_accepts_runs E d _ Hdok).
  cbn [read_calls samples self trace time_calls sleep_calls].
  rewrite Hsleep.
  unfold bind at 1, py_time. cbn beta iota.
  cbn [read_calls samples self trace time_calls sleep_calls].
  unfold bind at 1. rewrite Hdt.
  unfold bind at 1. cbn beta iota.
  match goal with
  | |- context [sampling_loop fuel E j ?t0 dt ?st] =>
      destruct (sampling_loop_fills E j t0 dt Hdtok Hsleep Hread fuel st)
        as (s2 & Hloop & Hs & Hlen)
  end.
  { cbn. exact Hfuel. }
  { cbn. exact Hclock. }
  exists s2. split; [exact Hloop|]. split; [exact Hs|exact Hlen].
Qed.

(** X5.  On a host where the LED is acquired, no wait is interrupted and no
    read fails, with a settle time and a cadence that [sleep] takes, a
    cycle whose clock stays within [burst_seconds] for the first
    [target_samples] tests of the loop collects exactly [target_samples]
    samples: the first that many voltages the sensor returns, in order. *)
Theorem undisturbed_burst_is_full (E : env) (s : mstate) (d dt : float) :
  led_acquire E = None ->
  (forall k, sleep_at E k = None) ->
  (forall k, exists v, read_voltage_at E k = Ok v) ->
  settle_seconds (self s) = Ok d -> sleep_accepts d = true ->
  target_dt_of (self s) = Ok dt -> sleep_accepts dt = true ->
  (forall i, (i < Z.to_nat (target_samples (self s)))%nat ->
     (time_at E (S (time_calls s) + i) - time_at E (time_calls s)
        <? burst_seconds (self s))%float = true) ->
  exists s',
    _burst_cycle E s = Some (Ok tt, s') /\
    samples s' = collected_reads E (read_calls s) (Z.to_nat (target_samples (self s))) /\
    Z.of_nat (List.length (samples s')) = Z.max 0 (target_samples (self s)).
Proof.
  intros Hled Hsleep Hread Hd Hdok Hdt Hdtok Hclock.
  destruct (burst_cycle_block E s) as (s1 & Hacq & Hself & Hrun).
  exists (reported E s1). split; [exact Hrun|]. cbn [samples reported].
  revert Hacq. unfold acquire_and_sample.
  unfold bind at 1, set_samples.
  unfold try_except, with_context, led_enter, led_leave.
  unfold bind at 1. unfold bind at 1, answer. rewrite Hled.
  unfold ret, emit. cbn beta iota.
  match goal with
  | |- context [settle_and_sample ?f E ?j ?st] =>
      destruct (settle_and_sample_fills E j f st d dt Hsleep Hread Hd Hdok Hdt Hdtok)
        as (s2 & Hbody & Hs & Hlen)
  end.
  { cbn. unfold cycle_fuel. lia. }
  { cbn. intros i Hi. rewrite Z.sub_0_r in Hi. apply Hclock. exact Hi. }
  rewrite Hbody. cbn in Hs, Hlen. rewrite Z.sub_0_r in Hs, Hlen.
  unfold bind. cbn beta iota.
  destruct (led_release E); unfold raise, print, emit; cbn beta iota;
    intros [= <-]; cbn [samples]; rewrite Hs; (split; [reflexivity|]);
    rewrite <- Hs, Hlen; lia.
Qed.

Lemma undisturbed_burst_is_full_witness :
  exists s',
    _burst_cycle frozen_env (initial_state demo_job) = Some (Ok tt, s') /\
    samples s' = [1; 2; 3; 4; 5; 6; 7; 8; 9; 10]%float.
Proof.
  destruct (undisturbed_burst_is_full frozen_env (initial_state demo_job)
              0x1.999999999999ap-3%float f0_1)
    as (s' & Hrun & Hsamples & _).
  - reflexivity.
  - intros k. reflexivity.
  - intros k. eexists. reflexivity.
  - reflexivity.
  - reflexivity.
  - reflexivity.
  - reflexivity.
  - intros i _. reflexivity.
  - exists s'. split; [exact Hrun|]. rewrite Hsamples. reflexivity.
Defined.

(** ** From one cycle to the next *)

Lemma body_events_no_burst_end evs :
  Forall (fun ev => is_body_event ev = true) evs ->
  filter is_burst_end evs = [].
Proof.
  induction 1 as [|ev evs Hev _ IH]; [reflexivity|].
  cbn. rewrite IH. destruct ev as [[]| | | | | | |]; (discriminate || reflexivity).
Qed.

(** The events of a cycle before the statistics. *)
Lemma burst_cycle_block_events E s :
  exists s1 evs,
    _burst_cycle E s = Some (Ok tt, reported E s1) /\
    self s1 = self s /\
    trace s1 = trace s ++ evs /\
    filter is_burst_end evs = [].
Proof.
  destruct (burst_cycle_block E s) as (s1 & Hacq & Hself & Hrun).
  apply acquire_and_sample_accounts in Hacq. destruct Hacq as [_ Hacc].
  exists s1. destruct (led_acquire E) as [e|].
  - destruct Hacc as (_ & _ & _ & _ & Htr). cbn in Htr.
    exists [EvPrint LogBurstStart; EvPrint (LogSamplingError e)].
    split; [exact Hrun|]. split; [exact Hself|].
    rewrite Htr, <- app_assoc. split; reflexivity.
  - destruct Hacc as (n & mid & tail & _ & _ & _ & _ & _ & _ & Htr & Hmid & Htail).
    cbn in Htr.
    exists (EvPrint LogBurstStart ::
            EvLedAcquire (led_channel (self s)) (led_intensity (self s)) :: mid
            ++ EvLedRelease (led_channel (self s)) :: tail).
    split; [exact Hrun|]. split; [exact Hself|].
    rewrite Htr, <- app_assoc. split; [reflexivity|].
    cbn. rewrite filter_app, (body_events_no_burst_end mid Hmid). cbn.
    destruct Htail as [->|[e ->]]; reflexivity.
Qed.

(** X7.  The line that closes a burst in the output is printed exactly when
    the publish step failed: once then, and never in a cycle whose message
    went out. *)
Theorem burst_end_is_printed_only_when_publish_fails (E : env) (s : mstate) :
  exists s' evs,
    _burst_cycle E s = Some (Ok tt, s') /\
    trace s' = trace s ++ evs /\
    filter is_burst_end evs =
      match mqtt_publish E (burst_topic (self s))
              (burst_payload (self s) (current_utc_datetime E)
                 (avg_of (samples s')) (List.length (samples s'))) with
      | Some _ => [EvPrint LogBurstEnd]
      | None => []
      end.
Proof.
  destruct (burst_cycle_block_events E s) as (s1 & evs & Hrun & Hself & Htr & Hevs).
  exists (reported E s1), (evs ++ report_events E (self s) (samples s1)).
  split; [exact Hrun|]. split.
  { unfold reported. cbn [trace]. rewrite Htr, Hself, app_assoc. reflexivity. }
  cbn [samples reported]. rewrite filter_app, Hevs.
  unfold report_events, avg_of, db_events, publish_events.
  destruct (burst_stats (samples s1)) as [[avg_v mn] mx]. cbn [fst snd].
  cbn. destruct (sqlite_insert E _); destruct (mqtt_publish E _ _); reflexivity.
Qed.

Lemma same_settings_refl j : same_settings j j.
Proof. unfold same_settings. auto 15. Qed.

Lemma same_settings_trans j1 j2 j3 :
  same_settings j1 j2 -> same_settings j2 j3 -> same_settings j1 j3.
Proof. unfold same_settings. intuition congruence. Qed.

(** Cycles in a row: none raises, the settings stay, the reads add up. *)
Lemma cycles_keep_the_settings_full (E : env) : forall (n : nat) (s : mstate),
  exists s',
    run_cycles n E s = Some (Ok tt, s') /\
    same_settings (self s) (self s') /\
    (read_calls s <= read_calls s')%nat /\
    Z.of_nat (read_calls s' - read_calls s)
      <= Z.of_nat n * Z.max 0 (target_samples (self s)).
Proof.
  induction n as [|n IH]; intros s.
  - exists s. cbn. split; [reflexivity|]. split; [apply same_settings_refl|]. lia.
  - cbn [run_cycles]. unfold bind.
    destruct (burst_cycle_block E s) as (s1 & Hacq & Hself & Hrun).
    rewrite Hrun.
    apply acquire_and_sample_accounts in Hacq. destruct Hacq as [_ Hacc].
    destruct (IH (reported E s1)) as (s' & Hrest & Hsame & Hmono & Hreads).
    exists s'. split; [exact Hrest|].
    assert (Hstep : same_settings (self s) (self (reported E s1))).
    { unfold reported. cbn [self]. rewrite Hself.
      unfold same_settings, with_last_burst_avg. cbn. auto 15. }
    split; [eapply same_settings_trans; eassumption|].
    assert (Ht : target_samples (self (reported E s1)) = target_samples (self s)).
    { destruct Hstep as (_ & _ & _ & _ & _ & _ & _ & Ht & _). exact Ht. }
    rewrite Ht in Hreads. cbn [read_calls reported] in Hmono, Hreads.
    assert (Hone : (read_calls s <= read_calls s1)%nat /\
                   Z.of_nat (read_calls s1 - read_calls s)
                     <= Z.max 0 (target_samples (self s))).
    { destruct (led_acquire E).
      - destruct Hacc as (Hrd & _). cbn in Hrd. lia.
      - destruct Hacc as (k & mid & tail & Hrd & _ & _ & _ & Hcap & _).
        cbn in Hrd. lia. }
    lia.
Qed.

Lemma cycles_keep_the_settings_aux (E : env) (n : nat) (s : mstate) :
  exists s',
    run_cycles n E s = Some (Ok tt, s') /\ same_settings (self s) (self s').
Proof.
  destruct (cycles_keep_the_settings_full E n s) as (s' & Hrun & Hsame & _).
  now exists s'.
Qed.




(** X19.  An interval that [set_interval] accepted stays in force: after
    any number of cycles the job's interval and the timer's are still the
    value set, and every other setting of the job is as it was before the
    call. *)
Theorem accepted_interval_survives_cycles (E : env) (v : float) (n : nat)
  (s : mstate) :
  (0 <? v)%float = true ->
  exists s1 s2,
    set_interval v s = Some (Ok tt, s1) /\
    run_cycles n E s1 = Some (Ok tt, s2) /\
    interval (self s2) = v /\
    record_timer_interval (self s2) = v /\
    job_unit (self s2) = job_unit (self s) /\
    experiment (self s2) = experiment (self s) /\
    led_channel (self s2) = led_channel (self s) /\
    led_intensity (self s2) = led_intensity (self s) /\
    settle_ms (self s2) = settle_ms (self s) /\
    burst_seconds (self s2) = burst_seconds (self s) /\
    target_samples (self s2) = target_samples (self s) /\
    angle (self s2) = angle (self s).
Proof.
  intros Hpos. unfold set_interval. rewrite (ltb_zero_not_leb v Hpos).
  set (s1 := {| self := with_interval v (self s); samples := samples s;
                time_calls := time_calls s; read_calls := read_calls s;
                sleep_calls := sleep_calls s;
                trace := trace s ++ [EvPrint (LogChangingInterval v)] |}).
  destruct (cycles_keep_the_settings_aux E n s1) as (s2 & Hrun & Hsame).
  exists s1, s2. split; [reflexivity|]. split; [exact Hrun|].
  destruct Hsame as (H1 & H2 & H3 & H4 & H5 & H6 & H7 & H8 & H9 & H10).
  cbn in H1, H2, H3, H4, H5, H6, H7, H8, H9, H10. auto 15.
Qed.

Lemma accepted_interval_survives_cycles_witness :
  exists s1 s2,
    set_interval 5%float (initial_state demo_job) = Some (Ok tt, s1) /\
    run_cycles 3 steady_env s1 = Some (Ok tt, s2) /\
    interval (self s2) = 5%float.
Proof.
  destruct (accepted_interval_survives_cycles steady_env 5%float 3
              (initial_state demo_job))
    as (s1 & s2 & H1 & H2 & H3 & _).
  - reflexivity.
  - exists s1, s2. auto.
Defined.

(* ================================================================== *)
(** * Further properties of the ingestion path *)

Lemma topic_levels_single (s : string) :
  has_slash s = false -> topic_levels s = [s].
Proof.
  induction s as [|c s IH]; cbn; [reflexivity|].
  destruct (Ascii.eqb c "/"); cbn; [discriminate|].
  intros Hs. rewrite (IH Hs). reflexivity.
Qed.

Lemma topic_levels_head_no_slash (s : string) :
  match topic_levels s with
  | lvl :: _ => has_slash lvl = false
  | [] => False
  end.
Proof.
  induction s as [|c s IH]; cbn; [reflexivity|].
  destruct (Ascii.eqb c "/") eqn:Hc; cbn; [reflexivity|].
  destruct (topic_levels s); [contradiction|]. cbn. rewrite Hc. exact IH.
Qed.

Lemma topic_levels_no_slash (s : string) :
  Forall (fun lvl => has_slash lvl = false) (topic_levels s).
Proof.
  induction s as [|c s IH]; cbn; [repeat constructor|].
  destruct (Ascii.eqb c "/") eqn:Hc; [constructor; [reflexivity|exact IH]|].
  destruct (topic_levels s) as [|lvl more]; [repeat constructor; cbn; now rewrite Hc|].
  inversion IH as [|? ? Hlvl Hmore]; subst.
  constructor; [cbn; now rewrite Hc|exact Hmore].
Qed.

Lemma plugin_topic_levels (u e : string) :
  topic_levels (plugin_topic u e) =
  "pioreactor"%string :: topic_levels u ++ topic_levels e
    ++ ["led_reading_plugin"; "led_reading"]%string.
Proof.
  unfold plugin_topic.
  change ("pioreactor/" ++ u ++ "/" ++ e ++ "/led_reading_plugin/led_reading")%string
    with ("pioreactor" ++ String "/" (u ++ String "/" (e
            ++ String "/" "led_reading_plugin/led_reading")))%string.
  rewrite !topic_levels_sep. reflexivity.
Qed.

Ltac eval_literal_eqb :=
  repeat match goal with
    | |- context [String.eqb ?a ?b] =>
        let v := eval vm_compute in (String.eqb a b) in
        match v with
        | true => change (String.eqb a b) with true
        | false => change (String.eqb a b) with false
        end
    end.

(** The subscription matches five levels, fixed but for the second and the
    third. *)
Lemma subscription_matches_levels (lv : list string) :
  filter_matches (topic_levels subscription) lv = true <->
  exists u e, lv = ["pioreactor"; u; e; "led_reading_plugin"; "led_reading"]%string.
Proof.
  rewrite subscription_levels. split.
  - destruct lv as [|l0 [|u [|e [|l3 [|l4 [|l5 lv]]]]]]; cbn -[String.eqb];
      eval_literal_eqb; cbn -[String.eqb]; rewrite ?andb_false_r;
      try discriminate.
    intros H. apply andb_prop in H. destruct H as [H0 H].
    apply andb_prop in H. destruct H as [H3 H4].
    rewrite ?andb_true_r in H4.
    apply String.eqb_eq in H0, H3, H4. subst. now exists u, e.
  - intros (u & e & ->). cbn -[String.eqb]. eval_literal_eqb. reflexivity.
Qed.

Lemma topic_join_levels (s : string) : topic_join (topic_levels s) = s.
Proof.
  induction s as [|c s IH]; [reflexivity|].
  cbn [topic_levels]. destruct (Ascii.eqb_spec c "/") as [->|Hc].
  - pose proof (topic_levels_nonempty s) as Hne.
    destruct (topic_levels s) as [|lvl more]; [contradiction|].
    cbn [topic_join] in *. rewrite IH. reflexivity.
  - pose proof (topic_levels_nonempty s) as Hne.
    destruct (topic_levels s) as [|lvl [|lvl' more]]; [contradiction| |].
    + cbn in *. now rewrite IH.
    + cbn [topic_join] in *. rewrite <- IH. reflexivity.
Qed.

(** X8.  The subscription registered for the parser delivers exactly the
    topics [pioreactor/<unit>/<experiment>/led_reading_plugin/led_reading]
    whose unit and experiment are single levels: every such topic is handed
    to the parser, and no other topic is. *)
Theorem subscription_delivers_plugin_topics (topic : string) :
  topic_matches subscription topic = true <->
  exists u e, has_slash u = false /\ has_slash e = false /\ topic = plugin_topic u e.
Proof.
  unfold topic_matches. rewrite subscription_matches_levels. split.
  - intros (u & e & Hlv).
    pose proof (topic_levels_no_slash topic) as Hns. rewrite Hlv in Hns.
    inversion Hns as [|? ? _ Hns1]; subst.
    inversion Hns1 as [|? ? Hu Hns2]; subst.
    inversion Hns2 as [|? ? He _]; subst.
    exists u, e. split; [exact Hu|]. split; [exact He|].
    rewrite <- (topic_join_levels topic), Hlv. reflexivity.
  - intros (u & e & Hu & He & ->).
    exists u, e. rewrite plugin_topic_levels.
    rewrite (topic_levels_single u Hu), (topic_levels_single e He). reflexivity.
Qed.

(** X9.  The parser returns a row exactly when the host reads the topic's
    metadata, the payload is an object holding [led_reading], [angle] and
    [channel], and the three values convert.  The row then takes experiment
    and unit from the topic, the time of parsing as its timestamp, and those
    three values; every other key of the payload, a [timestamp] among them,
    is ignored, and the channel is not checked against 1 and 2. *)
Theorem parser_row_comes_from_topic_and_three_keys
  (produce_metadata : string -> result (string * string)) (now : string)
  (float_of_str : string -> result float) (int_of_str : string -> result Z)
  (topic : string) (payload : json) (row : db_row) :
  _parser produce_metadata now float_of_str int_of_str topic payload = Ok row <->
  exists meta fields v_reading v_angle v_channel reading ang chan,
    produce_metadata topic = Ok meta /\
    payload = JObject fields /\
    dict_get "led_reading" fields = Some v_reading /\
    py_float float_of_str v_reading = Ok reading /\
    dict_get "angle" fields = Some v_angle /\
    py_int int_of_str v_angle = Ok ang /\
    dict_get "channel" fields = Some v_channel /\
    py_int int_of_str v_channel = Ok chan /\
    row = {| row_experiment := fst meta; row_pioreactor_unit := snd meta;
             row_timestamp := now; row_led_reading := reading;
             row_angle := ang; row_channel := chan |}.
Proof.
  unfold _parser, rbind, subscript. split.
  - destruct (produce_metadata topic) as [meta|] eqn:Hm; [|discriminate].
    destruct payload as [| | | | | |fields]; try discriminate.
    destruct (dict_get "led_reading" fields) as [v1|] eqn:G1; [|discriminate].
    destruct (py_float float_of_str v1) as [reading|] eqn:H1; [|discriminate].
    destruct (dict_get "angle" fields) as [v2|] eqn:G2; [|discriminate].
    destruct (py_int int_of_str v2) as [ang|] eqn:H2; [|discriminate].
    destruct (dict_get "channel" fields) as [v3|] eqn:G3; [|discriminate].
    destruct (py_int int_of_str v3) as [chan|] eqn:H3; [|discriminate].
    intros [= <-]. exists meta, fields, v1, v2, v3, reading, ang, chan.
    repeat split; first [reflexivity | assumption].
  - intros (meta & fields & v1 & v2 & v3 & reading & ang & chan
            & -> & -> & -> & -> & -> & -> & -> & -> & ->).
    reflexivity.
Qed.

Lemma parser_row_comes_from_topic_and_three_keys_witness :
  _parser (fun _ => Ok ("exp1", "pio1")%string) "2025-09-01T12:00:00.000Z"
    (fun _ => Raise (ValueError "could not convert string to float"))
    (fun _ => Raise (ValueError "invalid literal for int()"))
    (plugin_topic "pio1" "exp1") documented_payload
  = Ok {| row_experiment := "exp1"; row_pioreactor_unit := "pio1";
          row_timestamp := "2025-09-01T12:00:00.000Z";
          row_led_reading := 0.5%float; row_angle := 180; row_channel := 2 |}.
Proof.
  apply (proj2 (parser_row_comes_from_topic_and_three_keys _ _ _ _ _ _ _)).
  exists ("exp1", "pio1")%string.
  eexists. exists (JFloat 0.5%float), (JInt 180), (JInt 2), 0.5%float, 180, 2.
  repeat split; reflexivity.
Defined.

Lemma subscription_delivers_plugin_topics_witness :
  topic_matches subscription "pioreactor/pio1/exp1/led_reading_plugin/led_reading"
  = true.
Proof.
  apply (proj2 (subscription_delivers_plugin_topics
                  "pioreactor/pio1/exp1/led_reading_plugin/led_reading")).
  exists "pio1"%string, "exp1"%string. repeat split; reflexivity.
Defined.

(* ================================================================== *)
(** * [SimpleADC] *)

(** X10.  Constructing a [SimpleADC] succeeds exactly when the channel has
    a selector and the driver's constructor returns, also when setting the
    gain then fails; in every other case it raises
    [HardwareNotFoundError] and nothing else, without touching the gain. *)
Theorem simple_adc_init_outcomes (H : adc_host) (channel : string) (dyn : bool) :
  match ADC_CHANNEL_FUNCS H channel, ADCDriver H with
  | Some sel, Ok drv =>
      exists calls,
        SimpleADC_init H channel dyn =
          (Ok {| adc_channel := channel; dynamic_gain := dyn;
                 selector := sel; adc := drv |}, calls)
  | _, _ =>
      exists msg calls,
        SimpleADC_init H channel dyn = (Raise (hardware_not_found msg), calls) /\
        forall g, ~ In (CallSetAdsGain g) calls
  end.
Proof.
  unfold SimpleADC_init, adc_lookup_and_build.
  destruct (ADC_CHANNEL_FUNCS H channel) as [sel|].
  - destruct (ADCDriver H) as [drv|e].
    + eexists. reflexivity.
    + destruct e; cbn; do 2 eexists; (split; [reflexivity|]);
        intros g [Hc|[]]; discriminate.
  - destruct (ADCDriver H); cbn; do 2 eexists; (split; [reflexivity|]);
      intros g [].
Qed.

Lemma float_of_number_idem (v : number) :
  rbind (rbind (float_of_number v) (fun x => Ok (NFloat x))) float_of_number
  = float_of_number v.
Proof. destruct v as [n|x]; cbn; [|reflexivity]. now destruct (Py.float_of_int n). Qed.

(** X11.  [check_on_gain] never raises, whatever the driver does, and does
    not reach the driver at all without [dynamic_gain].  [read_voltage] has
    no handler: it makes one read, and what it returns is the float of what
    the shim [from_raw_to_voltage] makes of the raw reading, a failure of the
    driver's read or conversion included. *)
Theorem adc_wrapper_error_policy (a : SimpleADC) (value_v : float) :
  fst (SimpleADC_check_on_gain a value_v) = Ok tt /\
  (dynamic_gain a = false -> snd (SimpleADC_check_on_gain a value_v) = []) /\
  fst (SimpleADC_read_voltage a) =
    rbind (read_from_channel (adc a) (selector a))
      (fun raw => rbind (SimpleADC_from_raw_to_voltage a raw) float_of_number) /\
  filter (fun c => match c with CallReadFromChannel _ => true | _ => false end)
    (snd (SimpleADC_read_voltage a)) = [CallReadFromChannel (selector a)].
Proof.
  unfold SimpleADC_check_on_gain, SimpleADC_read_voltage,
    SimpleADC_from_raw_to_voltage.
  split; [|split; [|split]].
  - destruct (dynamic_gain a); [|reflexivity].
    destruct (drv_check_on_gain (adc a)) as [check|]; [|reflexivity].
    cbn. destruct (check value_v); reflexivity.
  - intros ->. reflexivity.
  - destruct (read_from_channel (adc a) (selector a)) as [raw|e]; [|reflexivity].
    destruct (drv_from_raw_to_voltage (adc a)) as [convert|]; cbn; [|reflexivity].
    destruct (convert raw) as [v|e]; cbn; [|reflexivity].
    symmetry. apply float_of_number_idem.
  - destruct (read_from_channel (adc a) (selector a)) as [raw|e]; [|reflexivity].
    destruct (drv_from_raw_to_voltage (adc a)); reflexivity.
Qed.

Lemma adc_wrapper_error_policy_witness :
  exists a calls,
    SimpleADC_init demo_adc_host "1" false = (Ok a, calls) /\
    snd (SimpleADC_check_on_gain a 1%float) = [] /\
    fst (SimpleADC_read_voltage a) = Ok 0x1.3333333333333p+0%float.
Proof.
  do 2 eexists. split; [reflexivity|].
  split.
  - apply adc_wrapper_error_policy. reflexivity.
  - reflexivity.
Defined.

(* ================================================================== *)
(** * Construction of the job *)

Ltac run_startup :=
  unfold LEDReader_init, resolve_led_channel, resolve_intensity, resolve_angle,
    clean_up_and_raise, wbind, wemit, wanswer, wret, wraise.

Ltac split_startup :=
  repeat (cbn;
    match goal with
    | |- context [match ?x with _ => _ end] =>
        match x with
        | context [match _ with _ => _ end] => fail 1
        | _ => destruct x eqn:?
        end
    | |- context [if ?x then _ else _] =>
        match x with
        | context [match _ with _ => _ end] => fail 1
        | context [if _ then _ else _] => fail 1
        | _ => destruct x eqn:?
        end
    end); cbn.

(** X12.  Without the HAT the constructor stops right after the base
    class: it calls [clean_up] and raises [HardwareNotFoundError], and
    reads no configuration, creates no table, builds no ADC and starts no
    timer. *)
Theorem startup_without_hat_stops_first (H : startup_host) (a : init_args) :
  su_super_init H = None ->
  su_is_HAT_present H = false ->
  exists e,
    LEDReader_init H a =
      (Raise e, [SuSuperInit (a_unit a) (a_experiment a); SuCleanUp]) /\
    (su_clean_up H = None ->
     e = hardware_not_found "Pioreactor HAT must be present.").
Proof.
  intros Hsuper Hhat. run_startup. rewrite Hsuper, Hhat.
  destruct (su_clean_up H) as [e|]; eexists; (split; [reflexivity|]);
    [discriminate|reflexivity].
Qed.

Lemma startup_without_hat_stops_first_witness :
  LEDReader_init no_hat_host demo_args =
    (Raise (hardware_not_found "Pioreactor HAT must be present."),
     [SuSuperInit "pio1" "exp1"; SuCleanUp]).
Proof.
  destruct (startup_without_hat_stops_first no_hat_host demo_args)
    as (e & Hrun & He).
  - reflexivity.
  - reflexivity.
  - rewrite Hrun, (He eq_refl). reflexivity.
Defined.

(** X13.  The timer is the last thing the constructor touches, and it gets
    there only when everything before went well: whenever a start of the
    timer was attempted, it was with the given interval and an immediate
    first run, the HAT was present, the table step and the ADC had
    succeeded, and [clean_up] had not been called.  The constructor returns
    exactly when that start succeeds. *)
Theorem timer_is_armed_last (H : startup_host) (a : init_args)
  (r : result (job * SimpleADC)) (evs : list startup_event) :
  LEDReader_init H a = (r, evs) ->
  (filter is_timer_start evs = [] \/
   exists pre,
     evs = pre ++ [SuTimerStart (a_interval a) true] /\
     filter is_timer_start pre = [] /\
     filter is_clean_up pre = [] /\
     su_is_HAT_present H = true /\
     su_ensure_table H = None /\
     exists the_adc,
       fst (SimpleADC_init (su_adc_host H) (a_pd_channel a) (negb (a_fake_data a)))
       = Ok the_adc) /\
  ((exists built, r = Ok built) <->
   filter is_timer_start evs = [SuTimerStart (a_interval a) true]
   /\ su_timer_start H = None).
Proof.
  run_startup. split_startup; intros [= <- <-]; split;
    try (left; reflexivity);
    try (split; [intros [built Hb]; discriminate | intros [Ht _]; discriminate]).
  all: try (right;
            match goal with
            | |- exists pre, ?l = _ /\ _ => exists (removelast l)
            end; cbn; repeat split; eauto).
  all: split;
    first [ intros [built Hb]; discriminate
          | intros [_ Hs]; discriminate
          | intros _; split; reflexivity
          | intros _; eexists; reflexivity ].
Qed.

Lemma timer_is_armed_last_witness :
  exists built evs,
    LEDReader_init demo_startup_host demo_args = (Ok built, evs) /\
    filter is_timer_start evs = [SuTimerStart 20%float true].
Proof.
  do 2 eexists. split; [reflexivity|].
  eapply (proj1 (proj2 (timer_is_armed_last demo_startup_host demo_args _ _ eq_refl))).
  eexists. reflexivity.
Defined.

(** X14.  When the angle of photodiode channel 1 is not configured, or is
    not an integer, the constructor raises, and it has then created no
    table, built no ADC and started no timer.  When everything before the
    angle went well (the base class returned, the HAT is there, the LED
    channel was given or the configuration names it, the intensity was
    given or the configuration answers for it), reading the angle and
    calling [clean_up] are the last two things the constructor does, no
    [clean_up] comes before them, and what it raises is, if [clean_up]
    returns, the [ValueError] that names the missing angle or else the
    exception of [int] itself. *)
Theorem startup_without_angle_builds_nothing (H : startup_host) (a : init_args) :
  su_pd1_angle H = None \/
  (exists angle_str e, su_pd1_angle H = Some angle_str /\ su_int H angle_str = Raise e) ->
  exists e evs,
    LEDReader_init H a = (Raise e, evs) /\
    filter is_build_event evs = [] /\
    (forall ch,
       su_super_init H = None -> su_is_HAT_present H = true ->
       match a_led_channel a with
       | Some given => ch = given
       | None => su_leds_reverse H (a_led_name a) = Ok ch
       end ->
       match a_led_intensity_percent a with
       | Some _ => True
       | None => exists v, su_getfloat H (intensity_key ch) = Ok v
       end ->
       (exists pre,
          evs = pre ++ [SuGetAngle; SuCleanUp] /\ filter is_clean_up pre = []) /\
       (su_clean_up H = None ->
        (su_pd1_angle H = None ->
         e = ValueError "Angle for PD channel 1 is required in config.") /\
        (forall angle_str e0,
           su_pd1_angle H = Some angle_str -> su_int H angle_str = Raise e0 ->
           e = e0))).
Proof.
  intros Hangle. run_startup.
  destruct Hangle as [Hnone|(angle_str & e0 & Hsome & Hint)].
  - rewrite Hnone. split_startup; do 2 eexists; (split; [reflexivity|]);
      (split; [reflexivity|]); intros ch Hsuper Hhat Hch Hint;
      try discriminate;
      try (match type of Hint with ex _ => destruct Hint as [v Hv]; subst; congruence end);
      try congruence;
      (split;
       [ match goal with
         | |- exists pre, ?l = _ /\ _ => exists (removelast (removelast l))
         end; split; reflexivity
       | intros Hclean; split; [intros _|intros s1 e1 Hs1 He1]; congruence ]).
  - rewrite Hsome, Hint. split_startup; do 2 eexists; (split; [reflexivity|]);
      (split; [reflexivity|]); intros ch Hsuper Hhat Hch Hint';
      try discriminate;
      try (match type of Hint' with ex _ => destruct Hint' as [v Hv]; subst; congruence end);
      try congruence;
      (split;
       [ match goal with
         | |- exists pre, ?l = _ /\ _ => exists (removelast (removelast l))
         end; split; reflexivity
       | intros Hclean; split; [intros Hn|intros s1 e1 Hs1 He1]; congruence ]).
Qed.

Lemma startup_without_angle_builds_nothing_witness :
  exists pre,
    LEDReader_init no_angle_host demo_args =
      (Raise (ValueError "Angle for PD channel 1 is required in config."),
       pre ++ [SuGetAngle; SuCleanUp]) /\
    filter is_clean_up pre = [] /\
    filter is_build_event (pre ++ [SuGetAngle; SuCleanUp]) = [].
Proof.
  destruct (startup_without_angle_builds_nothing no_angle_host demo_args)
    as (e & evs & Hrun & Hbuild & Hlast).
  - left. reflexivity.
  - destruct (Hlast "B"%string) as ((pre & Hevs & Hpre) & He);
      [reflexivity|reflexivity|reflexivity|exists None; reflexivity|].
    destruct (He eq_refl) as [Hmissing _].
    exists pre. rewrite Hrun, (Hmissing eq_refl), <- Hevs.
    split; [reflexivity|]. split; [exact Hpre|exact Hbuild].
Defined.

(** What a returned constructor has done. *)
Lemma LEDReader_init_inv (H : startup_host) (a : init_args)
  (j : job) (the_adc : SimpleADC) (evs : list startup_event) :
  LEDReader_init H a = (Ok (j, the_adc), evs) ->
  job_unit j = a_unit a /\ experiment j = a_experiment a /\
  interval j = a_interval a /\ record_timer_interval j = a_interval a /\
  settle_ms j = a_settle_ms a /\ burst_seconds j = a_burst_seconds a /\
  target_samples j = a_target_samples a /\ last_burst_avg j = None /\
  match a_led_channel a with
  | Some ch => led_channel j = ch /\
               filter (fun ev => match ev with SuGetLedsReverse _ => true | _ => false end)
                 evs = []
  | None => su_leds_reverse H (a_led_name a) = Ok (led_channel j)
  end /\
  match a_led_intensity_percent a with
  | Some v => led_intensity j = v
  | None =>
      su_getfloat H (intensity_key (led_channel j)) = Ok (Some (led_intensity j)) \/
      (su_getfloat H (intensity_key (led_channel j)) = Ok None /\
       led_intensity j = 70%float)
  end /\
  (exists angle_str,
     su_pd1_angle H = Some angle_str /\ su_int H angle_str = Ok (angle j)) /\
  adc_channel the_adc = a_pd_channel a /\
  dynamic_gain the_adc = negb (a_fake_data a).
Proof.
  assert (Hadc : forall AH ch dyn x,
             fst (SimpleADC_init AH ch dyn) = Ok x ->
             adc_channel x = ch /\ dynamic_gain x = dyn).
  { intros AH ch dyn x. unfold SimpleADC_init.
    destruct (adc_lookup_and_build AH ch) as [[[sel drv]|e] calls]; cbn;
      [|discriminate].
    intros [= <-]. split; reflexivity. }
  run_startup.
  destruct (fst (SimpleADC_init (su_adc_host H) (a_pd_channel a)
                   (negb (a_fake_data a)))) as [x|e] eqn:Hx.
  2:{ split_startup; discriminate. }
  apply Hadc in Hx. destruct Hx as [Hx1 Hx2].
  split_startup; intros [= <- <- <-]; cbn;
    repeat match goal with
      | |- _ /\ _ => split
      end; try reflexivity; try assumption; eauto.
Qed.

(** X15.  A job that was constructed has the arguments as its settings and
    no [last_burst_avg] yet.  Its LED channel is the one given, and the
    configuration was then not asked for it, or else the one the
    configuration maps the LED name to; its intensity is the one given, or
    the configured one, or 70.0 when none is configured; its angle is the
    configured one read as an int; and its ADC has dynamic gain exactly when
    [fake_data] is off. *)
Theorem constructed_job_settings (H : startup_host) (a : init_args)
  (j : job) (the_adc : SimpleADC) (evs : list startup_event) :
  LEDReader_init H a = (Ok (j, the_adc), evs) ->
  job_unit j = a_unit a /\ experiment j = a_experiment a /\
  interval j = a_interval a /\ record_timer_interval j = a_interval a /\
  settle_ms j = a_settle_ms a /\ burst_seconds j = a_burst_seconds a /\
  target_samples j = a_target_samples a /\ last_burst_avg j = None /\
  match a_led_channel a with
  | Some ch => led_channel j = ch /\
               filter (fun ev => match ev with SuGetLedsReverse _ => true | _ => false end)
                 evs = []
  | None => su_leds_reverse H (a_led_name a) = Ok (led_channel j)
  end /\
  match a_led_intensity_percent a with
  | Some v => led_intensity j = v
  | None =>
      su_getfloat H (intensity_key (led_channel j)) = Ok (Some (led_intensity j)) \/
      (su_getfloat H (intensity_key (led_channel j)) = Ok None /\
       led_intensity j = 70%float)
  end /\
  (exists angle_str,
     su_pd1_angle H = Some angle_str /\ su_int H angle_str = Ok (angle j)) /\
  adc_channel the_adc = a_pd_channel a /\
  dynamic_gain the_adc = negb (a_fake_data a).
Proof. apply LEDReader_init_inv. Qed.

Lemma constructed_job_settings_witness :
  exists j the_adc evs,
    LEDReader_init demo_startup_host demo_args = (Ok (j, the_adc), evs) /\
    led_channel j = "B"%string /\ led_intensity j = 70%float /\ angle j = 180 /\
    dynamic_gain the_adc = true.
Proof.
  do 3 eexists. split; [reflexivity|].
  destruct (constructed_job_settings demo_startup_host demo_args _ _ _ eq_refl)
    as (_ & _ & _ & _ & _ & _ & _ & _ & _ & _ & _ & _ & Hgain).
  split; [reflexivity|]. split; [reflexivity|]. split; [reflexivity|].
  exact Hgain.
Defined.

(* ================================================================== *)
(** * [start_led_reading] *)

(** ** Rounding never makes a NaN of a non-negative mantissa *)

Lemma shr_1_nonneg (mrs : shr_record) : 0 <= shr_m mrs -> 0 <= shr_m (shr_1 mrs).
Proof.
  destruct mrs as [m r s]. cbn. destruct m as [|p|p]; cbn; try lia.
  - intros _. destruct p; cbn; lia.
Qed.

Lemma iter_pos_shr_1_nonneg (p : positive) : forall mrs,
  0 <= shr_m mrs -> 0 <= shr_m (iter_pos shr_1 p mrs).
Proof.
  induction p as [p IH|p IH|]; intros mrs Hm; cbn.
  - apply IH, IH, shr_1_nonneg, Hm.
  - apply IH, IH, Hm.
  - apply shr_1_nonneg, Hm.
Qed.

Lemma shr_fexp_nonneg (m e : Z) (l : location) :
  0 <= m -> 0 <= shr_m (fst (shr_fexp prec emax m e l)).
Proof.
  intros Hm. unfold shr_fexp, shr.
  assert (H0 : 0 <= shr_m (shr_record_of_loc m l)).
  { destruct l as [|[]]; exact Hm. }
  destruct (fexp prec emax (Zdigits2 m + e) - e); cbn; auto.
  now apply iter_pos_shr_1_nonneg.
Qed.

Lemma round_nearest_even_nonneg (m : Z) (l : location) :
  0 <= m -> 0 <= round_nearest_even m l.
Proof.
  intros Hm. destruct l as [|[]]; cbn; try lia. destruct (Z.even m); lia.
Qed.

Lemma binary_round_aux_not_nan sx mx ex lx :
  0 <= mx -> binary_round_aux prec emax sx mx ex lx <> S754_nan.
Proof.
  intros Hm. unfold binary_round_aux.
  pose proof (shr_fexp_nonneg mx ex lx Hm) as H1.
  destruct (shr_fexp prec emax mx ex lx) as [mrs' e']. cbn in H1.
  pose proof (shr_fexp_nonneg _ e' loc_Exact
                (round_nearest_even_nonneg _ (loc_of_shr_record mrs') H1)) as H2.
  destruct (shr_fexp prec emax _ e' loc_Exact) as [mrs'' e'']. cbn in H2.
  destruct (shr_m mrs''); try discriminate; [|lia].
  destruct (Z.leb _ _); discriminate.
Qed.

Lemma SFdiv_core_binary_nonneg (m1 m2 : positive) (e1 e2 : Z) :
  0 <= fst (fst (SFdiv_core_binary prec emax (Zpos m1) e1 (Zpos m2) e2)).
Proof.
  unfold SFdiv_core_binary.
  set (s := _ - _ - Z.min _ _).
  set (m' := match s with Zpos _ => Z.shiftl (Zpos m1) s | Z0 => Zpos m1 | Zneg _ => 0 end).
  assert (Hm' : 0 <= m').
  { subst m'. destruct s; try lia. apply Z.shiftl_nonneg. lia. }
  pose proof (Z.div_pos m' (Zpos m2) Hm' ltac:(lia)) as Hq.
  unfold Z.div in Hq. destruct (Z.div_eucl m' (Zpos m2)) as [q r]. exact Hq.
Qed.

Lemma not_nan_spec (x : float) : Prim2SF x <> S754_nan -> is_nan x = false.
Proof.
  unfold is_nan. rewrite eqb_spec. unfold SFeqb, SFcompare.
  destruct (Prim2SF x) as [s|s| |s m e]; try destruct s; cbn; try reflexivity;
    try congruence;
    intros _; rewrite Z.compare_refl, Pos.compare_cont_refl; reflexivity.
Qed.

Lemma signed_not_below_zero (x : float) :
  sf_signed false (Prim2SF x) -> (x <? 0)%float = false.
Proof.
  rewrite ltb_spec, Prim2SF_zero.
  destruct (Prim2SF x) as [s|s| |s m e]; cbn; auto; intros ->; reflexivity.
Qed.

Lemma Prim2SF_one : Prim2SF 1%float = S754_finite false 4503599627370496 (-52).
Proof. reflexivity. Qed.

(** [1.0 / sps] for a positive [sps]: not a NaN and not negative, and the
    division does not raise. *)
Lemma reciprocal_of_positive (sps : float) :
  (0 <? sps)%float = true ->
  (sps =? 0)%float = false /\
  is_nan (1 / sps) = false /\ (1 / sps <? 0)%float = false.
Proof.
  rewrite ltb_spec, eqb_spec, Prim2SF_zero. intros Hpos.
  assert (Hshape : Prim2SF (1 / sps) <> S754_nan /\ sf_signed false (Prim2SF (1 / sps))).
  { rewrite div_spec, Prim2SF_one. unfold SF64div, SFdiv.
    destruct (Prim2SF sps) as [s|s| |s m e]; try destruct s; cbn in Hpos;
      try discriminate.
    - split; [discriminate|exact I].
    - pose proof (SFdiv_core_binary_nonneg 4503599627370496 m (-52) e) as Hq.
      destruct (SFdiv_core_binary _ _ _ _ _ _) as [[mz ez] lz]. cbn in Hq.
      split; [now apply binary_round_aux_not_nan|apply binary_round_aux_signed]. }
  destruct Hshape as [Hnan Hsign].
  split; [|split; [now apply not_nan_spec|now apply signed_not_below_zero]].
  destruct (Prim2SF sps) as [s|s| |s m e]; try destruct s; cbn in Hpos;
    try discriminate; reflexivity.
Qed.

(** X16.  The interval [start_led_reading] derives from
    [samples_per_second] is always defined: the division never raises, and
    the result is never negative and never a NaN.  It is 20.0 s whenever the
    configured rate is not above zero (zero, negative or NaN), and 20.0 s as
    well for the fallback rate 0.05 that applies when none is configured. *)
Theorem interval_from_rate_is_defined (sps : float) :
  exists every,
    interval_from_sps sps = Ok every /\
    (every <? 0)%float = false /\
    is_nan every = false /\
    ((0 <? sps)%float = false -> every = 20%float) /\
    interval_from_sps (with_fallback None f0_05) = Ok 20%float.
Proof.
  unfold interval_from_sps at 1, Py.truediv.
  destruct (0 <? sps)%float eqn:Hpos.
  - destruct (reciprocal_of_positive sps Hpos) as (Hz & Hnan & Hneg).
    rewrite Hz. exists (1 / sps)%float.
    split; [reflexivity|]. split; [exact Hneg|]. split; [exact Hnan|].
    split; [discriminate|reflexivity].
  - exists 20%float. repeat split; reflexivity.
Qed.

Lemma interval_from_rate_is_defined_witness :
  interval_from_sps (-1)%float = Ok 20%float.
Proof.
  destruct (interval_from_rate_is_defined (-1)%float)
    as (every & Hrun & _ & _ & Hfall & _).
  rewrite Hrun, (Hfall eq_refl). reflexivity.
Defined.

Lemma wbind_ok {A B : Type} (m : W A) (k : A -> W B) (b : B) evs :
  wbind m k = (Ok b, evs) ->
  exists a evs1 evs2, m = (Ok a, evs1) /\ k a = (Ok b, evs2) /\ evs = evs1 ++ evs2.
Proof.
  unfold wbind. destruct m as [[a|e] evs1]; [|discriminate].
  destruct (k a) as [r evs2] eqn:Hk. intros [= -> <-]. now exists a, evs1, evs2.
Qed.

Lemma wlift_ok {A : Type} (r : result A) (a : A) evs :
  wlift r = (Ok a, evs) -> r = Ok a.
Proof. unfold wlift. now intros [= ->]. Qed.

(** X17.  A job that [start_led_reading] returned runs on photodiode
    channel 1, with the unit given or else the host's, and with settle time,
    burst length and sample count from the configuration or else 200 ms,
    3.0 s and 12.  An interval given by the caller is taken as it is, with
    no check of its sign; without one the interval comes from the configured
    rate.  In a testing environment the ADC gets no dynamic gain, whatever
    [fake_data] says. *)
Theorem started_job_settings (SH : start_host) (sa : start_args)
  (j : job) (the_adc : SimpleADC) (evs : list startup_event) :
  start_led_reading SH sa = (Ok (j, the_adc), evs) ->
  job_unit j = str_or (s_unit sa) (get_unit_name SH) /\
  match s_interval sa with
  | Some v => interval j = v
  | None =>
      exists sps,
        cfg_samples_per_second SH = Ok sps /\
        interval_from_sps (with_fallback sps f0_05) = Ok (interval j)
  end /\
  record_timer_interval j = interval j /\
  (exists settle, cfg_settle_ms SH = Ok settle /\
                  settle_ms j = with_fallback settle 200) /\
  (exists burst, cfg_burst_seconds SH = Ok burst /\
                 burst_seconds j = with_fallback burst 3%float) /\
  (exists target, cfg_target_samples SH = Ok target /\
                  target_samples j = with_fallback target 12) /\
  adc_channel the_adc = "1"%string /\
  dynamic_gain the_adc = negb (s_fake_data sa || is_testing_env SH) /\
  (is_testing_env SH = true -> dynamic_gain the_adc = false).
Proof.
  unfold start_led_reading.
  set (unit_name := str_or (s_unit sa) (get_unit_name SH)).
  intros Hrun.
  assert (Hinv : exists a,
             LEDReader_init (sh_startup SH) a = (Ok (j, the_adc), snd (LEDReader_init (sh_startup SH) a)) /\
             a_unit a = unit_name /\ a_pd_channel a = "1"%string /\
             a_fake_data a = (s_fake_data sa || is_testing_env SH) /\
             match s_interval sa with
             | Some v => a_interval a = v
             | None =>
                 exists sps,
                   cfg_samples_per_second SH = Ok sps /\
                   interval_from_sps (with_fallback sps f0_05) = Ok (a_interval a)
             end /\
             (exists settle, cfg_settle_ms SH = Ok settle /\
                             a_settle_ms a = with_fallback settle 200) /\
             (exists burst, cfg_burst_seconds SH = Ok burst /\
                            a_burst_seconds a = with_fallback burst 3%float) /\
             (exists target, cfg_target_samples SH = Ok target /\
                             a_target_samples a = with_fallback target 12)).
  { apply wbind_ok in Hrun. destruct Hrun as (exp & ? & ? & _ & Hrun & _).
    apply wbind_ok in Hrun. destruct Hrun as (every & ? & ? & Hevery & Hrun & _).
    apply wbind_ok in Hrun. destruct Hrun as (settle & ? & ? & Hsettle & Hrun & _).
    apply wbind_ok in Hrun. destruct Hrun as (burst & ? & ? & Hburst & Hrun & _).
    apply wbind_ok in Hrun. destruct Hrun as (target & ? & ? & Htarget & Hrun & _).
    apply wlift_ok in Hsettle, Hburst, Htarget.
    eexists. split; [rewrite Hrun; reflexivity|]. cbn.
    split; [reflexivity|]. split; [reflexivity|]. split; [reflexivity|].
    split.
    { destruct (s_interval sa).
      - unfold wret in Hevery. now injection Hevery as <-.
      - apply wbind_ok in Hevery.
        destruct Hevery as (sps & ? & ? & Hsps & Hevery & _).
        apply wlift_ok in Hsps, Hevery. now exists sps. }
    split; [now exists settle|]. split; [now exists burst|now exists target]. }
  destruct Hinv as (a & Hinit & Hunit & Hpd & Hfake & Hint & Hsettle & Hburst & Htarget).
  apply LEDReader_init_inv in Hinit.
  destruct Hinit as (Hu & _ & Hi & Hti & Hs & Hb & Ht & _ & _ & _ & _ & Hch & Hdg).
  split; [congruence|]. split.
  { destruct (s_interval sa); [congruence|].
    destruct Hint as (sps & H1 & H2). exists sps. split; [exact H1|congruence]. }
  split; [congruence|].
  split; [destruct Hsettle as (x & H1 & H2); exists x; split; [exact H1|congruence]|].
  split; [destruct Hburst as (x & H1 & H2); exists x; split; [exact H1|congruence]|].
  split; [destruct Htarget as (x & H1 & H2); exists x; split; [exact H1|congruence]|].
  split; [congruence|]. split; [congruence|].
  intros Htest. rewrite Hdg, Hfake, Htest, orb_true_r. reflexivity.
Qed.

Lemma started_job_settings_witness :
  exists j the_adc evs,
    start_led_reading demo_start_host no_start_args = (Ok (j, the_adc), evs) /\
    interval j = 20%float /\ settle_ms j = 200 /\ target_samples j = 12 /\
    adc_channel the_adc = "1"%string.
Proof.
  do 3 eexists. split; [reflexivity|].
  destruct (started_job_settings demo_start_host no_start_args _ _ _ eq_refl)
    as (_ & _ & _ & _ & _ & _ & Hpd & _).
  split; [reflexivity|]. split; [reflexivity|]. split; [reflexivity|]. exact Hpd.
Defined.

(* ================================================================== *)
(** * The lifecycle hooks *)

(** X18.  [on_disconnected] never raises: it asks the timer to cancel when
    there is one and, whatever came of that, sets the LED channel to 0.0
    when the job has one, absorbing a failure of either step and the absence
    of either attribute.  [_stop_led] on its own never raises either.  The
    two pause hooks have no handler: with a timer they end as its [pause]
    and [unpause] end. *)
Theorem disconnecting_never_raises (LH : life_host) (o : job_object) :
  fst (on_disconnected LH o) = Ok tt /\
  snd (on_disconnected LH o) =
    (if has_record_timer o then [LiTimerCancel] else [])
    ++ match its_led_channel o with
       | Some ch => [LiLedIntensity ch 0%float]
       | None => []
       end /\
  fst (_stop_led LH o) = Ok tt /\
  (has_record_timer o = true ->
   on_sleeping LH o = (result_of (lh_pause LH), [LiTimerPause]) /\
   on_sleeping_to_ready LH o = (result_of (lh_unpause LH), [LiTimerUnpause])).
Proof.
  unfold on_disconnected, _stop_led, on_sleeping, on_sleeping_to_ready, swallow.
  cbn [fst snd].
  split; [reflexivity|]. split.
  - destruct (has_record_timer o), (its_led_channel o); reflexivity.
  - split; [reflexivity|]. intros ->. split; reflexivity.
Qed.

Lemma disconnecting_never_raises_witness :
  on_sleeping
    {| lh_pause := Some (HostError "RuntimeError" "timer thread is gone");
       lh_unpause := None; lh_cancel := None;
       lh_led_intensity := fun _ _ => None |}
    {| has_record_timer := true; its_led_channel := Some "B"%string |}
  = (Raise (HostError "RuntimeError" "timer thread is gone"), [LiTimerPause]).
Proof.
  apply (disconnecting_never_raises
           {| lh_pause := Some (HostError "RuntimeError" "timer thread is gone");
              lh_unpause := None; lh_cancel := None;
              lh_led_intensity := fun _ _ => None |}
           {| has_record_timer := true; its_led_channel := Some "B"%string |}).
  reflexivity.
Defined.
